(** * binja-blocks: recovery of Apple Blocks structures

    A shallow embedding of [src/blocks.py] and [src/shinobi.py].  The plugin
    is Python code driving a host (Binary Ninja); the host is modelled at the
    interface the plugin uses: a byte image, a symbol table, a decompiler
    view (HLIL instructions), a type registry, comments and a log.
    Python exceptions are values of [exn]; every effectful function is a
    computation in the state-and-exception monad [M], whose state survives a
    raised exception, as a mutated Python object does. *)

From Stdlib Require Import ZArith List String Ascii Bool Lia Permutation.
From Stdlib Require Import Strings.Byte.
Import ListNotations.
Open Scope Z_scope.
Set Warnings "-register-all".

(* ===================================================================== *)
(** ** Python values and exceptions *)

Inductive exn : Type :=
| AssertionError
| AttributeError (attr : string)
| UnboundLocalError (name : string)
| TypeError
| RuntimeError (msg : string)
| NotImplementedError
| IndexError.

(** An attribute of a Python object or a local variable: bound or not. *)
Inductive attr (A : Type) : Type :=
| Unset
| Bound (a : A).
Arguments Unset {A}.
Arguments Bound {A} a.

Definition is_bound {A} (x : attr A) : bool :=
  match x with Bound _ => true | Unset => false end.

(** [Optional[int]]: [None] is Python's [None]. *)
Definition pyint := option Z.

(** [format(z, 'x')] *)
Definition hex_digit (n : N) : ascii :=
  match n with
  | 0 => "0" | 1 => "1" | 2 => "2" | 3 => "3" | 4 => "4" | 5 => "5"
  | 6 => "6" | 7 => "7" | 8 => "8" | 9 => "9" | 10 => "a" | 11 => "b"
  | 12 => "c" | 13 => "d" | 14 => "e" | _ => "f"
  end%N%char.

Fixpoint hex_digits (fuel : nat) (n : N) (acc : string) : string :=
  match fuel with
  | O => acc
  | S fuel' =>
      if (n =? 0)%N then acc
      else hex_digits fuel' (n / 16)%N (String (hex_digit (n mod 16)%N) acc)
  end.

Definition hexN (n : N) : string :=
  if (n =? 0)%N then "0"%string
  else hex_digits (S (N.to_nat (N.log2 n))) n EmptyString.

Definition hex (z : Z) : string :=
  if z <? 0 then ("-" ++ hexN (Z.to_N (- z)))%string else hexN (Z.to_N z).

(** [s.startswith(p)] is [String.prefix p s]; [s.endswith(c)] for one
    character: *)
Fixpoint endswith_char (c : ascii) (s : string) : bool :=
  match s with
  | EmptyString => false
  | String a EmptyString => Ascii.eqb a c
  | String _ rest => endswith_char c rest
  end.

(** [s.replace(a, b)] for single characters *)
Fixpoint replace_char (a b : ascii) (s : string) : string :=
  match s with
  | EmptyString => EmptyString
  | String x rest =>
      String (if Ascii.eqb x a then b else x) (replace_char a b rest)
  end.

(* ===================================================================== *)
(** ** Constants of blocks.py *)

Definition BLOCK_HAS_EXTENDED_LAYOUT : Z := 0x80000000.
Definition BLOCK_HAS_SIGNATURE : Z := 0x40000000.
Definition BLOCK_IS_GLOBAL : Z := 0x10000000.
Definition BLOCK_HAS_COPY_DISPOSE : Z := 0x02000000.

Definition BLOCK_BYREF_HAS_COPY_DISPOSE : Z := 0x02000000.
Definition BLOCK_BYREF_LAYOUT_MASK : Z := 0x70000000.
Definition BLOCK_BYREF_LAYOUT_EXTENDED : Z := 0x10000000.
Definition BLOCK_BYREF_LAYOUT_NON_OBJECT : Z := 0x20000000.
Definition BLOCK_BYREF_LAYOUT_STRONG : Z := 0x30000000.
Definition BLOCK_BYREF_LAYOUT_WEAK : Z := 0x40000000.
Definition BLOCK_BYREF_LAYOUT_UNRETAINED : Z := 0x50000000.

Definition BLOCK_LAYOUT_ESCAPE : Z := 0x0.
Definition BLOCK_LAYOUT_NON_OBJECT_BYTES : Z := 0x1.
Definition BLOCK_LAYOUT_NON_OBJECT_WORDS : Z := 0x2.
Definition BLOCK_LAYOUT_STRONG : Z := 0x3.
Definition BLOCK_LAYOUT_BYREF : Z := 0x4.
Definition BLOCK_LAYOUT_WEAK : Z := 0x5.
Definition BLOCK_LAYOUT_UNRETAINED : Z := 0x6.

(* ===================================================================== *)
(** ** Host types and the structure builder *)

(** The types the plugin asks the host for, by the text it parses or the
    name it looks up.  Both supported architectures (aarch64, x86_64) have
    8-byte pointers. *)
Inductive ty : Type :=
| TClass                       (* Class *)
| TId                          (* id *)
| TUInt8Array (n : Z)          (* uint8_t [n] *)
| TUInt64                      (* uint64_t *)
| TUInt32                      (* uint32_t *)
| TVolatileUInt32              (* volatile uint32_t *)
| TVolatileInt32               (* volatile int32_t *)
| TVoidPtr                     (* void * *)
| TCharConstPtr                (* char const * *)
| TUInt8ConstPtr               (* uint8_t const * *)
| TVoid
| TLibclosure (name : string)  (* a type of _LIBCLOSURE_TYPE_SOURCE *)
| TStruct (name : string)      (* struct <name>, defined by the plugin *)
| TPointer (pointee : ty)
| TFunction (ret : ty) (params : list ty) (variadic : bool)
| TParsed (text : string).     (* any other text given to the parser *)

Definition ty_width (t : ty) : Z :=
  match t with
  | TUInt8Array n => n
  | TUInt32 | TVolatileUInt32 | TVolatileInt32 => 4
  | TVoid | TStruct _ | TParsed _ => 0
  | _ => 8
  end.

Definition ty_alignment (t : ty) : Z :=
  match t with
  | TUInt8Array _ | TVoid | TStruct _ | TParsed _ => 1
  | TUInt32 | TVolatileUInt32 | TVolatileInt32 => 4
  | _ => 8
  end.

Record StructureMember : Type := {
  m_type : ty;
  m_name : string;
  m_offset : Z
}.

Record StructureBuilder : Type := {
  sb_packed : bool;
  sb_members : list StructureMember;
  sb_width : Z
}.

(** [binja.StructureBuilder.create(packed=...)] *)
Definition sb_create (packed : bool) : StructureBuilder :=
  {| sb_packed := packed; sb_members := []; sb_width := 0 |}.

Definition align_up (w a : Z) : Z := ((w + a - 1) / a) * a.

(** [struct.append(type, name)]: the member goes to the end, at the current
    width when packed and at the next aligned offset otherwise. *)
Definition sb_append (st : StructureBuilder) (t : ty) (name : string)
  : StructureBuilder :=
  let off := if sb_packed st then sb_width st
             else align_up (sb_width st) (ty_alignment t) in
  {| sb_packed := sb_packed st;
     sb_members := sb_members st
                   ++ [{| m_type := t; m_name := name; m_offset := off |}];
     sb_width := off + ty_width t |}.

Fixpoint replace_member (ms : list StructureMember) (i : nat) (t : ty)
  (name : string) : list StructureMember :=
  match ms, i with
  | [], _ => []
  | m :: rest, O =>
      {| m_type := t; m_name := name; m_offset := m_offset m |} :: rest
  | m :: rest, S i' => m :: replace_member rest i' t name
  end.

(** [struct.replace(index, type, name)] *)
Definition sb_replace (st : StructureBuilder) (i : nat) (t : ty)
  (name : string) : StructureBuilder :=
  {| sb_packed := sb_packed st;
     sb_members := replace_member (sb_members st) i t name;
     sb_width := sb_width st |}.

Fixpoint index_of_name (ms : list StructureMember) (name : string) (i : nat)
  : option nat :=
  match ms with
  | [] => None
  | m :: rest =>
      if String.eqb (m_name m) name then Some i
      else index_of_name rest name (S i)
  end.

(** [struct.index_by_name(name)] *)
Definition sb_index_by_name (st : StructureBuilder) (name : string)
  : option nat :=
  index_of_name (sb_members st) name 0.

(* ===================================================================== *)
(** ** The decompiler view: HLIL *)

Record Var : Type := {
  identifier : Z;
  var_name0 : string;        (* the name the host gave it *)
  var_type0 : string;        (* str() of the type the host gave it *)
  is_stack_variable : bool   (* source_type == StackVariableSourceType *)
}.

Inductive HLILExpr : Type :=
| HighLevelILVar (var : Var)
| HighLevelILStructField (src : HLILExpr) (member_index : Z)
| HighLevelILArrayIndex (src : HLILExpr) (index : HLILExpr)
| HighLevelILDerefField (src : HLILExpr) (member_index : Z)
| HighLevelILDeref (src : HLILExpr)
| HighLevelILAddressOf (src : HLILExpr)
| HighLevelILImport (text : string) (constant : Z) (address : Z)
| HighLevelILConst (constant : Z)
| HighLevelILConstPtr (constant : Z)
| HighLevelILCall (dest : HLILExpr)
| HighLevelILOtherExpr (type_name : string).

Inductive HLILOperation : Type :=
| HighLevelILVarDeclare (var : Var)
| HighLevelILVarInit (dest : Var) (src : HLILExpr)
| HighLevelILAssign (dest : HLILExpr) (src : HLILExpr)
| HighLevelILOtherInsn (type_name : string).

Record HLILInstruction : Type := {
  insn_address : Z;
  insn_op : HLILOperation
}.

(** An instruction object together with [insn.function.instructions], the
    instruction list of the function object it was obtained from. *)
Record HLILRef : Type := {
  ref_insn : HLILInstruction;
  ref_function : list HLILInstruction
}.

(** Attribute accesses on HLIL objects; a missing attribute raises. *)
Definition expr_var (e : HLILExpr) : exn + Var :=
  match e with
  | HighLevelILVar v => inr v
  | _ => inl (AttributeError "var")
  end.

Definition insn_var (i : HLILInstruction) : exn + Var :=
  match insn_op i with
  | HighLevelILVarDeclare v => inr v
  | _ => inl (AttributeError "var")
  end.

Definition is_const (e : HLILExpr) : option Z :=
  match e with
  | HighLevelILConst c | HighLevelILConstPtr c => Some c
  | _ => None
  end.

(* ===================================================================== *)
(** ** Host state *)

Inductive SymbolType : Type :=
| ExternalSymbol | ImportedDataSymbol | ImportAddressSymbol | OtherSymbol.

Definition SymbolType_eqb (a b : SymbolType) : bool :=
  match a, b with
  | ExternalSymbol, ExternalSymbol
  | ImportedDataSymbol, ImportedDataSymbol
  | ImportAddressSymbol, ImportAddressSymbol
  | OtherSymbol, OtherSymbol => true
  | _, _ => false
  end.

Record Symbol : Type := {
  sym_name : string;
  sym_type : SymbolType;
  sym_address : Z
}.

Record DataVariable : Type := {
  dv_address : Z;
  dv_name : string;
  dv_type : ty
}.

Record Function : Type := {
  f_start : Z;
  f_name : string;
  f_return_type : ty;
  f_parameter_vars : list (string * ty);
  f_variadic : bool
}.

(** What the plugin writes with [print]. *)
Inductive LogEntry : Type :=
| LogAnnotating (stack : bool) (address : Z)
| LogLiteral (stack : bool) (address flags invoke descriptor : Z)
| LogDescriptor (address size : Z)
| LogUnknownLayoutOp (op : Z)
| LogDataVarNotInt (address : Z)
| LogSymbolNotFound (name : string)
| LogIsaMismatch (address value expected : Z)
| LogNotVarOrField (address : Z)
| LogNotInitOrAssign (address : Z)
| LogNotStackVariable (address : Z)
| LogNotStackBlockImport (address : Z)
| LogSkippingRhs (address : Z)
| LogByrefAnnotateManually (address : Z)
| LogByrefVarNotFound (address var_id : Z)
| LogByref (address flags size : Z)
| LogByrefFailed (address : Z)
| LogObjCParseFailed
| LogException (stack : bool) (address : Z) (e : exn).

(** What the plugin writes with [set_comment_at]. *)
Inductive Comment : Type :=
| CommentAlreadyAnnotated (var_name var_type struct_type_name : string)
| CommentSizeMismatch (nominal_size : Z) (struct_type_name : string)
    (width : Z) (n_unaccounted : Z).

Record Host : Type := {
  h_types : list (string * StructureBuilder);   (* define_type *)
  h_source_types : list string;                 (* define_types *)
  h_var_names : list (Z * string);
  h_var_types : list (Z * string);
  h_data_vars : list DataVariable;
  h_funcs : list Function;
  h_comments : list (Z * Comment);
  h_log : list LogEntry
}.

Record BinaryView : Type := {
  bv_start : Z;
  bv_data : list byte;
  bv_symbols : list Symbol;
  (** whether [bv.parse_type_string] accepts a text (else SyntaxError) *)
  bv_parses : string -> bool;
  (** the host's decompilation of the function under analysis, which it
      recomputes from the names and types defined so far *)
  bv_hlil : Host -> list HLILInstruction
}.

(* ===================================================================== *)
(** ** The monad of the plugin's effects *)

Definition M (A : Type) : Type := Host -> (exn + A) * Host.

Definition ret {A} (a : A) : M A := fun h => (inr a, h).

Definition bind {A B} (m : M A) (k : A -> M B) : M B :=
  fun h =>
    match m h with
    | (inl e, h') => (inl e, h')
    | (inr a, h') => k a h'
    end.

Definition raise {A} (e : exn) : M A := fun h => (inl e, h).

Definition lift {A} (r : exn + A) : M A := fun h => (r, h).

Definition get_host : M Host := fun h => (inr h, h).

Definition modify (f : Host -> Host) : M unit := fun h => (inr tt, f h).

(** [assert b] *)
Definition assert (b : bool) : M unit :=
  if b then ret tt else raise AssertionError.

Declare Scope py_scope.
Delimit Scope py_scope with py.
Notation "x <- m ;; k" := (bind m (fun x => k))
  (at level 61, m at next level, right associativity) : py_scope.
Notation "' p <- m ;; k" := (bind m (fun x => match x with p => k end))
  (at level 61, p pattern, m at next level, right associativity) : py_scope.
Notation "m ;; k" := (bind m (fun _ => k))
  (at level 61, right associativity) : py_scope.
Open Scope py_scope.


Definition update_log (f : list LogEntry -> list LogEntry) (h : Host) : Host :=
  {| h_types := h_types h; h_source_types := h_source_types h;
     h_var_names := h_var_names h; h_var_types := h_var_types h;
     h_data_vars := h_data_vars h; h_funcs := h_funcs h;
     h_comments := h_comments h; h_log := f (h_log h) |}.

Definition update_comments (f : list (Z * Comment) -> list (Z * Comment))
  (h : Host) : Host :=
  {| h_types := h_types h; h_source_types := h_source_types h;
     h_var_names := h_var_names h; h_var_types := h_var_types h;
     h_data_vars := h_data_vars h; h_funcs := h_funcs h;
     h_comments := f (h_comments h); h_log := h_log h |}.

Definition update_types
  (f : list (string * StructureBuilder) -> list (string * StructureBuilder))
  (h : Host) : Host :=
  {| h_types := f (h_types h); h_source_types := h_source_types h;
     h_var_names := h_var_names h; h_var_types := h_var_types h;
     h_data_vars := h_data_vars h; h_funcs := h_funcs h;
     h_comments := h_comments h; h_log := h_log h |}.

Definition update_source_types (f : list string -> list string) (h : Host)
  : Host :=
  {| h_types := h_types h; h_source_types := f (h_source_types h);
     h_var_names := h_var_names h; h_var_types := h_var_types h;
     h_data_vars := h_data_vars h; h_funcs := h_funcs h;
     h_comments := h_comments h; h_log := h_log h |}.

Definition update_var_names (f : list (Z * string) -> list (Z * string))
  (h : Host) : Host :=
  {| h_types := h_types h; h_source_types := h_source_types h;
     h_var_names := f (h_var_names h); h_var_types := h_var_types h;
     h_data_vars := h_data_vars h; h_funcs := h_funcs h;
     h_comments := h_comments h; h_log := h_log h |}.

Definition update_var_types (f : list (Z * string) -> list (Z * string))
  (h : Host) : Host :=
  {| h_types := h_types h; h_source_types := h_source_types h;
     h_var_names := h_var_names h; h_var_types := f (h_var_types h);
     h_data_vars := h_data_vars h; h_funcs := h_funcs h;
     h_comments := h_comments h; h_log := h_log h |}.

Definition update_data_vars (f : list DataVariable -> list DataVariable)
  (h : Host) : Host :=
  {| h_types := h_types h; h_source_types := h_source_types h;
     h_var_names := h_var_names h; h_var_types := h_var_types h;
     h_data_vars := f (h_data_vars h); h_funcs := h_funcs h;
     h_comments := h_comments h; h_log := h_log h |}.

Definition update_funcs (f : list Function -> list Function) (h : Host)
  : Host :=
  {| h_types := h_types h; h_source_types := h_source_types h;
     h_var_names := h_var_names h; h_var_types := h_var_types h;
     h_data_vars := h_data_vars h; h_funcs := f (h_funcs h);
     h_comments := h_comments h; h_log := h_log h |}.

(** [print(...)] *)
Definition print (e : LogEntry) : M unit :=
  modify (update_log (fun l => l ++ [e])).

(** Association lists hold the latest binding first. *)
Fixpoint assocZ {A} (k : Z) (l : list (Z * A)) : option A :=
  match l with
  | [] => None
  | (k', v) :: rest => if k =? k' then Some v else assocZ k rest
  end.

Fixpoint assoc_string {A} (k : string) (l : list (string * A)) : option A :=
  match l with
  | [] => None
  | (k', v) :: rest => if String.eqb k k' then Some v else assoc_string k rest
  end.

(** [bv.set_comment_at(address, text)] *)
Definition set_comment_at (address : Z) (c : Comment) : M unit :=
  modify (update_comments (fun l => (address, c) :: l)).

(** [bv.define_type(type_id, name, struct)] *)
Definition define_type (name : string) (st : StructureBuilder) : M unit :=
  modify (update_types (fun l => (name, st) :: l)).

(** [var.name] and [str(var.type)], as the host has them now *)
Definition var_name (h : Host) (v : Var) : string :=
  match assocZ (identifier v) (h_var_names h) with
  | Some n => n
  | None => var_name0 v
  end.

Definition var_type_name (h : Host) (v : Var) : string :=
  match assocZ (identifier v) (h_var_types h) with
  | Some n => n
  | None => var_type0 v
  end.

(** [var.name = name] and [var.type = type] *)
Definition set_var_name (v : Var) (name : string) : M unit :=
  modify (update_var_names (fun l => (identifier v, name) :: l)).

Definition set_var_type (v : Var) (type_name : string) : M unit :=
  modify (update_var_types (fun l => (identifier v, type_name) :: l)).

(* ===================================================================== *)
(** ** binja.BinaryReader over the image *)

Definition byte_at (bv : BinaryView) (off : Z) : option byte :=
  if off <? bv_start bv then None
  else nth_error (bv_data bv) (Z.to_nat (off - bv_start bv)).

Definition byte_val (b : byte) : Z := Z.of_N (Byte.to_N b).

(** little-endian read of [n] bytes; [None] when a byte is not mapped *)
Fixpoint read_le (bv : BinaryView) (off : Z) (n : nat) : pyint :=
  match n with
  | O => Some 0
  | S n' =>
      match byte_at bv off, read_le bv (off + 1) n' with
      | Some b, Some r => Some (byte_val b + 256 * r)
      | _, _ => None
      end
  end.

Record BinaryReader : Type := { br_offset : Z }.

(** [br.seek(offset)] *)
Definition br_seek (offset : Z) : BinaryReader := {| br_offset := offset |}.

(** [br.read32()], [br.read64()]: the value, and the reader after it; the
    offset moves only when the read succeeds. *)
Definition br_read (bv : BinaryView) (n : nat) (br : BinaryReader)
  : pyint * BinaryReader :=
  match read_le bv (br_offset br) n with
  | Some v => (Some v, {| br_offset := br_offset br + Z.of_nat n |})
  | None => (None, br)
  end.

Definition br_read32 bv br := br_read bv 4 br.
Definition br_read64 bv br := br_read bv 8 br.

(** The bytes a reader positioned at [off] has before it. *)
Definition bytes_from (bv : BinaryView) (off : Z) : list byte :=
  if off <? bv_start bv then []
  else skipn (Z.to_nat (off - bv_start bv)) (bv_data bv).

(** [bv.get_ascii_string_at(address, 0)]: the string up to the first NUL,
    [None] when the address is not mapped. *)
Fixpoint until_nul (bs : list byte) : list byte :=
  match bs with
  | [] => []
  | b :: rest => if (Byte.to_N b =? 0)%N then [] else b :: until_nul rest
  end.

Definition get_ascii_string_at (bv : BinaryView) (address : Z)
  : option (list byte) :=
  match byte_at bv address with
  | None => None
  | Some _ => Some (until_nul (bytes_from bv address))
  end.

(* ===================================================================== *)
(** ** shinobi.py *)

(** [yield_symbols_of_type] *)
Definition yield_symbols_of_type (bv : BinaryView) (name : string)
  (type_ : SymbolType) : list Symbol :=
  filter (fun x => SymbolType_eqb (sym_type x) type_)
    (filter (fun x => String.eqb (sym_name x) name) (bv_symbols bv)).

(** [get_symbol_of_type] *)
Definition get_symbol_of_type (bv : BinaryView) (name : string)
  (type_ : SymbolType) : option Symbol :=
  match yield_symbols_of_type bv name type_ with
  | sym :: _ => Some sym
  | [] => None
  end.

(** [reload_hlil_instruction]: the first instruction at the same address in
    the function as the host decompiles it now. *)
Definition reload_hlil_instruction (bv : BinaryView) (hlil_insn : HLILRef)
  : M HLILRef :=
  h <- get_host;;
  let reloaded_func := bv_hlil bv h in
  match find (fun insn => insn_address insn =? insn_address (ref_insn hlil_insn))
             reloaded_func with
  | Some reloaded_insn =>
      ret {| ref_insn := reloaded_insn; ref_function := reloaded_func |}
  | None => raise AssertionError
  end.

(** A generator: what it yields, in order, and how it ends. *)
Inductive generator (A : Type) : Type :=
| GenStop
| GenYield (a : A) (rest : generator A)
| GenRaise (e : exn).
Arguments GenStop {A}.
Arguments GenYield {A} a rest.
Arguments GenRaise {A} e.

(** One round of the loop of
    [yield_struct_field_assign_hlil_instructions_for_var_id]. *)
Inductive scan_step : Type :=
| StepContinue
| StepYield
| StepRaise (e : exn).

Definition scan_insn (insn : HLILInstruction) (var_id : Z) : scan_step :=
  match insn_op insn with
  | HighLevelILAssign (HighLevelILStructField dest_src _) _ =>
      let check (stack_var : Var) :=
        if negb (identifier stack_var =? var_id) then StepContinue
        else StepYield in
      match dest_src with
      | HighLevelILVar stack_var => check stack_var
      | HighLevelILArrayIndex (HighLevelILVar stack_var) _ => check stack_var
      | HighLevelILArrayIndex _ _ => StepContinue
      | HighLevelILStructField (HighLevelILVar stack_var) _ => check stack_var
      | HighLevelILStructField _ _ => StepContinue
      | HighLevelILDerefField _ _ => StepContinue
      | _ => StepRaise NotImplementedError
      end
  | _ => StepContinue
  end.

Fixpoint yield_struct_field_assign_hlil_instructions_for_var_id
  (instructions : list HLILInstruction) (var_id : Z)
  : generator HLILInstruction :=
  match instructions with
  | [] => GenStop
  | insn :: rest =>
      match scan_insn insn var_id with
      | StepContinue =>
          yield_struct_field_assign_hlil_instructions_for_var_id rest var_id
      | StepYield =>
          GenYield insn
            (yield_struct_field_assign_hlil_instructions_for_var_id rest var_id)
      | StepRaise e => GenRaise e
      end
  end.

(** The destination and source of a yielded instruction. *)
Definition assign_parts (insn : HLILInstruction) : option (Z * HLILExpr) :=
  match insn_op insn with
  | HighLevelILAssign (HighLevelILStructField _ member_index) src =>
      Some (member_index, src)
  | _ => None
  end.

(* ===================================================================== *)
(** ** blocks.py: the plugin's types in the host registry *)

Definition _OBJC_TYPE_SOURCE : list string :=
  ["objc_class"; "Class"; "objc_object"; "id"]%string.

Definition _LIBCLOSURE_TYPE_SOURCE : list string :=
  ["BLOCK_LITERAL_FLAGS"; "BLOCK_BYREF_FLAGS"; "BlockCopyFunction";
   "BlockDisposeFunction"; "BlockInvokeFunction"; "Block_byref_1";
   "BlockByrefKeepFunction"; "BlockByrefDestroyFunction"; "Block_byref_2";
   "Block_byref_3"; "Block_descriptor_1"; "Block_descriptor_2";
   "Block_descriptor_3"; "Block_literal"]%string.

Definition string_in (s : string) (l : list string) : bool :=
  existsb (String.eqb s) l.

(** [bv.get_type_by_name(name)] finds the types of the two sources once
    they are defined. *)
Definition source_type (name : string) : ty :=
  if String.eqb name "Class" then TClass
  else if String.eqb name "id" then TId
  else TLibclosure name.

Definition get_type_by_name (h : Host) (name : string) : option ty :=
  if string_in name (h_source_types h) then Some (source_type name)
  else None.

(** [_get_custom_type] *)
Definition _get_custom_type (name : string) (source : list string) : M ty :=
  h <- get_host;;
  match get_type_by_name h name with
  | Some type_ => ret type_
  | None =>
      modify (update_source_types (fun l => l ++ source));;
      h <- get_host;;
      match get_type_by_name h name with
      | Some type_ => ret type_
      | None => raise AssertionError
      end
  end.

(** [_get_objc_type] *)
Definition _get_objc_type (name : string) : M ty :=
  _get_custom_type name _OBJC_TYPE_SOURCE.

(** [_get_libclosure_type] *)
Definition _get_libclosure_type (name : string) : M ty :=
  _ <- _get_objc_type "Class";;
  _get_custom_type name _LIBCLOSURE_TYPE_SOURCE.

(* ===================================================================== *)
(** ** blocks.py: BlockDescriptor *)

Record BlockDescriptor : Type := {
  bd_address : Z;
  bd_block_flags : Z;
  bd_reserved : pyint;
  bd_size : Z;
  bd_copy : pyint;
  bd_dispose : pyint;
  bd_signature : attr pyint;
  bd_signature_raw : attr (option (list byte));
  bd_layout : attr pyint;
  bd_layout_end : attr Z;
  bd_struct_builder : attr StructureBuilder;
  bd_struct_name : attr string;
  bd_struct_type_name : attr string;
  bd_struct_type : attr ty
}.

Definition flag_set (flags mask : Z) : bool := negb (Z.land flags mask =? 0).

Definition block_has_copy_dispose (bd : BlockDescriptor) : bool :=
  flag_set (bd_block_flags bd) BLOCK_HAS_COPY_DISPOSE.
Definition block_has_signature (bd : BlockDescriptor) : bool :=
  flag_set (bd_block_flags bd) BLOCK_HAS_SIGNATURE.
Definition block_has_extended_layout (bd : BlockDescriptor) : bool :=
  flag_set (bd_block_flags bd) BLOCK_HAS_EXTENDED_LAYOUT.
Definition block_is_global (bd : BlockDescriptor) : bool :=
  flag_set (bd_block_flags bd) BLOCK_IS_GLOBAL.

Definition imported_variables_size (bd : BlockDescriptor) : Z :=
  bd_size bd - 0x20.

Definition set_layout_end (bd : BlockDescriptor) (e : Z) : BlockDescriptor :=
  {| bd_address := bd_address bd; bd_block_flags := bd_block_flags bd;
     bd_reserved := bd_reserved bd; bd_size := bd_size bd;
     bd_copy := bd_copy bd; bd_dispose := bd_dispose bd;
     bd_signature := bd_signature bd;
     bd_signature_raw := bd_signature_raw bd; bd_layout := bd_layout bd;
     bd_layout_end := Bound e;
     bd_struct_builder := bd_struct_builder bd;
     bd_struct_name := bd_struct_name bd;
     bd_struct_type_name := bd_struct_type_name bd;
     bd_struct_type := bd_struct_type bd |}.

Definition set_bd_struct (bd : BlockDescriptor) (st : StructureBuilder)
  (name type_name : string) (t : ty) : BlockDescriptor :=
  {| bd_address := bd_address bd; bd_block_flags := bd_block_flags bd;
     bd_reserved := bd_reserved bd; bd_size := bd_size bd;
     bd_copy := bd_copy bd; bd_dispose := bd_dispose bd;
     bd_signature := bd_signature bd;
     bd_signature_raw := bd_signature_raw bd; bd_layout := bd_layout bd;
     bd_layout_end := bd_layout_end bd;
     bd_struct_builder := Bound st;
     bd_struct_name := Bound name;
     bd_struct_type_name := Bound type_name;
     bd_struct_type := Bound t |}.

(** [BlockDescriptor.__init__]: the outcome, and the reader as the
    constructor leaves it.  A missing signature leaves [signature],
    [signature_raw] and [layout] without a value: the constructor has no
    [else] for them. *)
Definition BlockDescriptor_init (bv : BinaryView)
  (descriptor_address block_flags : pyint)
  : (exn + BlockDescriptor) * BinaryReader :=
  match descriptor_address with
  | None => (inl TypeError, {| br_offset := bv_start bv |})
  | Some address =>
      let br := br_seek address in
      let '(reserved, br) := br_read64 bv br in
      let '(size_, br) := br_read64 bv br in
      match size_ with
      | None => (inl TypeError, br)
      | Some size =>
          if negb (0x20 <=? size) then (inl AssertionError, br)
          else
            match block_flags with
            | None => (inl TypeError, br)
            | Some flags =>
                let '(copy, dispose, br) :=
                  if flag_set flags BLOCK_HAS_COPY_DISPOSE then
                    let '(copy, br) := br_read64 bv br in
                    let '(dispose, br) := br_read64 bv br in
                    (copy, dispose, br)
                  else (None, None, br) in
                let mk signature signature_raw layout :=
                  {| bd_address := address; bd_block_flags := flags;
                     bd_reserved := reserved; bd_size := size;
                     bd_copy := copy; bd_dispose := dispose;
                     bd_signature := signature;
                     bd_signature_raw := signature_raw;
                     bd_layout := layout;
                     bd_layout_end := Unset; bd_struct_builder := Unset;
                     bd_struct_name := Unset; bd_struct_type_name := Unset;
                     bd_struct_type := Unset |} in
                if flag_set flags BLOCK_HAS_SIGNATURE then
                  let '(signature, br) := br_read64 bv br in
                  match signature with
                  | None => (inl TypeError, br)
                  | Some 0 =>
                      let '(layout, br) := br_read64 bv br in
                      (inr (mk (Bound signature) (Bound None) (Bound layout)),
                       br)
                  | Some s =>
                      match get_ascii_string_at bv s with
                      | None => (inl (AttributeError "raw"), br)
                      | Some raw =>
                          let '(layout, br) := br_read64 bv br in
                          (inr (mk (Bound signature) (Bound (Some raw))
                                  (Bound layout)), br)
                      end
                  end
                else (inr (mk Unset Unset Unset), br)
            end
      end
  end.

(** Reading an attribute that may have no value. *)
Definition getattr {A} (name : string) (x : attr A) : M A :=
  match x with
  | Bound a => ret a
  | Unset => raise (AttributeError name)
  end.

(** Reading a local variable that may have no value. *)
Definition getlocal {A} (name : string) (x : attr A) : M A :=
  match x with
  | Bound a => ret a
  | Unset => raise (UnboundLocalError name)
  end.

(** Using an [Optional[int]] where an integer is needed. *)
Definition need_int (x : pyint) : M Z :=
  match x with
  | Some z => ret z
  | None => raise TypeError
  end.

(* ===================================================================== *)
(** ** blocks.py: append_layout_fields *)

(** [for _ in range(n): body] over the state the body changes *)
Fixpoint for_range {S : Type} (n : nat) (body : S -> M S) (s : S) : M S :=
  match n with
  | O => ret s
  | S n' => s' <- body s;; for_range n' body s'
  end.

(** The structure being built and [byref_indexes] ([None] when the caller
    gives none). *)
Definition layout_state : Type := (StructureBuilder * option (list Z))%type.

Definition append_id (prefix : string) (s : layout_state) : M layout_state :=
  let '(struct, byref_indexes) := s in
  t <- _get_objc_type "id";;
  ret (sb_append struct t (prefix ++ hex (sb_width struct))%string,
       byref_indexes).

Definition append_byref (s : layout_state) : M layout_state :=
  let '(struct, byref_indexes) := s in
  let byref_indexes :=
    match byref_indexes with
    | Some l => Some (l ++ [Z.of_nat (List.length (sb_members struct))])
    | None => None
    end in
  append_id "byref_ptr_" (struct, byref_indexes).

Definition append_non_object_bytes (oparg : Z) (s : layout_state)
  : M layout_state :=
  let '(struct, byref_indexes) := s in
  ret (sb_append struct (TUInt8Array oparg)
         ("non_object_" ++ hex (sb_width struct))%string, byref_indexes).

Definition append_non_object_word (s : layout_state) : M layout_state :=
  let '(struct, byref_indexes) := s in
  ret (sb_append struct TUInt64
         ("non_object_" ++ hex (sb_width struct))%string, byref_indexes).

(** The [while True] loop of the bytecode branch, over the bytes before the
    reader; [offset] is [br.offset].  When no byte is left to read,
    [br.read8()] is [None] and [op & 0xf0] raises. *)
Fixpoint layout_bytecode_loop (bytes : list byte) (offset : Z)
  (s : layout_state) : M (layout_state * Z) :=
  match bytes with
  | [] => raise TypeError
  | b :: rest =>
      let op := byte_val b in
      let offset := offset + 1 in
      let opcode := Z.shiftr (Z.land op 0xf0) 4 in
      let oparg := Z.land op 0x0f in
      if opcode =? BLOCK_LAYOUT_ESCAPE then ret (s, offset)
      else if opcode =? BLOCK_LAYOUT_NON_OBJECT_BYTES then
        s <- append_non_object_bytes oparg s;;
        layout_bytecode_loop rest offset s
      else if opcode =? BLOCK_LAYOUT_NON_OBJECT_WORDS then
        s <- for_range (Z.to_nat oparg) append_non_object_word s;;
        layout_bytecode_loop rest offset s
      else if opcode =? BLOCK_LAYOUT_STRONG then
        s <- for_range (Z.to_nat oparg) (append_id "strong_ptr_") s;;
        layout_bytecode_loop rest offset s
      else if opcode =? BLOCK_LAYOUT_BYREF then
        s <- for_range (Z.to_nat oparg) append_byref s;;
        layout_bytecode_loop rest offset s
      else if opcode =? BLOCK_LAYOUT_WEAK then
        s <- for_range (Z.to_nat oparg) (append_id "weak_ptr_") s;;
        layout_bytecode_loop rest offset s
      else if opcode =? BLOCK_LAYOUT_UNRETAINED then
        s <- for_range (Z.to_nat oparg) (append_id "unretained_ptr_") s;;
        layout_bytecode_loop rest offset s
      else
        print (LogUnknownLayoutOp op);;
        ret (s, offset)
  end.

(** [append_layout_fields]: the structure, [byref_indexes] and
    [layout_end_obj] as the call leaves them. *)
Definition append_layout_fields (bv : BinaryView) (struct : StructureBuilder)
  (layout : pyint) (block_has_extended_layout : bool)
  (byref_indexes : option (list Z)) (layout_end_obj : option BlockDescriptor)
  : M (StructureBuilder * option (list Z) * option BlockDescriptor) :=
  let unchanged := ret (struct, byref_indexes, layout_end_obj) in
  match layout with
  | Some 0 => unchanged
  | _ =>
      if negb block_has_extended_layout then unchanged
      else
        layout <- need_int layout;;
        if layout <? 0x1000 then
          let n_strong_ptrs := Z.land (Z.shiftr layout 8) 0xf in
          let n_byref_ptrs := Z.land (Z.shiftr layout 4) 0xf in
          let n_weak_ptrs := Z.land layout 0xf in
          s <- for_range (Z.to_nat n_strong_ptrs) (append_id "strong_ptr_")
                 (struct, byref_indexes);;
          s <- for_range (Z.to_nat n_byref_ptrs) append_byref s;;
          s <- for_range (Z.to_nat n_weak_ptrs) (append_id "weak_ptr_") s;;
          ret (fst s, snd s, layout_end_obj)
        else
          '(s, offset) <- layout_bytecode_loop (bytes_from bv layout) layout
                            (struct, byref_indexes);;
          ret (fst s, snd s,
               match layout_end_obj with
               | Some bd => Some (set_layout_end bd offset)
               | None => None
               end)
  end.

(* ===================================================================== *)
(** ** blocks.py: BlockLiteral *)

Record BlockLiteral : Type := {
  is_stack_block : bool;
  (** [self.insn] of a stack block, [self.data_var] of a global one *)
  bl_object : HLILRef + DataVariable;
  bl_address : Z;
  bl_isa : pyint;
  bl_flags : pyint;
  bl_reserved : pyint;
  bl_invoke : pyint;
  bl_descriptor : pyint;
  bl_byref_indexes : attr (list Z);
  bl_struct_builder : attr StructureBuilder;
  bl_struct_name : attr string;
  bl_struct_type_name : attr string;
  bl_struct_type : attr ty
}.

Definition object_address (o : HLILRef + DataVariable) : Z :=
  match o with
  | inl r => insn_address (ref_insn r)
  | inr dv => dv_address dv
  end.

(** [BlockLiteral.__init__] *)
Definition BlockLiteral_init (is_stack_block : bool)
  (insn_or_data_var : HLILRef + DataVariable)
  (isa flags reserved invoke descriptor : pyint) : exn + BlockLiteral :=
  let self :=
    {| is_stack_block := is_stack_block;
       bl_object := insn_or_data_var;
       bl_address := object_address insn_or_data_var;
       bl_isa := isa; bl_flags := flags; bl_reserved := reserved;
       bl_invoke := invoke; bl_descriptor := descriptor;
       bl_byref_indexes := Unset; bl_struct_builder := Unset;
       bl_struct_name := Unset; bl_struct_type_name := Unset;
       bl_struct_type := Unset |} in
  match invoke with
  | Some 0 => inl AssertionError
  | _ =>
      match descriptor with
      | Some 0 => inl AssertionError
      | _ =>
          match flags with
          | None => inl TypeError
          | Some f =>
              if is_stack_block then
                if Z.land f BLOCK_IS_GLOBAL =? 0 then inr self
                else inl AssertionError
              else
                if negb (Z.land f BLOCK_IS_GLOBAL =? 0) then inr self
                else inl AssertionError
          end
      end
  end.

(** [BlockLiteral.from_data] *)
Definition from_data (bv : BinaryView) (bl_data_var : DataVariable)
  : exn + BlockLiteral :=
  let is_stack_block := false in
  let br := br_seek (dv_address bl_data_var) in
  let '(isa, br) := br_read64 bv br in
  let '(flags, br) := br_read32 bv br in
  let '(reserved, br) := br_read32 bv br in
  let '(invoke, br) := br_read64 bv br in
  let '(descriptor, br) := br_read64 bv br in
  BlockLiteral_init is_stack_block (inr bl_data_var)
    isa flags reserved invoke descriptor.

(** The local variables the loop of [from_stack] binds. *)
Record stack_locals : Type := {
  l_isa : attr Z;
  l_flags : attr Z;
  l_reserved : attr pyint;
  l_invoke : attr Z;
  l_descriptor : attr Z
}.

Definition no_locals : stack_locals :=
  {| l_isa := Unset; l_flags := Unset; l_reserved := Unset;
     l_invoke := Unset; l_descriptor := Unset |}.

(** [all([vn in local_vars for vn in ('isa', 'flags', 'reserved', 'invoke',
    'descriptor')])] *)
Definition all_bound (l : stack_locals) : bool :=
  is_bound (l_isa l) && is_bound (l_flags l) && is_bound (l_reserved l)
  && is_bound (l_invoke l) && is_bound (l_descriptor l).

(** The body of the loop of [from_stack], before the test for [break]. *)
Definition from_stack_body (insn : HLILInstruction) (l : stack_locals)
  : exn + stack_locals :=
  match assign_parts insn with
  | None => inl (AttributeError "member_index")
  | Some (member_index, src) =>
      if member_index =? 0 then
        match src with
        | HighLevelILImport text _ address =>
            if String.eqb text "__NSConcreteStackBlock" then
              inr {| l_isa := Bound address; l_flags := l_flags l;
                     l_reserved := l_reserved l; l_invoke := l_invoke l;
                     l_descriptor := l_descriptor l |}
            else inr l
        | _ => inr l
        end
      else if member_index =? 1 then
        match src with
        | HighLevelILStructField _ _ =>
            inl (RuntimeError "RHS of flags is struct field instead of constant")
        | _ =>
            match is_const src with
            | Some c =>
                inr {| l_isa := l_isa l; l_flags := Bound c;
                       l_reserved := l_reserved l; l_invoke := l_invoke l;
                       l_descriptor := l_descriptor l |}
            | None => inr l
            end
        end
      else if member_index =? 2 then
        inr {| l_isa := l_isa l; l_flags := l_flags l;
               l_reserved := Bound (is_const src); l_invoke := l_invoke l;
               l_descriptor := l_descriptor l |}
      else if member_index =? 3 then
        match is_const src with
        | Some c =>
            inr {| l_isa := l_isa l; l_flags := l_flags l;
                   l_reserved := l_reserved l; l_invoke := Bound c;
                   l_descriptor := l_descriptor l |}
        | None => inr l
        end
      else if member_index =? 4 then
        match is_const src with
        | Some c =>
            inr {| l_isa := l_isa l; l_flags := l_flags l;
                   l_reserved := l_reserved l; l_invoke := l_invoke l;
                   l_descriptor := Bound c |}
        | None => inr l
        end
      else inr l
  end.

(** The loop of [from_stack] over what the generator yields. *)
Fixpoint from_stack_loop (g : generator HLILInstruction) (l : stack_locals)
  : exn + stack_locals :=
  match g with
  | GenStop => inr l
  | GenRaise e => inl e
  | GenYield insn rest =>
      match from_stack_body insn l with
      | inl e => inl e
      | inr l' => if all_bound l' then inr l' else from_stack_loop rest l'
      end
  end.

(** The call [cls(bv, is_stack_block, bl_insn, isa, flags, reserved, invoke,
    descriptor)] at the end of [from_stack]: the arguments are read in order,
    and a variable the loop never bound raises. *)
Definition from_stack_construct (bl_insn : HLILRef) (l : stack_locals)
  : exn + BlockLiteral :=
  match l_isa l with
  | Unset => inl (UnboundLocalError "isa")
  | Bound isa =>
  match l_flags l with
  | Unset => inl (UnboundLocalError "flags")
  | Bound flags =>
  match l_reserved l with
  | Unset => inl (UnboundLocalError "reserved")
  | Bound reserved =>
  match l_invoke l with
  | Unset => inl (UnboundLocalError "invoke")
  | Bound invoke =>
  match l_descriptor l with
  | Unset => inl (UnboundLocalError "descriptor")
  | Bound descriptor =>
      BlockLiteral_init true (inl bl_insn)
        (Some isa) (Some flags) reserved (Some invoke) (Some descriptor)
  end end end end end.

(** [str(type)] of the libclosure type [Block_literal] *)
Definition Block_literal_type_name : string := "struct Block_literal".

(** The variable identifier [from_stack] looks for. *)
Definition stack_var_id_of (bl_insn : HLILRef) : exn + Z :=
  match insn_op (ref_insn bl_insn) with
  | HighLevelILVarDeclare var => inr (identifier var)
  | HighLevelILVarInit dest _ => inr (identifier dest)
  | HighLevelILAssign (HighLevelILStructField src _) _ =>
      match expr_var src with
      | inr var => inr (identifier var)
      | inl e => inl e
      end
  | HighLevelILAssign _ _ =>
      inl (RuntimeError "bl_insn.dest after reload is unexpected type")
  | HighLevelILOtherInsn _ =>
      inl (RuntimeError "bl_insn after reload is unexpected type")
  end.

(** [BlockLiteral.from_stack] *)
Definition from_stack (bv : BinaryView) (bl_insn : HLILRef) (bl_var : Var)
  : M BlockLiteral :=
  _ <- _get_libclosure_type "Block_literal";;
  set_var_type bl_var Block_literal_type_name;;
  bl_insn <- reload_hlil_instruction bv bl_insn;;
  stack_var_id <- lift (stack_var_id_of bl_insn);;
  l <- lift (from_stack_loop
               (yield_struct_field_assign_hlil_instructions_for_var_id
                  (ref_function bl_insn) stack_var_id)
               no_locals);;
  lift (from_stack_construct bl_insn l).

(** [BlockLiteral.__str__], as [print(bl)] logs it; a field that is [None]
    cannot be formatted. *)
Definition print_literal (bl : BlockLiteral) : M unit :=
  flags <- need_int (bl_flags bl);;
  invoke <- need_int (bl_invoke bl);;
  descriptor <- need_int (bl_descriptor bl);;
  print (LogLiteral (is_stack_block bl) (bl_address bl) flags invoke
           descriptor).

(** [BlockDescriptor.__str__], as [print(bd)] logs it *)
Definition print_descriptor (bd : BlockDescriptor) : M unit :=
  print (LogDescriptor (bd_address bd) (bd_size bd)).

Definition set_byref_indexes (bl : BlockLiteral) (l : list Z) : BlockLiteral :=
  {| is_stack_block := is_stack_block bl; bl_object := bl_object bl;
     bl_address := bl_address bl; bl_isa := bl_isa bl;
     bl_flags := bl_flags bl; bl_reserved := bl_reserved bl;
     bl_invoke := bl_invoke bl; bl_descriptor := bl_descriptor bl;
     bl_byref_indexes := Bound l;
     bl_struct_builder := bl_struct_builder bl;
     bl_struct_name := bl_struct_name bl;
     bl_struct_type_name := bl_struct_type_name bl;
     bl_struct_type := bl_struct_type bl |}.

Definition set_bl_struct (bl : BlockLiteral) (st : StructureBuilder)
  (name type_name : string) (t : ty) : BlockLiteral :=
  {| is_stack_block := is_stack_block bl; bl_object := bl_object bl;
     bl_address := bl_address bl; bl_isa := bl_isa bl;
     bl_flags := bl_flags bl; bl_reserved := bl_reserved bl;
     bl_invoke := bl_invoke bl; bl_descriptor := bl_descriptor bl;
     bl_byref_indexes := bl_byref_indexes bl;
     bl_struct_builder := Bound st;
     bl_struct_name := Bound name;
     bl_struct_type_name := Bound type_name;
     bl_struct_type := Bound t |}.

Definition set_bl_struct_builder (bl : BlockLiteral) (st : StructureBuilder)
  : BlockLiteral :=
  {| is_stack_block := is_stack_block bl; bl_object := bl_object bl;
     bl_address := bl_address bl; bl_isa := bl_isa bl;
     bl_flags := bl_flags bl; bl_reserved := bl_reserved bl;
     bl_invoke := bl_invoke bl; bl_descriptor := bl_descriptor bl;
     bl_byref_indexes := bl_byref_indexes bl;
     bl_struct_builder := Bound st;
     bl_struct_name := bl_struct_name bl;
     bl_struct_type_name := bl_struct_type_name bl;
     bl_struct_type := bl_struct_type bl |}.

Definition set_bl_object (bl : BlockLiteral) (o : HLILRef + DataVariable)
  : BlockLiteral :=
  {| is_stack_block := is_stack_block bl; bl_object := o;
     bl_address := bl_address bl; bl_isa := bl_isa bl;
     bl_flags := bl_flags bl; bl_reserved := bl_reserved bl;
     bl_invoke := bl_invoke bl; bl_descriptor := bl_descriptor bl;
     bl_byref_indexes := bl_byref_indexes bl;
     bl_struct_builder := bl_struct_builder bl;
     bl_struct_name := bl_struct_name bl;
     bl_struct_type_name := bl_struct_type_name bl;
     bl_struct_type := bl_struct_type bl |}.

(** [data_var.name = name; data_var.type = type] for the data variable at an
    address *)
Definition set_data_var (address : Z) (name : string) (t : ty) : M unit :=
  modify (update_data_vars
            (map (fun dv =>
                    if dv_address dv =? address
                    then {| dv_address := address; dv_name := name;
                            dv_type := t |}
                    else dv))).

(** The stack variable [annotate_literal] retypes. *)
Definition annotated_stack_var (o : HLILRef + DataVariable) : exn + Var :=
  match o with
  | inl r =>
      match insn_op (ref_insn r) with
      | HighLevelILVarDeclare var => inr var
      | HighLevelILAssign (HighLevelILStructField src _) _ => expr_var src
      | HighLevelILAssign _ _ =>
          inl (RuntimeError "self.insn.dest is unexpected type")
      | _ => inl (RuntimeError "self.insn is unexpected type")
      end
  | inr _ => inl (RuntimeError "self.insn is unexpected type")
  end.

(** The end of [annotate_literal]: the comment on a structure narrower than
    the descriptor's size. *)
Definition report_size (self : BlockLiteral) (struct : StructureBuilder)
  (struct_type_name : string) (bd : BlockDescriptor) : M unit :=
  if sb_width struct <? bd_size bd then
    let n_unaccounted := bd_size bd - sb_width struct in
    set_comment_at (bl_address self)
      (CommentSizeMismatch (bd_size bd) struct_type_name (sb_width struct)
         n_unaccounted)
  else ret tt.

(** The first statements of [annotate_literal]: the packed structure with
    the five header members and the members of the layout. *)
Definition literal_struct (bv : BinaryView) (self : BlockLiteral)
  (bd : BlockDescriptor)
  : M (StructureBuilder * BlockLiteral * BlockDescriptor) :=
  let struct := sb_create true in
  t <- _get_objc_type "Class";;
  let struct := sb_append struct t "isa" in
  let struct := sb_append struct TVolatileUInt32 "flags" in
  let struct := sb_append struct TUInt32 "reserved" in
  t <- _get_libclosure_type "BlockInvokeFunction";;
  let struct := sb_append struct t "invoke" in
  t <- _get_libclosure_type "Block_descriptor_1";;
  let struct := sb_append struct (TPointer t) "descriptor" in
  if 0 <? imported_variables_size bd then
    layout <- getattr "layout" (bd_layout bd);;
    '(struct, byref_indexes, layout_end_obj) <-
      append_layout_fields bv struct layout (block_has_extended_layout bd)
        (Some []) (Some bd);;
    ret (struct,
         set_byref_indexes self
           (match byref_indexes with Some l => l | None => [] end),
         match layout_end_obj with Some bd' => bd' | None => bd end)
  else ret (struct, self, bd).

(** [BlockLiteral.annotate_literal]: the literal and the descriptor as the
    call leaves them. *)
Definition annotate_literal (bv : BinaryView) (self : BlockLiteral)
  (bd : BlockDescriptor) : M (BlockLiteral * BlockDescriptor) :=
  '(struct, self, bd) <- literal_struct bv self bd;;
  let struct_name := ("Block_literal_" ++ hex (bl_address self))%string in
  define_type struct_name struct;;
  let struct_type_name := ("struct " ++ struct_name)%string in
  let self :=
    set_bl_struct self struct struct_name struct_type_name
      (TStruct struct_name) in
  if is_stack_block self then
    stack_var <- lift (annotated_stack_var (bl_object self));;
    h <- get_host;;
    let stack_var_type_name := var_type_name h stack_var in
    if String.prefix "struct Block_literal_" stack_var_type_name
       && negb (String.eqb stack_var_type_name struct_type_name) then
      set_comment_at (bl_address self)
        (CommentAlreadyAnnotated (var_name h stack_var) stack_var_type_name
           struct_type_name);;
      ret (self, bd)
    else
      (if negb (String.prefix "stack_block_" (var_name h stack_var)) then
         set_var_name stack_var
           ("stack_block_" ++ var_name h stack_var)%string
       else ret tt);;
      set_var_type stack_var struct_type_name;;
      insn <- match bl_object self with
              | inl r => reload_hlil_instruction bv r
              | inr _ => raise (AttributeError "function")
              end;;
      let self := set_bl_object self (inl insn) in
      report_size self struct struct_type_name bd;;
      ret (self, bd)
  else
    set_data_var (bl_address self)
      ("global_block_" ++ hex (bl_address self))%string
      (TStruct struct_name);;
    report_size self struct struct_type_name bd;;
    ret (self, bd).

(** [bv.get_data_var_at(address)] *)
Definition get_data_var_at (h : Host) (address : Z) : option DataVariable :=
  find (fun dv => dv_address dv =? address) (h_data_vars h).

(** [bv.define_user_data_var(address, type)] *)
Definition define_user_data_var (address : Z) (t : ty) : M unit :=
  modify (update_data_vars
            (fun l =>
               {| dv_address := address; dv_name := EmptyString;
                  dv_type := t |}
               :: filter (fun dv => negb (dv_address dv =? address)) l)).

(** Modelled from the spec: [shinobi.make_data_var] is called by blocks.py
    but is not in the shinobi.py at hand.  From its call sites (an address,
    a type, an optional name) and the host interface of section 6, it
    defines a data variable of that type, with that name, at the address. *)
Definition make_data_var (address : Z) (t : ty) (name : string) : M unit :=
  modify (update_data_vars
            (fun l =>
               {| dv_address := address; dv_name := name; dv_type := t |}
               :: filter (fun dv => negb (dv_address dv =? address)) l)).

(** [BlockLiteral.annotate_layout_bytecode] *)
Definition annotate_layout_bytecode (self : BlockLiteral)
  (bd : BlockDescriptor) : M unit :=
  if block_has_signature bd && block_has_extended_layout bd then
    layout <- getattr "layout" (bd_layout bd);;
    layout <- need_int layout;;
    if 0x1000 <=? layout then
      layout_end <- getattr "layout_end" (bd_layout_end bd);;
      let n := layout_end - layout in
      make_data_var layout (TUInt8Array n)
        ("block_layout_" ++ hex layout)%string
    else ret tt
  else ret tt.

(** [BlockDescriptor.annotate_descriptor]: the descriptor and the literal
    as the call leaves them. *)
Definition annotate_descriptor (self : BlockDescriptor) (bl : BlockLiteral)
  : M (BlockDescriptor * BlockLiteral) :=
  let struct := sb_create false in
  let struct := sb_append struct TUInt64 "reserved" in
  let struct := sb_append struct TUInt64 "size" in
  struct <-
    (if block_has_copy_dispose self then
       t <- _get_libclosure_type "BlockCopyFunction";;
       let struct := sb_append struct t "copy" in
       t <- _get_libclosure_type "BlockDisposeFunction";;
       ret (sb_append struct t "dispose")
     else ret struct);;
  struct <-
    (if block_has_signature self then
       let struct := sb_append struct TCharConstPtr "signature" in
       layout <- getattr "layout" (bd_layout self);;
       match layout with
       | Some 0 => ret (sb_append struct TVoidPtr "layout")
       | _ =>
           if block_has_extended_layout self then
             layout <- need_int layout;;
             if layout <? 0x1000
             then ret (sb_append struct TUInt64 "layout")
             else ret (sb_append struct TUInt8ConstPtr "layout")
           else ret (sb_append struct TVoidPtr "layout")
       end
     else ret struct);;
  let struct_name := ("Block_descriptor_" ++ hex (bd_address self))%string in
  define_type struct_name struct;;
  let struct_type_name := ("struct " ++ struct_name)%string in
  let struct_type := TStruct struct_name in
  let self := set_bd_struct self struct struct_name struct_type_name
                struct_type in
  make_data_var (bd_address self) struct_type
    ("block_descriptor_" ++ hex (bd_address self))%string;;
  bl_struct <- getattr "struct_builder" (bl_struct_builder bl);;
  match sb_index_by_name bl_struct "descriptor" with
  | None => raise TypeError
  | Some pointer_index =>
      let bl_struct :=
        sb_replace bl_struct pointer_index (TPointer struct_type)
          "descriptor" in
      bl_struct_name <- getattr "struct_name" (bl_struct_name bl);;
      define_type bl_struct_name bl_struct;;
      ret (self, set_bl_struct_builder bl bl_struct)
  end.

(** [try: body  except Exception as e: handler] *)
Definition try_except {A} (body : M A) (handler : exn -> M A) : M A :=
  fun h =>
    match body h with
    | (inl e, h') => handler e h'
    | (inr a, h') => (inr a, h')
    end.

(** [bv.get_function_at(address)] *)
Definition get_function_at (h : Host) (address : Z) : option Function :=
  find (fun f => f_start f =? address) (h_funcs h).

Definition update_function (start : Z) (g : Function -> Function) : M unit :=
  modify (update_funcs (map (fun f => if f_start f =? start then g f else f))).

(** The parameter variables of a function after its type is set: one per
    parameter type, the names it had kept. *)
Fixpoint retyped_parameters (old : list (string * ty)) (types : list ty)
  (i : Z) : list (string * ty) :=
  match types with
  | [] => []
  | t :: types' =>
      match old with
      | (name, _) :: old' => (name, t) :: retyped_parameters old' types' (i + 1)
      | [] => (("arg" ++ hex i)%string, t) :: retyped_parameters [] types' (i + 1)
      end
  end.

(** [func.type = Type.function(ret, params, variable_arguments)] *)
Definition set_function_type (start : Z) (ret_type : ty) (params : list ty)
  (variadic : bool) : M unit :=
  update_function start (fun f =>
    {| f_start := f_start f; f_name := f_name f;
       f_return_type := ret_type;
       f_parameter_vars := retyped_parameters (f_parameter_vars f) params 1;
       f_variadic := variadic |}).

Definition set_function_name (start : Z) (name : string) : M unit :=
  update_function start (fun f =>
    {| f_start := f_start f; f_name := name;
       f_return_type := f_return_type f;
       f_parameter_vars := f_parameter_vars f;
       f_variadic := f_variadic f |}).

Definition set_return_type (start : Z) (t : ty) : M unit :=
  update_function start (fun f =>
    {| f_start := f_start f; f_name := f_name f;
       f_return_type := t;
       f_parameter_vars := f_parameter_vars f;
       f_variadic := f_variadic f |}).

Fixpoint update_nth {A} (l : list A) (i : nat) (g : A -> A) : list A :=
  match l, i with
  | [], _ => []
  | x :: rest, O => g x :: rest
  | x :: rest, S i' => x :: update_nth rest i' g
  end.

(** [func.parameter_vars[i]] renamed, and retyped when a type is given *)
Definition set_parameter (start : Z) (i : nat) (name : string)
  (t : option ty) : M unit :=
  update_function start (fun f =>
    {| f_start := f_start f; f_name := f_name f;
       f_return_type := f_return_type f;
       f_parameter_vars :=
         update_nth (f_parameter_vars f) i
           (fun p => (name, match t with Some t => t | None => snd p end));
       f_variadic := f_variadic f |}).

(** [bv.update_analysis_and_wait()]: the decompilation the plugin sees is
    always the one of the current host state. *)
Definition update_analysis_and_wait : M unit := ret tt.

(** [BlockLiteral._type_for_ctype] *)
Definition _type_for_ctype (bv : BinaryView) (ctype : string) : ty :=
  let '(fallback, ctype) :=
    if endswith_char "!" ctype then (TId, replace_char "!" "*" ctype)
    else if endswith_char "*" ctype then (TVoidPtr, ctype)
    else (TVoid, ctype) in
  if bv_parses bv ctype then TParsed ctype else fallback.

Section SignatureProjector.

(** [objctypes.ObjCEncodedTypes(raw).ctypes]: the module objctypes is the
    external type-encoding translator of section 6; it gives the C types of
    a signature or raises. *)
Variable ObjCEncodedTypes_ctypes : list byte -> exn + list string.

(** The function type [annotate_functions] builds from the signature. *)
Definition signature_func_type (bv : BinaryView) (self_type : ty)
  (signature_raw : option (list byte)) : M (option (ty * list ty)) :=
  match signature_raw with
  | None => ret None
  | Some raw =>
      match ObjCEncodedTypes_ctypes raw with
      | inl NotImplementedError => print LogObjCParseFailed;; ret None
      | inl e => raise e
      | inr ctypes =>
          match map (_type_for_ctype bv) ctypes with
          | [] => raise AssertionError
          | [_] => raise IndexError
          | t0 :: _ :: rest => ret (Some (t0, TPointer self_type :: rest))
          end
      end
  end.

(** [BlockLiteral.annotate_functions] *)
Definition annotate_functions (bv : BinaryView) (self : BlockLiteral)
  (bd : BlockDescriptor) : M BlockLiteral :=
  invoke <- need_int (bl_invoke self);;
  h <- get_host;;
  self <-
    match get_function_at h invoke with
    | None => ret self
    | Some invoke_func =>
        let start := f_start invoke_func in
        signature_raw <- getattr "signature_raw" (bd_signature_raw bd);;
        struct_type <- getattr "struct_type" (bl_struct_type self);;
        func_type <- signature_func_type bv struct_type signature_raw;;
        let func_type :=
          match func_type with
          | Some (r, ps) => Some (r, ps, false)
          | None =>
              match f_parameter_vars invoke_func with
              | [] => Some (TVoid, [TPointer struct_type], true)
              | _ :: _ => None
              end
          end in
        self <-
          match func_type with
          | None =>
              set_return_type start TVoid;;
              set_parameter start 0 "block" (Some (TPointer struct_type));;
              update_analysis_and_wait;;
              ret self
          | Some (r, ps, variadic) =>
              set_function_type start r ps variadic;;
              update_analysis_and_wait;;
              h <- get_host;;
              (match get_function_at h start with
               | Some f =>
                   match f_parameter_vars f with
                   | _ :: _ => set_parameter start 0 "block" None
                   | [] => ret tt
                   end
               | None => ret tt
               end);;
              struct <- getattr "struct_builder" (bl_struct_builder self);;
              match sb_index_by_name struct "invoke" with
              | None => raise TypeError
              | Some invoke_pointer_index =>
                  let struct :=
                    sb_replace struct invoke_pointer_index
                      (TPointer (TFunction r ps variadic)) "invoke" in
                  struct_name <- getattr "struct_name" (bl_struct_name self);;
                  define_type struct_name struct;;
                  ret (set_bl_struct_builder self struct)
              end
          end;;
        h <- get_host;;
        (match get_function_at h start with
         | Some f =>
             if String.eqb (f_name f) ("sub_" ++ hex start)%string then
               set_function_name start
                 ("sub_" ++ hex start ++ "_block_invoke")%string
             else ret tt
         | None => ret tt
         end);;
        ret self
    end;;
  (if block_has_copy_dispose bd then
     copy <- need_int (bd_copy bd);;
     dispose <- need_int (bd_dispose bd);;
     h <- get_host;;
     let copy_func := get_function_at h copy in
     let dispose_func := get_function_at h dispose in
     match copy_func, dispose_func with
     | None, None => ret tt
     | _, _ =>
         struct_type <- getattr "struct_type" (bl_struct_type self);;
         (match copy_func with
          | Some f =>
              set_function_type (f_start f) TVoid
                [TPointer struct_type; TPointer struct_type] false
          | None => ret tt
          end);;
         (match dispose_func with
          | Some f =>
              set_function_type (f_start f) TVoid [TPointer struct_type] false
          | None => ret tt
          end);;
         update_analysis_and_wait;;
         h <- get_host;;
         (match get_function_at h copy with
          | Some f =>
              if (2 <=? List.length (f_parameter_vars f))%nat then
                set_parameter (f_start f) 0 "dst" None;;
                set_parameter (f_start f) 1 "src" None
              else ret tt
          | None => ret tt
          end);;
         h <- get_host;;
         (match get_function_at h dispose with
          | Some f =>
              if (1 <=? List.length (f_parameter_vars f))%nat then
                set_parameter (f_start f) 0 "dst" None
              else ret tt
          | None => ret tt
          end);;
         update_analysis_and_wait;;
         h <- get_host;;
         (match get_function_at h copy with
          | Some f =>
              if String.eqb (f_name f) ("sub_" ++ hex (f_start f))%string then
                set_function_name (f_start f)
                  ("sub_" ++ hex (f_start f) ++ "_block_copy")%string
              else ret tt
          | None => ret tt
          end);;
         h <- get_host;;
         (match get_function_at h dispose with
          | Some f =>
              if String.eqb (f_name f) ("sub_" ++ hex (f_start f))%string then
                set_function_name (f_start f)
                  ("sub_" ++ hex (f_start f) ++ "_block_dispose")%string
              else ret tt
          | None => ret tt
          end)
     end
   else ret tt);;
  ret self.

End SignatureProjector.

(* ===================================================================== *)
(** ** blocks.py: the byref pass of annotate_stack_block_literal *)

(** The local variables of [annotate_stack_block_literal] that the loop over
    the byref cells binds; they are locals of the function, so a value bound
    for one cell is still there for the next. *)
Record byref_locals : Type := {
  byref_flags : attr Z;
  byref_size : attr Z;
  byref_layout : attr Z
}.

Definition no_byref_locals : byref_locals :=
  {| byref_flags := Unset; byref_size := Unset; byref_layout := Unset |}.

(** The first loop of the byref pass: for every assignment to a member the
    layout marks as byref, what is assigned. *)
Fixpoint collect_byref_srcs (address : Z) (g : generator HLILInstruction)
  (byref_indexes_set : list Z) (byref_srcs : list (option HLILExpr * Z))
  : M (list (option HLILExpr * Z)) :=
  match g with
  | GenStop => ret byref_srcs
  | GenRaise e => raise e
  | GenYield insn rest =>
      match assign_parts insn with
      | None => raise (AttributeError "src")
      | Some (member_index, src) =>
          let add insn_src :=
            collect_byref_srcs address rest byref_indexes_set
              (if existsb (Z.eqb member_index) byref_indexes_set
               then byref_srcs ++ [(insn_src, member_index)]
               else byref_srcs) in
          match src with
          | HighLevelILAddressOf _ => add (Some src)
          | HighLevelILDerefField _ _
          | HighLevelILDeref _
          | HighLevelILImport _ _ _
          | HighLevelILConst _
          | HighLevelILConstPtr _
          | HighLevelILCall _
          | HighLevelILStructField _ _
          | HighLevelILVar _ => add None
          | _ =>
              print (LogSkippingRhs address);;
              collect_byref_srcs address rest byref_indexes_set byref_srcs
          end
      end
  end.

(** The search for the declaration of the byref variable among the
    instructions of the function. *)
Fixpoint find_byref_insn (instructions : list HLILInstruction) (var_id : Z)
  : option (HLILInstruction * Var) :=
  match instructions with
  | [] => None
  | insn :: rest =>
      let cand :=
        match insn_op insn with
        | HighLevelILVarDeclare var => Some var
        | HighLevelILVarInit dest _ => Some dest
        | _ => None
        end in
      match cand with
      | Some cand_var =>
          if identifier cand_var =? var_id then Some (insn, cand_var)
          else find_byref_insn rest var_id
      | None => find_byref_insn rest var_id
      end
  end.

(** The second scan: the constants assigned to members 2 (flags) and 3
    (size) of the byref variable. *)
Fixpoint byref_header_loop (g : generator HLILInstruction) (l : byref_locals)
  : exn + byref_locals :=
  match g with
  | GenStop => inr l
  | GenRaise e => inl e
  | GenYield insn rest =>
      match assign_parts insn with
      | None => inl (AttributeError "member_index")
      | Some (member_index, src) =>
          let l :=
            if member_index =? 2 then
              match is_const src with
              | Some c => {| byref_flags := Bound c;
                             byref_size := byref_size l;
                             byref_layout := byref_layout l |}
              | None => l
              end
            else if member_index =? 3 then
              match is_const src with
              | Some c => {| byref_flags := byref_flags l;
                             byref_size := Bound c;
                             byref_layout := byref_layout l |}
              | None => l
              end
            else l in
          byref_header_loop rest l
      end
  end.

(** The scan for the constant assigned to the layout member. *)
Fixpoint byref_layout_loop (g : generator HLILInstruction) (layout_index : Z)
  (l : byref_locals) : exn + byref_locals :=
  match g with
  | GenStop => inr l
  | GenRaise e => inl e
  | GenYield insn rest =>
      match assign_parts insn with
      | None => inl (AttributeError "member_index")
      | Some (member_index, src) =>
          if member_index =? layout_index then
            match is_const src with
            | None => inl AssertionError
            | Some c => inr {| byref_flags := byref_flags l;
                               byref_size := byref_size l;
                               byref_layout := Bound c |}
            end
          else byref_layout_loop rest layout_index l
      end
  end.

(** [str(type)] of a variable typed with a structure under construction *)
Definition anonymous_struct_type_name : string := "struct".

(** The members appended after the fixed header of a byref cell, from its
    flags: keep and destroy, then the payload the layout nibble selects. *)
Definition byref_payload (bv : BinaryView) (flags : Z)
  (byref_struct : StructureBuilder) (byref_insn : HLILRef)
  (byref_insn_var : Var) (l : byref_locals)
  : M (StructureBuilder * HLILRef * Var * byref_locals) :=
  byref_struct <-
    (if negb (Z.land flags BLOCK_BYREF_HAS_COPY_DISPOSE =? 0) then
       t <- _get_libclosure_type "BlockByrefKeepFunction";;
       let byref_struct := sb_append byref_struct t "byref_keep" in
       t <- _get_libclosure_type "BlockByrefDestroyFunction";;
       ret (sb_append byref_struct t "byref_destroy")
     else ret byref_struct);;
  let byref_layout_nibble := Z.land flags BLOCK_BYREF_LAYOUT_MASK in
  if byref_layout_nibble =? BLOCK_BYREF_LAYOUT_EXTENDED then
    let byref_struct := sb_append byref_struct TVoidPtr "layout" in
    match sb_index_by_name byref_struct "layout" with
    | None => raise TypeError
    | Some layout_index =>
        set_var_type byref_insn_var anonymous_struct_type_name;;
        byref_insn <- reload_hlil_instruction bv byref_insn;;
        byref_insn_var <- lift (insn_var (ref_insn byref_insn));;
        l <- lift (byref_layout_loop
                     (yield_struct_field_assign_hlil_instructions_for_var_id
                        (ref_function byref_insn) (identifier byref_insn_var))
                     (Z.of_nat layout_index) l);;
        layout <- getlocal "byref_layout" (byref_layout l);;
        let byref_struct :=
          if negb (layout =? 0) then
            if layout <? 0x1000
            then sb_replace byref_struct layout_index TUInt64 "layout"
            else sb_replace byref_struct layout_index TUInt8ConstPtr "layout"
          else byref_struct in
        '(byref_struct, _, _) <-
          append_layout_fields bv byref_struct (Some layout) true None None;;
        ret (byref_struct, byref_insn, byref_insn_var, l)
    end
  else if byref_layout_nibble =? BLOCK_BYREF_LAYOUT_NON_OBJECT then
    ret (sb_append byref_struct TUInt64 "non_object_0",
         byref_insn, byref_insn_var, l)
  else if byref_layout_nibble =? BLOCK_BYREF_LAYOUT_STRONG then
    t <- _get_objc_type "id";;
    ret (sb_append byref_struct t "strong_ptr_0",
         byref_insn, byref_insn_var, l)
  else if byref_layout_nibble =? BLOCK_BYREF_LAYOUT_WEAK then
    t <- _get_objc_type "id";;
    ret (sb_append byref_struct t "weak_ptr_0",
         byref_insn, byref_insn_var, l)
  else if byref_layout_nibble =? BLOCK_BYREF_LAYOUT_UNRETAINED then
    t <- _get_objc_type "id";;
    ret (sb_append byref_struct t "unretained_ptr_0",
         byref_insn, byref_insn_var, l)
  else ret (byref_struct, byref_insn, byref_insn_var, l).

(** The end of one round of the byref loop: the structure is registered,
    its forwarding pointer and the literal's member are given its type. *)
Definition register_byref (bl : BlockLiteral) (byref_struct : StructureBuilder)
  (byref_insn : HLILRef) (byref_insn_var : Var) (byref_member_index : Z)
  : M BlockLiteral :=
  let byref_struct_name :=
    ("Block_byref_" ++ hex (insn_address (ref_insn byref_insn)))%string in
  define_type byref_struct_name byref_struct;;
  let byref_struct_type_name := ("struct " ++ byref_struct_name)%string in
  let byref_struct_type := TStruct byref_struct_name in
  let byref_struct :=
    sb_replace byref_struct 1 (TPointer byref_struct_type) "forwarding" in
  define_type byref_struct_name byref_struct;;
  set_var_type byref_insn_var byref_struct_type_name;;
  bl_struct <- getattr "struct_builder" (bl_struct_builder bl);;
  match nth_error (sb_members bl_struct) (Z.to_nat byref_member_index) with
  | None => raise IndexError
  | Some member =>
      let byref_member_name := m_name member in
      assert (String.prefix "byref_ptr_" byref_member_name);;
      let bl_struct :=
        sb_replace bl_struct (Z.to_nat byref_member_index)
          (TPointer byref_struct_type) byref_member_name in
      bl_struct_name <- getattr "struct_name" (bl_struct_name bl);;
      define_type bl_struct_name bl_struct;;
      ret (set_bl_struct_builder bl bl_struct)
  end.

(** One round of the loop over [byref_srcs]; [continue] ends the round with
    the literal unchanged. *)
Definition annotate_byref (bv : BinaryView) (bl_insn : HLILRef)
  (bl : BlockLiteral) (l : byref_locals)
  (entry : option HLILExpr * Z) : M (BlockLiteral * byref_locals) :=
  let '(byref_src, byref_member_index) := entry in
  let address := bl_address bl in
  match byref_src with
  | None => ret (bl, l)
  | Some (HighLevelILAddressOf (HighLevelILVar var)) =>
      let var_id := identifier var in
      match find_byref_insn (ref_function bl_insn) var_id with
      | None =>
          print (LogByrefVarNotFound address var_id);;
          ret (bl, l)
      | Some (byref_insn, byref_insn_var) =>
          h <- get_host;;
          set_var_name byref_insn_var
            ("block_byref_" ++ var_name h byref_insn_var)%string;;
          let byref_struct := sb_create false in
          t <- _get_objc_type "Class";;
          let byref_struct := sb_append byref_struct t "isa" in
          let byref_struct := sb_append byref_struct TVoidPtr "forwarding" in
          let byref_struct := sb_append byref_struct TVolatileInt32 "flags" in
          let byref_struct := sb_append byref_struct TUInt32 "size" in
          set_var_type byref_insn_var anonymous_struct_type_name;;
          byref_insn <- reload_hlil_instruction bv
                          {| ref_insn := byref_insn;
                             ref_function := ref_function bl_insn |};;
          byref_insn_var <- lift (insn_var (ref_insn byref_insn));;
          l <- lift (byref_header_loop
                       (yield_struct_field_assign_hlil_instructions_for_var_id
                          (ref_function byref_insn)
                          (identifier byref_insn_var))
                       l);;
          match byref_flags l, byref_size l with
          | Bound flags, Bound size =>
              print (LogByref (insn_address (ref_insn byref_insn)) flags size);;
              '(byref_struct, byref_insn, byref_insn_var, l) <-
                byref_payload bv flags byref_struct byref_insn
                  byref_insn_var l;;
              bl <- register_byref bl byref_struct byref_insn byref_insn_var
                      byref_member_index;;
              ret (bl, l)
          | _, _ =>
              print (LogByrefFailed (insn_address (ref_insn byref_insn)));;
              ret (bl, l)
          end
      end
  | Some (HighLevelILAddressOf _) =>
      print (LogByrefAnnotateManually address);;
      ret (bl, l)
  | Some _ => raise AssertionError
  end.

(** The loop over [byref_srcs]. *)
Fixpoint annotate_byrefs (bv : BinaryView) (bl_insn : HLILRef)
  (bl : BlockLiteral) (l : byref_locals)
  (byref_srcs : list (option HLILExpr * Z)) : M (BlockLiteral * byref_locals) :=
  match byref_srcs with
  | [] => ret (bl, l)
  | entry :: rest =>
      '(bl, l) <- annotate_byref bv bl_insn bl l entry;;
      annotate_byrefs bv bl_insn bl l rest
  end.

(** The body of the second [try] of [annotate_stack_block_literal]. *)
Definition annotate_stack_byrefs (bv : BinaryView) (bl : BlockLiteral)
  (bd : BlockDescriptor) : M BlockLiteral :=
  if 0 <? imported_variables_size bd then
    byref_indexes <- getattr "byref_indexes" (bl_byref_indexes bl);;
    if (0 <? List.length byref_indexes)%nat then
      match bl_object bl with
      | inr _ => raise (AttributeError "function")
      | inl bl_insn =>
          var <- lift (insn_var (ref_insn bl_insn));;
          byref_srcs <-
            collect_byref_srcs (bl_address bl)
              (yield_struct_field_assign_hlil_instructions_for_var_id
                 (ref_function bl_insn) (identifier var))
              byref_indexes [];;
          assert (List.length byref_srcs =? List.length byref_indexes)%nat;;
          '(bl, _) <- annotate_byrefs bv bl_insn bl no_byref_locals byref_srcs;;
          ret bl
      end
    else ret bl
  else ret bl.

(* ===================================================================== *)
(** ** blocks.py: one block instance, end to end *)

(** [data_var.value]: an integer for a variable of a scalar or pointer
    type, a dictionary of the members for one of a structure type. *)
Inductive DataValue : Type :=
| ValueInt (z : Z)
| ValueDict (members : list (string * Z))
| ValueOther.

Definition data_var_value (bv : BinaryView) (dv : DataVariable) : DataValue :=
  match dv_type dv with
  | TStruct _ =>
      match read_le bv (dv_address dv) 8 with
      | Some isa => ValueDict [("isa"%string, isa)]
      | None => ValueOther
      end
  | TVoid | TParsed _ | TUInt8Array _ | TFunction _ _ _ => ValueOther
  | t =>
      match read_le bv (dv_address dv) (Z.to_nat (ty_width t)) with
      | Some z => ValueInt z
      | None => ValueOther
      end
  end.

Section Instance.

Variable ObjCEncodedTypes_ctypes : list byte -> exn + list string.

(** The body of the [try] of [annotate_global_block_literal]. *)
Definition annotate_global_block (bv : BinaryView)
  (block_literal_data_var : DataVariable) : M (BlockLiteral * BlockDescriptor) :=
  bl <- lift (from_data bv block_literal_data_var);;
  print_literal bl;;
  bd <- lift (fst (BlockDescriptor_init bv (bl_descriptor bl) (bl_flags bl)));;
  print_descriptor bd;;
  '(bl, bd) <- annotate_literal bv bl bd;;
  '(bd, bl) <- annotate_descriptor bd bl;;
  annotate_layout_bytecode bl bd;;
  bl <- annotate_functions ObjCEncodedTypes_ctypes bv bl bd;;
  ret (bl, bd).

(** [annotate_global_block_literal]: the literal and descriptor it
    annotated, or [None] when it gave the instance up. *)
Definition annotate_global_block_literal (bv : BinaryView)
  (block_literal_addr : Z) : M (option (BlockLiteral * BlockDescriptor)) :=
  print (LogAnnotating false block_literal_addr);;
  h <- get_host;;
  block_literal_data_var <-
    match get_data_var_at h block_literal_addr with
    | Some dv => ret dv
    | None =>
        class_type <- _get_objc_type "Class";;
        define_user_data_var block_literal_addr (TPointer class_type);;
        h <- get_host;;
        match get_data_var_at h block_literal_addr with
        | Some dv => ret dv
        | None => raise AssertionError
        end
    end;;
  let data_var_value :=
    match data_var_value bv block_literal_data_var with
    | ValueDict members =>
        match assoc_string "isa" members with
        | Some isa => ValueInt isa
        | None => ValueDict members
        end
    | v => v
    end in
  match data_var_value with
  | ValueInt value =>
      match get_symbol_of_type bv "__NSConcreteGlobalBlock" ExternalSymbol with
      | None =>
          print (LogSymbolNotFound "__NSConcreteGlobalBlock");;
          ret None
      | Some ext_sym =>
          if negb (value =? sym_address ext_sym) then
            print (LogIsaMismatch block_literal_addr value
                     (sym_address ext_sym));;
            ret None
          else
            try_except
              (r <- annotate_global_block bv block_literal_data_var;;
               ret (Some r))
              (fun e =>
                 print (LogException false block_literal_addr e);;
                 ret None)
      end
  | _ =>
      print (LogDataVarNotInt block_literal_addr);;
      ret None
  end.

(** The body of the first [try] of [annotate_stack_block_literal]. *)
Definition annotate_stack_block (bv : BinaryView)
  (block_literal_insn : HLILRef) (block_literal_var : Var)
  : M (BlockLiteral * BlockDescriptor) :=
  bl <- from_stack bv block_literal_insn block_literal_var;;
  print_literal bl;;
  bd <- lift (fst (BlockDescriptor_init bv (bl_descriptor bl) (bl_flags bl)));;
  print_descriptor bd;;
  '(bl, bd) <- annotate_literal bv bl bd;;
  '(bd, bl) <- annotate_descriptor bd bl;;
  annotate_layout_bytecode bl bd;;
  bl <- annotate_functions ObjCEncodedTypes_ctypes bv bl bd;;
  ret (bl, bd).

(** The variable and the right-hand side [annotate_stack_block_literal]
    takes from the instruction it is given; [inl] is what it logs when it
    returns at once. *)
Definition block_literal_var_of (block_literal_insn : HLILRef)
  : M (LogEntry + Var * HLILExpr) :=
  let address := insn_address (ref_insn block_literal_insn) in
  match insn_op (ref_insn block_literal_insn) with
  | HighLevelILVarInit dest src => ret (inr (dest, src))
  | HighLevelILAssign (HighLevelILStructField dest_src _) src =>
      var <- lift (expr_var dest_src);;
      ret (inr (var, src))
  | HighLevelILAssign (HighLevelILVar var) src => ret (inr (var, src))
  | HighLevelILAssign _ _ => ret (inl (LogNotVarOrField address))
  | _ => ret (inl (LogNotInitOrAssign address))
  end.

(** [annotate_stack_block_literal]: the literal and descriptor it
    annotated, or [None] when it gave the instance up. *)
Definition annotate_stack_block_literal (bv : BinaryView)
  (block_literal_insn : HLILRef)
  : M (option (BlockLiteral * BlockDescriptor)) :=
  let address := insn_address (ref_insn block_literal_insn) in
  print (LogAnnotating true address);;
  r <- block_literal_var_of block_literal_insn;;
  match r with
  | inl entry => print entry;; ret None
  | inr (block_literal_var, isa_src) =>
      if negb (is_stack_variable block_literal_var) then
        print (LogNotStackVariable address);;
        ret None
      else
        let is_marker :=
          match isa_src with
          | HighLevelILImport text _ _ =>
              String.eqb text "__NSConcreteStackBlock"
          | _ => false
          end in
        if negb is_marker then
          print (LogNotStackBlockImport address);;
          ret None
        else
          r <- try_except
                 (r <- annotate_stack_block bv block_literal_insn
                         block_literal_var;;
                  ret (Some r))
                 (fun e => print (LogException true address e);; ret None);;
          match r with
          | None => ret None
          | Some (bl, bd) =>
              try_except
                (bl <- annotate_stack_byrefs bv bl bd;;
                 ret (Some (bl, bd)))
                (fun e => print (LogException true address e);; ret None)
          end
  end.

End Instance.

(* ===================================================================== *)
(** ** The data model of the specification, read off the structures *)

(** One unit of captured-variable storage. *)
Inductive LayoutSlot : Type :=
| NonObjectBytes (n : Z)
| NonObjectWord
| StrongPointer
| ByrefPointer
| WeakPointer
| UnretainedPointer.

(** The slot a member appended by [append_layout_fields] stands for: its
    kind is in its type and in the prefix of its name. *)
Definition member_slot (m : StructureMember) : option LayoutSlot :=
  match m_type m with
  | TId =>
      if String.prefix "strong_ptr_" (m_name m) then Some StrongPointer
      else if String.prefix "byref_ptr_" (m_name m) then Some ByrefPointer
      else if String.prefix "weak_ptr_" (m_name m) then Some WeakPointer
      else if String.prefix "unretained_ptr_" (m_name m)
      then Some UnretainedPointer
      else None
  | TUInt8Array n =>
      if String.prefix "non_object_" (m_name m) then Some (NonObjectBytes n)
      else None
  | TUInt64 =>
      if String.prefix "non_object_" (m_name m) then Some NonObjectWord
      else None
  | _ => None
  end.

(** The member indexes of the byref slots of a slot list that starts at
    member index [start]. *)
Fixpoint byref_positions (start : nat) (slots : list LayoutSlot) : list Z :=
  match slots with
  | [] => []
  | ByrefPointer :: rest => Z.of_nat start :: byref_positions (S start) rest
  | _ :: rest => byref_positions (S start) rest
  end.

(** The opcode and the operand of a byte of layout bytecode. *)
Definition opcode_of (b : byte) : Z := Z.shiftr (Z.land (byte_val b) 0xf0) 4.
Definition oparg_of (b : byte) : Z := Z.land (byte_val b) 0x0f.

(** The slots section 4.1 gives to one byte with opcode 1 to 6. *)
Definition slots_of_byte (b : byte) : list LayoutSlot :=
  let n := Z.to_nat (oparg_of b) in
  match opcode_of b with
  | 1 => [NonObjectBytes (oparg_of b)]
  | 2 => repeat NonObjectWord n
  | 3 => repeat StrongPointer n
  | 4 => repeat ByrefPointer n
  | 5 => repeat WeakPointer n
  | 6 => repeat UnretainedPointer n
  | _ => []
  end.

(** The type and the name of a member, without its offset. *)
Definition member_sig (m : StructureMember) : ty * string :=
  (m_type m, m_name m).

(* ===================================================================== *)
(** ** Fixtures for concrete runs *)

Definition byte_of_Z (z : Z) : byte :=
  match Byte.of_N (Z.to_N (z mod 256)) with
  | Some b => b
  | None => x00
  end.

(** [n] bytes of [v], little-endian *)
Fixpoint le_bytes (n : nat) (v : Z) : list byte :=
  match n with
  | O => []
  | S n' => byte_of_Z v :: le_bytes n' (v / 256)
  end.

Definition empty_host : Host :=
  {| h_types := []; h_source_types := []; h_var_names := [];
     h_var_types := []; h_data_vars := []; h_funcs := [];
     h_comments := []; h_log := [] |}.

(** A translator that knows no encoding. *)
Definition no_translator (_ : list byte) : exn + list string :=
  inl NotImplementedError.

(** An image with bytes only, at an address. *)
Definition image (start : Z) (data : list byte) : BinaryView :=
  {| bv_start := start; bv_data := data; bv_symbols := [];
     bv_parses := fun _ => true; bv_hlil := fun _ => [] |}.

(* ===================================================================== *)
(** ** Predicates and fixtures of the properties *)

(** The reader after the two unconditional fields, after copy and dispose,
    and after signature and layout. *)
Definition after_header (bv : BinaryView) (a : Z) : BinaryReader :=
  snd (br_read64 bv (snd (br_read64 bv (br_seek a)))).

Definition after_copy_dispose (bv : BinaryView) (a flags : Z) : BinaryReader :=
  if flag_set flags BLOCK_HAS_COPY_DISPOSE
  then snd (br_read64 bv (snd (br_read64 bv (after_header bv a))))
  else after_header bv a.

Definition after_signature (bv : BinaryView) (a flags : Z) : BinaryReader :=
  snd (br_read64 bv (after_copy_dispose bv a flags)).

Definition after_layout (bv : BinaryView) (a flags : Z) : BinaryReader :=
  snd (br_read64 bv (after_signature bv a flags)).

(** A descriptor at 0x3000 with all six fields, and the signature string
    [v8@?0] its signature field points at. *)
Definition full_descriptor_image : BinaryView :=
  image 0x3000
    (le_bytes 8 0 ++ le_bytes 8 0x28 ++ le_bytes 8 0x2100 ++ le_bytes 8 0x2200
     ++ le_bytes 8 0x3030 ++ le_bytes 8 0x100
     ++ map byte_of_Z [0x76; 0x38; 0x40; 0x3f; 0x30; 0]).

(** [h'] is [h] but for the source types defined on first use. *)
Definition registers (h h' : Host) : Prop :=
  h_types h' = h_types h /\ h_var_names h' = h_var_names h /\
  h_var_types h' = h_var_types h /\ h_data_vars h' = h_data_vars h /\
  h_funcs h' = h_funcs h /\ h_comments h' = h_comments h /\
  h_log h' = h_log h.

(** [m] returns [a] from every host state and only registers types. *)
Definition returns {A} (m : M A) (a : A) : Prop :=
  forall h, exists h', m h = (inr a, h') /\ registers h h'.

(** [s'] is [s] with members appended that stand for [slots], and with the
    member indexes of the byref slots among them recorded. *)
Definition extends (s s' : layout_state) (slots : list LayoutSlot) : Prop :=
  exists news,
    sb_members (fst s') = sb_members (fst s) ++ news /\
    map member_slot news = map Some slots /\
    sb_packed (fst s') = sb_packed (fst s) /\
    snd s' = option_map
               (fun l => l ++ byref_positions (List.length (sb_members (fst s)))
                                slots)
               (snd s).

(** [m] returns a state that extends [s] by [slots]. *)
Definition emits (m : M layout_state) (s : layout_state)
  (slots : list LayoutSlot) : Prop :=
  forall h, exists s' h',
    m h = (inr s', h') /\ registers h h' /\ extends s s' slots.

(** The host after the byte that ends the decoding: a warning is logged
    for an unknown opcode, and nothing for ESCAPE. *)
Definition after_terminator (t : byte) (h : Host) : Host :=
  if opcode_of t =? BLOCK_LAYOUT_ESCAPE then h
  else update_log (fun l => l ++ [LogUnknownLayoutOp (byte_val t)]) h.

(** [h'] is [h] but for the source types and the log. *)
Definition quiet (h h' : Host) : Prop :=
  h_types h' = h_types h /\ h_var_names h' = h_var_names h /\
  h_var_types h' = h_var_types h /\ h_data_vars h' = h_data_vars h /\
  h_funcs h' = h_funcs h /\ h_comments h' = h_comments h.

Definition frame {A} (m : M A) : Prop :=
  forall h r h', m h = (r, h') -> quiet h h'.


(** A global literal at 0x2fe0 with a signature-bearing descriptor of size
    0x28 at 0x3000, and its image. *)
Definition global_image : BinaryView :=
  {| bv_start := 0x2fe0;
     bv_data := le_bytes 8 0x1000 ++ le_bytes 4 0x50000000 ++ le_bytes 4 0
                ++ le_bytes 8 0x2000 ++ le_bytes 8 0x3000
                ++ le_bytes 8 0 ++ le_bytes 8 0x28
                ++ le_bytes 8 0 ++ le_bytes 8 0;
     bv_symbols := [{| sym_name := "__NSConcreteGlobalBlock";
                       sym_type := ExternalSymbol; sym_address := 0x1000 |}];
     bv_parses := fun _ => true;
     bv_hlil := fun _ => [] |}.

Definition global_data_var : DataVariable :=
  {| dv_address := 0x2fe0; dv_name := "data_2fe0"; dv_type := TPointer TClass |}.

Definition global_literal : BlockLiteral :=
  {| is_stack_block := false; bl_object := inr global_data_var;
     bl_address := 0x2fe0; bl_isa := Some 0x1000; bl_flags := Some 0x50000000;
     bl_reserved := Some 0; bl_invoke := Some 0x2000;
     bl_descriptor := Some 0x3000;
     bl_byref_indexes := Unset; bl_struct_builder := Unset;
     bl_struct_name := Unset; bl_struct_type_name := Unset;
     bl_struct_type := Unset |}.

Definition signed_descriptor (flags : Z) : BlockDescriptor :=
  {| bd_address := 0x3000; bd_block_flags := flags;
     bd_reserved := Some 0; bd_size := 0x28;
     bd_copy := None; bd_dispose := None;
     bd_signature := Bound (Some 0); bd_signature_raw := Bound None;
     bd_layout := Bound (Some 0);
     bd_layout_end := Unset; bd_struct_builder := Unset;
     bd_struct_name := Unset; bd_struct_type_name := Unset;
     bd_struct_type := Unset |}.

(** A stack literal whose variable already has the type of the literal of
    another address. *)
Definition annotated_var : Var :=
  {| identifier := 0x18; var_name0 := "stack_block_var_18";
     var_type0 := "struct Block_literal_200"; is_stack_variable := true |}.

Definition marker : HLILExpr :=
  HighLevelILImport "__NSConcreteStackBlock" 0x9000 0x100.

Definition annotated_insn : HLILInstruction :=
  {| insn_address := 0x100;
     insn_op := HighLevelILAssign
                  (HighLevelILStructField (HighLevelILVar annotated_var) 0)
                  marker |}.

Definition annotated_literal : BlockLiteral :=
  {| is_stack_block := true;
     bl_object := inl {| ref_insn := annotated_insn;
                         ref_function := [annotated_insn] |};
     bl_address := 0x100; bl_isa := Some 0x100; bl_flags := Some 0x40000000;
     bl_reserved := Some 0; bl_invoke := Some 0x2000;
     bl_descriptor := Some 0x3000;
     bl_byref_indexes := Unset; bl_struct_builder := Unset;
     bl_struct_name := Unset; bl_struct_type_name := Unset;
     bl_struct_type := Unset |}.

(** [var.<member> = src] at an address *)
Definition field_assign (address : Z) (var : Var) (member_index : Z)
  (src : HLILExpr) : HLILInstruction :=
  {| insn_address := address;
     insn_op := HighLevelILAssign
                  (HighLevelILStructField (HighLevelILVar var) member_index)
                  src |}.

(** [e] is the constant [c], as a plain constant or as a constant
    pointer. *)
Definition constant_expr (e : HLILExpr) (c : Z) : Prop :=
  e = HighLevelILConst c \/ e = HighLevelILConstPtr c.

Section HeaderAssignments.

Variable var : Var.
Variables a0 a1 a2 a3 a4 : Z.
Variable marker_text : string.
Variables marker_constant marker_address : Z.
Variables flags_src reserved_src invoke_src descriptor_src : HLILExpr.
Variables flags invoke descriptor : Z.

(** The five assignments that build the fixed header of a stack block:
    member 0 from an import, the others from any expression. *)
Definition header_assignments : list HLILInstruction :=
  [field_assign a0 var 0
     (HighLevelILImport marker_text marker_constant marker_address);
   field_assign a1 var 1 flags_src;
   field_assign a2 var 2 reserved_src;
   field_assign a3 var 3 invoke_src;
   field_assign a4 var 4 descriptor_src].

(** The locals once the five assignments are seen, when [flags], [invoke]
    and [descriptor] are the constants of their sources: [isa] is bound
    only by the import [__NSConcreteStackBlock]. *)
Definition header_locals : stack_locals :=
  {| l_isa := if String.eqb marker_text "__NSConcreteStackBlock"
              then Bound marker_address else Unset;
     l_flags := Bound flags;
     l_reserved := Bound (is_const reserved_src);
     l_invoke := Bound invoke; l_descriptor := Bound descriptor |}.

(** What is bound in [l] has the value the header assignments give. *)
Definition consistent (l : stack_locals) : Prop :=
  (l_isa l = Unset \/ l_isa l = l_isa header_locals) /\
  (l_flags l = Unset \/ l_flags l = l_flags header_locals) /\
  (l_reserved l = Unset \/ l_reserved l = l_reserved header_locals) /\
  (l_invoke l = Unset \/ l_invoke l = l_invoke header_locals) /\
  (l_descriptor l = Unset \/ l_descriptor l = l_descriptor header_locals).

(** Every header field has its final value in [l] or is still assigned in
    [stream]. *)
Definition covered (l : stack_locals) (stream : list HLILInstruction) : Prop :=
  (l_isa l = l_isa header_locals
   \/ In (nth 0 header_assignments (field_assign 0 var 0 reserved_src))
        stream) /\
  (l_flags l = l_flags header_locals
   \/ In (nth 1 header_assignments (field_assign 0 var 0 reserved_src))
        stream) /\
  (l_reserved l = l_reserved header_locals
   \/ In (nth 2 header_assignments (field_assign 0 var 0 reserved_src))
        stream) /\
  (l_invoke l = l_invoke header_locals
   \/ In (nth 3 header_assignments (field_assign 0 var 0 reserved_src))
        stream) /\
  (l_descriptor l = l_descriptor header_locals
   \/ In (nth 4 header_assignments (field_assign 0 var 0 reserved_src))
        stream).

End HeaderAssignments.

(** A view whose function decompiles to a given instruction list. *)
Definition stack_view (stream : list HLILInstruction) : BinaryView :=
  {| bv_start := 0; bv_data := []; bv_symbols := [];
     bv_parses := fun _ => true; bv_hlil := fun _ => stream |}.

Definition var_18 : Var :=
  {| identifier := 0x18; var_name0 := "var_18"; var_type0 := "int64_t";
     is_stack_variable := true |}.

(** The instructions of the scenario of the specification: invoke, flags
    and descriptor are assigned, and the variable is initialized with the
    marker; nothing is assigned to [reserved]. *)
Definition marker_init : HLILInstruction :=
  {| insn_address := 0x100; insn_op := HighLevelILVarInit var_18 marker |}.

Definition scenario_stream (isa_insn : HLILInstruction)
  : list HLILInstruction :=
  [field_assign 0x110 var_18 3 (HighLevelILConst 0x4000);
   field_assign 0x108 var_18 1 (HighLevelILConst 0x02000000);
   field_assign 0x118 var_18 4 (HighLevelILConst 0x5000);
   isa_insn].

(** The same with [reserved] assigned and the marker assigned to member 0. *)
Definition complete_stream : list HLILInstruction :=
  [field_assign 0x110 var_18 3 (HighLevelILConst 0x4000);
   field_assign 0x108 var_18 1 (HighLevelILConst 0x02000000);
   field_assign 0x118 var_18 4 (HighLevelILConst 0x5000);
   field_assign 0x10c var_18 2 (HighLevelILConst 0);
   field_assign 0x100 var_18 0 marker].

(** The header as the decompiler shows it for pointers: invoke and
    descriptor are constant pointers, the flags a constant. *)
Definition pointer_stream : list HLILInstruction :=
  [field_assign 0x110 var_18 3 (HighLevelILConstPtr 0x4000);
   field_assign 0x108 var_18 1 (HighLevelILConst 0x02000000);
   field_assign 0x118 var_18 4 (HighLevelILConstPtr 0x5000);
   field_assign 0x10c var_18 2 (HighLevelILConst 0);
   field_assign 0x100 var_18 0 marker].

(** The expression whose field an instruction assigns, when it assigns a
    field. *)
Definition destination_base (insn : HLILInstruction) : option HLILExpr :=
  match insn_op insn with
  | HighLevelILAssign (HighLevelILStructField base _) _ => Some base
  | _ => None
  end.

(** The bases the scan has no case for: anything but a variable, an array
    element, a field or a field behind a pointer. *)
Definition unhandled_base (base : HLILExpr) : bool :=
  match base with
  | HighLevelILVar _
  | HighLevelILArrayIndex _ _
  | HighLevelILStructField _ _
  | HighLevelILDerefField _ _ => false
  | _ => true
  end.

(** An assignment through a dereferenced pointer, among the assignments
    that build a stack block. *)
Definition var_p : Var :=
  {| identifier := 0x40; var_name0 := "p"; var_type0 := "struct s*";
     is_stack_variable := false |}.

Definition deref_assign : HLILInstruction :=
  {| insn_address := 0xf8;
     insn_op := HighLevelILAssign
                  (HighLevelILStructField
                     (HighLevelILDeref (HighLevelILVar var_p)) 0)
                  (HighLevelILConst 0) |}.

(** The type and name of the keep and destroy members, present when the
    copy-dispose bit of the byref flags is set. *)
Definition keep_destroy_sigs (flags : Z) : list (ty * string) :=
  if negb (Z.land flags BLOCK_BYREF_HAS_COPY_DISPOSE =? 0) then
    [(TLibclosure "BlockByrefKeepFunction", "byref_keep"%string);
     (TLibclosure "BlockByrefDestroyFunction", "byref_destroy"%string)]
  else [].

(** The type given to the layout member of an extended byref cell. *)
Definition layout_member_type (layout : Z) : ty :=
  if layout =? 0 then TVoidPtr
  else if layout <? 0x1000 then TUInt64 else TUInt8ConstPtr.

Definition with_keep_destroy (flags : Z) (st : StructureBuilder)
  : StructureBuilder :=
  if negb (Z.land flags BLOCK_BYREF_HAS_COPY_DISPOSE =? 0) then
    sb_append
      (sb_append st (TLibclosure "BlockByrefKeepFunction") "byref_keep")
      (TLibclosure "BlockByrefDestroyFunction") "byref_destroy"
  else st.

(** The fixed header of a byref cell, as [annotate_stack_block_literal]
    builds it. *)
Definition byref_fixed_header : StructureBuilder :=
  sb_append
    (sb_append
       (sb_append (sb_append (sb_create false) TClass "isa")
          TVoidPtr "forwarding")
       TVolatileInt32 "flags")
    TUInt32 "size".

Definition var_a : Var :=
  {| identifier := 0x30; var_name0 := "var_30"; var_type0 := "int64_t";
     is_stack_variable := true |}.

Definition var_b : Var :=
  {| identifier := 0x50; var_name0 := "var_50"; var_type0 := "int64_t";
     is_stack_variable := true |}.

Definition var_x : Var :=
  {| identifier := 0x70; var_name0 := "arg1"; var_type0 := "int32_t";
     is_stack_variable := false |}.

Definition declare (address : Z) (var : Var) : HLILInstruction :=
  {| insn_address := address; insn_op := HighLevelILVarDeclare var |}.

(** The function before the plugin types anything: the host sees the
    initialization of a variable with the marker. *)
Definition untyped_function : list HLILInstruction :=
  [marker_init].

(** The function once the variables have structure types.  The block at
    [var_18] captures two variables by reference; [first] is the one whose
    address goes to member 5 and [second] the one of member 6.  The flags
    and the size of [var_a] are assigned from constants, the flags of
    [var_b] from a parameter. *)
Definition typed_function (first second : Var) : list HLILInstruction :=
  [declare 0x100 var_18;
   field_assign 0x100 var_18 0 marker;
   field_assign 0x108 var_18 1 (HighLevelILConst 0xc0000000);
   field_assign 0x10c var_18 2 (HighLevelILConst 0);
   field_assign 0x110 var_18 3 (HighLevelILConst 0x4000);
   field_assign 0x118 var_18 4 (HighLevelILConst 0x5000);
   field_assign 0x120 var_18 5 (HighLevelILAddressOf (HighLevelILVar first));
   field_assign 0x128 var_18 6 (HighLevelILAddressOf (HighLevelILVar second));
   declare 0x200 var_a;
   field_assign 0x208 var_a 2 (HighLevelILConst 0x30000000);
   field_assign 0x20c var_a 3 (HighLevelILConst 0x20);
   declare 0x300 var_b;
   field_assign 0x308 var_b 2 (HighLevelILVar var_x)].

(** The view: a descriptor at 0x5000 with size 0x30, no signature string
    and the compact layout 0x020 (two byref pointers). *)
Definition byref_view (first second : Var) : BinaryView :=
  {| bv_start := 0x5000;
     bv_data := le_bytes 8 0 ++ le_bytes 8 0x30 ++ le_bytes 8 0
                ++ le_bytes 8 0x20;
     bv_symbols := [];
     bv_parses := fun _ => true;
     bv_hlil := fun h => match h_var_types h with
                         | [] => untyped_function
                         | _ :: _ => typed_function first second
                         end |}.

Definition byref_run (first second : Var)
  : (exn + option (BlockLiteral * BlockDescriptor)) * Host :=
  annotate_stack_block_literal no_translator (byref_view first second)
    {| ref_insn := marker_init; ref_function := untyped_function |}
    empty_host.

(** The image of the end-to-end scenario: a literal with only IS_GLOBAL in
    its flags, and its descriptor of size 0x28 at 0x3000. *)
Definition scenario_image (flags : Z) (tail : list byte) : BinaryView :=
  {| bv_start := 0x2fe0;
     bv_data := le_bytes 8 0x1000 ++ le_bytes 4 flags ++ le_bytes 4 0
                ++ le_bytes 8 0x2000 ++ le_bytes 8 0x3000
                ++ le_bytes 8 0 ++ le_bytes 8 0x28 ++ tail;
     bv_symbols := [{| sym_name := "__NSConcreteGlobalBlock";
                       sym_type := ExternalSymbol; sym_address := 0x1000 |}];
     bv_parses := fun _ => true;
     bv_hlil := fun _ => [] |}.

Definition scenario_host : Host :=
  {| h_types := []; h_source_types := []; h_var_names := [];
     h_var_types := []; h_data_vars := [global_data_var]; h_funcs := [];
     h_comments := []; h_log := [] |}.

(* ===================================================================== *)
(** ** More of blocks.py, and the predicates of its properties *)

(** Modelled from the spec: [shinobi.make_data_var] without a name, as
    [_define_ns_concrete_block_imports] calls it; the data variable at the
    address gets the type and keeps the name it had. *)
Definition make_data_var_unnamed (address : Z) (t : ty) : M unit :=
  h <- get_host;;
  let name := match get_data_var_at h address with
              | Some dv => dv_name dv
              | None => EmptyString
              end in
  make_data_var address t name.

(** The loop of [_define_ns_concrete_block_imports] over the symbol names:
    a name without an external symbol ends the function. *)
Fixpoint define_imports (bv : BinaryView) (class_type : ty)
  (names : list string) : M unit :=
  match names with
  | [] => ret tt
  | sym_name :: rest =>
      match get_symbol_of_type bv sym_name ExternalSymbol with
      | None => ret tt
      | Some ext_sym =>
          make_data_var_unnamed (sym_address ext_sym) class_type;;
          define_imports bv class_type rest
      end
  end.

(** [_define_ns_concrete_block_imports] *)
Definition _define_ns_concrete_block_imports (bv : BinaryView) : M unit :=
  class_type <- _get_objc_type "Class";;
  define_imports bv class_type
    ["__NSConcreteGlobalBlock"; "__NSConcreteStackBlock"]%string.

(** [m] returns from every host state: no exception leaves it. *)
Definition never_raises {A} (m : M A) : Prop :=
  forall h, exists a h', m h = (inr a, h').

(** What a generator yields before it ends. *)
Fixpoint yielded {A} (g : generator A) : list A :=
  match g with
  | GenStop => []
  | GenYield a rest => a :: yielded rest
  | GenRaise _ => []
  end.

(** [base] is the variable [var_id], or an element or a field of it. *)
Definition rooted_at (var_id : Z) (base : HLILExpr) : bool :=
  match base with
  | HighLevelILVar v
  | HighLevelILArrayIndex (HighLevelILVar v) _
  | HighLevelILStructField (HighLevelILVar v) _ => identifier v =? var_id
  | _ => false
  end.

(** [sub] is [l] with some elements left out. *)
Inductive subsequence {A} : list A -> list A -> Prop :=
| sub_nil : subsequence [] []
| sub_skip x sub l : subsequence sub l -> subsequence sub (x :: l)
| sub_take x sub l : subsequence sub l -> subsequence (x :: sub) (x :: l).

(** The compact layout value for given counts:
    [(strong << 8) | (byref << 4) | weak]. *)
Definition compact_layout (strong byref weak : Z) : Z :=
  Z.lor (Z.lor (Z.shiftl strong 8) (Z.shiftl byref 4)) weak.

(** The 32 bytes of a block literal in memory. *)
Definition literal_bytes (isa flags reserved invoke descriptor : Z)
  : list byte :=
  le_bytes 8 isa ++ le_bytes 4 flags ++ le_bytes 4 reserved
  ++ le_bytes 8 invoke ++ le_bytes 8 descriptor.

(** How a generator ends: [None] when it is exhausted, the exception when
    it raises. *)
Fixpoint gen_end {A} (g : generator A) : option exn :=
  match g with
  | GenStop => None
  | GenYield _ rest => gen_end rest
  | GenRaise e => Some e
  end.

(** An instruction that assigns to a field of the variable [var_id], or of
    an element or a field of it. *)
Definition assigns_field_of (var_id : Z) (insn : HLILInstruction) : bool :=
  match destination_base insn with
  | Some base => rooted_at var_id base
  | None => false
  end.

(** A symbol with a given name and type. *)
Definition symbol_matches (name : string) (type_ : SymbolType) (s : Symbol)
  : bool :=
  String.eqb (sym_name s) name && SymbolType_eqb (sym_type s) type_.

(** The number a run of bytes stands for, little-endian. *)
Fixpoint le_value (bs : list byte) : Z :=
  match bs with
  | [] => 0
  | b :: rest => byte_val b + 256 * le_value rest
  end.

(** The five header members of the structure of a literal, as
    [annotate_literal] appends them. *)
Definition literal_fixed_header : StructureBuilder :=
  sb_append
    (sb_append
       (sb_append
          (sb_append (sb_append (sb_create true) TClass "isa")
             TVolatileUInt32 "flags")
          TUInt32 "reserved")
       (TLibclosure "BlockInvokeFunction") "invoke")
    (TPointer (TLibclosure "Block_descriptor_1")) "descriptor".

(** The members [ms] lie one after the other from [off] on, without a gap. *)
Fixpoint laid_out_from (off : Z) (ms : list StructureMember) : Prop :=
  match ms with
  | [] => True
  | m :: rest =>
      m_offset m = off /\ laid_out_from (off + ty_width (m_type m)) rest
  end.

(** The names of the fields a descriptor with these flags has. *)
Definition descriptor_field_names (bd : BlockDescriptor) : list string :=
  ["reserved"; "size"]%string
  ++ (if block_has_copy_dispose bd then ["copy"; "dispose"]%string else [])
  ++ (if block_has_signature bd then ["signature"; "layout"]%string else []).

(** A descriptor of the given size at 0x3000, with a signature field of 0
    and a layout field that points at the bytecode after it: two strong
    pointers, one byref pointer, and the terminator. *)
Definition bytecode_image (size : Z) : BinaryView :=
  image 0x3000
    (le_bytes 8 0 ++ le_bytes 8 size ++ le_bytes 8 0 ++ le_bytes 8 0x3020
     ++ [byte_of_Z 0x32; byte_of_Z 0x41; byte_of_Z 0]).

Definition bytecode_literal : BlockLiteral :=
  {| is_stack_block := false; bl_object := inr global_data_var;
     bl_address := 0x2fe0; bl_isa := Some 0x1000; bl_flags := Some 0xd0000000;
     bl_reserved := Some 0; bl_invoke := Some 0x2000;
     bl_descriptor := Some 0x3000;
     bl_byref_indexes := Unset; bl_struct_builder := Unset;
     bl_struct_name := Unset; bl_struct_type_name := Unset;
     bl_struct_type := Unset |}.

(** The name the host gives a function nobody named: [sub_<start>]. *)
Definition default_name (f : Function) : string :=
  ("sub_" ++ hex (f_start f))%string.

(** From [h] to [h'] the functions are the same ones, and one has another
    name only if it had the default name, which the new name extends. *)
Definition names_kept (h h' : Host) : Prop :=
  Forall2
    (fun f f' =>
       f_start f' = f_start f /\
       (f_name f' = f_name f \/
        f_name f = default_name f /\
        String.prefix (default_name f) (f_name f') = true))
    (h_funcs h) (h_funcs h').

(** However [m] ends from [h], normally or with an exception, it keeps the
    names, provided no two functions of [h] start at the same address. *)
Definition keeps_from {A} (h : Host) (m : M A) : Prop :=
  forall r h',
    NoDup (map f_start (h_funcs h)) -> m h = (r, h') -> names_kept h h'.

(** A host with a function the user named and one with the default name. *)
Definition named_functions : Host :=
  {| h_types := []; h_source_types := []; h_var_names := [];
     h_var_types := []; h_data_vars := [];
     h_funcs := [{| f_start := 0x2000; f_name := "completion_handler";
                    f_return_type := TVoid; f_parameter_vars := [];
                    f_variadic := false |};
                 {| f_start := 0x2100; f_name := "sub_2100";
                    f_return_type := TVoid; f_parameter_vars := [];
                    f_variadic := false |}];
     h_comments := []; h_log := [] |}.

(** The global literal once [annotate_literal] gave it its structure, and a
    descriptor with copy and dispose helpers and no signature string. *)
Definition structured_literal : BlockLiteral :=
  set_bl_struct global_literal literal_fixed_header "Block_literal_2fe0"
    "struct Block_literal_2fe0" (TStruct "Block_literal_2fe0").

Definition copying_descriptor : BlockDescriptor :=
  {| bd_address := 0x3000; bd_block_flags := 0x52000000;
     bd_reserved := Some 0; bd_size := 0x20;
     bd_copy := Some 0x2100; bd_dispose := Some 0x2200;
     bd_signature := Bound (Some 0); bd_signature_raw := Bound None;
     bd_layout := Bound (Some 0);
     bd_layout_end := Unset; bd_struct_builder := Unset;
     bd_struct_name := Unset; bd_struct_type_name := Unset;
     bd_struct_type := Unset |}.

(** The slots a run of layout bytecode stands for: those of its bytes with
    opcode 1 to 6, up to the first byte with another opcode; [None] when
    the bytes end before such a byte. *)
Fixpoint bytecode_slots (bytes : list byte) : option (list LayoutSlot) :=
  match bytes with
  | [] => None
  | b :: rest =>
      if (1 <=? opcode_of b) && (opcode_of b <=? 6)
      then option_map (app (slots_of_byte b)) (bytecode_slots rest)
      else Some []
  end.

(** The slots a layout value stands for under the extended-layout flag:
    none for 0, the three counts of the compact form below 0x1000, and
    the bytecode at the address otherwise. *)
Definition layout_slots (bv : BinaryView) (layout : Z)
  : option (list LayoutSlot) :=
  if layout =? 0 then Some []
  else if layout <? 0x1000 then
    Some (repeat StrongPointer (Z.to_nat (Z.land (Z.shiftr layout 8) 0xf))
          ++ repeat ByrefPointer (Z.to_nat (Z.land (Z.shiftr layout 4) 0xf))
          ++ repeat WeakPointer (Z.to_nat (Z.land layout 0xf)))
  else bytecode_slots (bytes_from bv layout).

(** An instruction the scan for the layout assignment goes past: one that
    is not an assignment to a field of the variable, or assigns another
    member. *)
Definition before_layout_assignment (var_id layout_index : Z)
  (insn : HLILInstruction) : bool :=
  match scan_insn insn var_id with
  | StepContinue => true
  | StepYield =>
      match assign_parts insn with
      | Some (member_index, _) => negb (member_index =? layout_index)
      | None => false
      end
  | StepRaise _ => false
  end.

(** A byref cell with an extended layout: the declaration of the variable,
    the assignments to its header, and the address of its layout bytecode
    (two strong pointers, one byref pointer, the terminator) assigned to the
    layout member, which keep and destroy put at index 6. *)
Definition extended_cell_stream : list HLILInstruction :=
  [{| insn_address := 0x200; insn_op := HighLevelILVarDeclare var_p |};
   field_assign 0x204 var_p 2 (HighLevelILConst 0x12000000);
   field_assign 0x208 var_p 3 (HighLevelILConst 0x40);
   field_assign 0x20c var_p 6 (HighLevelILConstPtr 0x3020)].

Definition extended_cell_view : BinaryView :=
  {| bv_start := 0x3020;
     bv_data := [byte_of_Z 0x32; byte_of_Z 0x41; byte_of_Z 0];
     bv_symbols := [];
     bv_parses := fun _ => true;
     bv_hlil := fun _ => extended_cell_stream |}.




(* ===================================================================== *)
(** * Properties *)

(** ** BlockLiteral.__init__ *)

(** C9. A literal is constructed exactly when [invoke] and [descriptor] are
    not 0 and the IS_GLOBAL bit of [flags] is set for a global block and
    clear for a stack block; otherwise the constructor raises.  The literal
    holds the values it was given. *)
Theorem C9_literal_invariants :
  forall is_stack o isa flags reserved invoke descriptor,
    match BlockLiteral_init is_stack o isa flags reserved invoke descriptor with
    | inr bl =>
        bl_invoke bl = invoke /\ bl_descriptor bl = descriptor /\
        bl_flags bl = flags /\ is_stack_block bl = is_stack /\
        bl_invoke bl <> Some 0 /\ bl_descriptor bl <> Some 0 /\
        exists f, bl_flags bl = Some f /\
          (is_stack_block bl = false <-> Z.land f BLOCK_IS_GLOBAL <> 0) /\
          (is_stack_block bl = true <-> Z.land f BLOCK_IS_GLOBAL = 0)
    | inl e =>
        invoke = Some 0 \/ descriptor = Some 0 \/ flags = None \/
        exists f, flags = Some f /\
          ~ (is_stack = false <-> Z.land f BLOCK_IS_GLOBAL <> 0)
    end.
Proof.
  intros is_stack o isa flags reserved invoke descriptor.
  unfold BlockLiteral_init.
  assert (Hi : invoke = Some 0 \/ invoke <> Some 0)
    by (destruct invoke as [[| |]|]; (left; reflexivity) || (right; discriminate)).
  destruct Hi as [->|Hi]; [left; reflexivity|].
  assert (Hd : descriptor = Some 0 \/ descriptor <> Some 0)
    by (destruct descriptor as [[| |]|]; (left; reflexivity) || (right; discriminate)).
  destruct Hd as [->|Hd].
  { destruct invoke as [[| |]|]; right; left; reflexivity. }
  assert (Hgo :
    match
      match flags with
      | None => inl TypeError
      | Some f =>
          if is_stack then
            if Z.land f BLOCK_IS_GLOBAL =? 0 then inr (A:=exn) (is_stack, f)
            else inl AssertionError
          else
            if negb (Z.land f BLOCK_IS_GLOBAL =? 0) then inr (is_stack, f)
            else inl AssertionError
      end
    with
    | inr (st, f) =>
        flags = Some f /\ st = is_stack /\
        (is_stack = false <-> Z.land f BLOCK_IS_GLOBAL <> 0) /\
        (is_stack = true <-> Z.land f BLOCK_IS_GLOBAL = 0)
    | inl _ =>
        flags = None \/
        exists f, flags = Some f /\
          ~ (is_stack = false <-> Z.land f BLOCK_IS_GLOBAL <> 0)
    end).
  { destruct flags as [f|]; [|left; reflexivity].
    destruct is_stack;
      destruct (Z.eqb_spec (Z.land f BLOCK_IS_GLOBAL) 0) as [E|E]; simpl.
    - repeat split; intros; try discriminate; try assumption; congruence.
    - right. exists f. split; [reflexivity|]. intros [_ H2].
      discriminate (H2 E).
    - right. exists f. split; [reflexivity|]. intros [H1 _].
      apply (H1 eq_refl E).
    - repeat split; intros; try discriminate; try assumption; congruence. }
  destruct invoke as [[| |]|]; try congruence;
    destruct descriptor as [[| |]|]; try congruence;
    (destruct flags as [f|]; [|right; right; left; reflexivity]);
    destruct is_stack;
    destruct (Z.land f BLOCK_IS_GLOBAL =? 0); simpl in *;
    try (destruct Hgo as (_ & _ & H1 & H2);
         repeat split; try assumption; exists f; repeat split;
         try apply H1; try apply H2);
    try (destruct Hgo as [Hgo|Hgo]; [discriminate|];
         right; right; right; exact Hgo).
Qed.

(** ** BlockDescriptor.__init__ *)

Lemma br_read64_none bv br :
  fst (br_read64 bv br) = None -> snd (br_read64 bv br) = br.
Proof.
  unfold br_read64, br_read.
  destruct (read_le bv (br_offset br) 8); [discriminate | reflexivity].
Qed.

(** C6. The constructor reads [reserved] and [size] whatever the flags are.
    With [size] below 32 it raises with the reader right after these two
    fields: no conditional field has been read.  Otherwise [copy] and
    [dispose] are read when HAS_COPY_DISPOSE is set in the flags of the
    literal and are [None] with the reader left where it was when it is
    clear; [signature] and [layout] are read when HAS_SIGNATURE is set and
    have no value, with the reader left where it was, when it is clear.
    With HAS_SIGNATURE set the constructor returns, with the reader after
    the layout field, when the signature field is 0 or points at a string;
    it raises after the signature field when that points nowhere, and
    before any further read when the field itself cannot be read. *)
Theorem C6_descriptor_fields :
  forall bv a flags size,
    fst (br_read64 bv (snd (br_read64 bv (br_seek a)))) = Some size ->
    (size < 32 ->
       BlockDescriptor_init bv (Some a) (Some flags)
       = (inl AssertionError, after_header bv a)) /\
    (32 <= size -> flag_set flags BLOCK_HAS_SIGNATURE = false ->
       exists bd, BlockDescriptor_init bv (Some a) (Some flags)
                  = (inr bd, after_copy_dispose bv a flags)) /\
    (32 <= size -> flag_set flags BLOCK_HAS_SIGNATURE = true ->
       match fst (br_read64 bv (after_copy_dispose bv a flags)) with
       | None =>
           BlockDescriptor_init bv (Some a) (Some flags)
           = (inl TypeError, after_copy_dispose bv a flags)
       | Some s =>
           (s = 0 ->
            exists bd,
              BlockDescriptor_init bv (Some a) (Some flags)
              = (inr bd, after_layout bv a flags) /\
              bd_signature bd = Bound (Some 0) /\
              bd_signature_raw bd = Bound None) /\
           (forall raw,
              s <> 0 -> get_ascii_string_at bv s = Some raw ->
              exists bd,
                BlockDescriptor_init bv (Some a) (Some flags)
                = (inr bd, after_layout bv a flags) /\
                bd_signature bd = Bound (Some s) /\
                bd_signature_raw bd = Bound (Some raw)) /\
           (s <> 0 -> get_ascii_string_at bv s = None ->
            BlockDescriptor_init bv (Some a) (Some flags)
            = (inl (AttributeError "raw"), after_signature bv a flags))
       end) /\
    (forall bd br,
       BlockDescriptor_init bv (Some a) (Some flags) = (inr bd, br) ->
       bd_reserved bd = fst (br_read64 bv (br_seek a)) /\
       bd_size bd = size /\ 32 <= size /\
       (if flag_set flags BLOCK_HAS_COPY_DISPOSE then
          bd_copy bd = fst (br_read64 bv (after_header bv a)) /\
          bd_dispose bd
          = fst (br_read64 bv (snd (br_read64 bv (after_header bv a))))
        else bd_copy bd = None /\ bd_dispose bd = None) /\
       (if flag_set flags BLOCK_HAS_SIGNATURE then
          bd_signature bd
          = Bound (fst (br_read64 bv (after_copy_dispose bv a flags))) /\
          bd_layout bd
          = Bound (fst (br_read64 bv
                          (snd (br_read64 bv (after_copy_dispose bv a flags))))) /\
          br = snd (br_read64 bv
                      (snd (br_read64 bv (after_copy_dispose bv a flags))))
        else
          bd_signature bd = Unset /\ bd_signature_raw bd = Unset /\
          bd_layout bd = Unset /\ br = after_copy_dispose bv a flags)).
Proof.
  intros bv a flags size Hsize.
  assert (Fields :
    (size < 32 ->
       BlockDescriptor_init bv (Some a) (Some flags)
       = (inl AssertionError, after_header bv a)) /\
    (32 <= size -> flag_set flags BLOCK_HAS_SIGNATURE = false ->
       exists bd, BlockDescriptor_init bv (Some a) (Some flags)
                  = (inr bd, after_copy_dispose bv a flags)) /\
    (forall bd br,
       BlockDescriptor_init bv (Some a) (Some flags) = (inr bd, br) ->
       bd_reserved bd = fst (br_read64 bv (br_seek a)) /\
       bd_size bd = size /\ 32 <= size /\
       (if flag_set flags BLOCK_HAS_COPY_DISPOSE then
          bd_copy bd = fst (br_read64 bv (after_header bv a)) /\
          bd_dispose bd
          = fst (br_read64 bv (snd (br_read64 bv (after_header bv a))))
        else bd_copy bd = None /\ bd_dispose bd = None) /\
       (if flag_set flags BLOCK_HAS_SIGNATURE then
          bd_signature bd
          = Bound (fst (br_read64 bv (after_copy_dispose bv a flags))) /\
          bd_layout bd
          = Bound (fst (br_read64 bv
                          (snd (br_read64 bv (after_copy_dispose bv a flags))))) /\
          br = snd (br_read64 bv
                      (snd (br_read64 bv (after_copy_dispose bv a flags))))
        else
          bd_signature bd = Unset /\ bd_signature_raw bd = Unset /\
          bd_layout bd = Unset /\ br = after_copy_dispose bv a flags))).
  { clear - Hsize.
    unfold BlockDescriptor_init, after_copy_dispose, after_header in *.
    destruct (br_read64 bv (br_seek a)) as [reserved br1] eqn:E1.
    simpl in Hsize |- *.
    destruct (br_read64 bv br1) as [size_ br2] eqn:E2.
    simpl in Hsize |- *. subst size_.
    destruct (Z.leb_spec 0x20 size) as [Hle|Hlt]; simpl.
    - split; [intro; lia|].
      destruct (flag_set flags BLOCK_HAS_COPY_DISPOSE) eqn:Ecd.
      + destruct (br_read64 bv br2) as [copy br3] eqn:E3.
        destruct (br_read64 bv br3) as [dispose br4] eqn:E4. simpl.
        destruct (flag_set flags BLOCK_HAS_SIGNATURE) eqn:Esig.
        * split; [discriminate|].
          destruct (br_read64 bv br4) as [signature br5] eqn:E5.
          destruct signature as [[|s|s]|];
            try destruct (get_ascii_string_at bv _);
            try destruct (br_read64 bv br5) as [layout br6] eqn:E6;
            intros bd br H; try discriminate H; injection H as <- <-; simpl;
            repeat (match goal with
                    | E : br_read64 _ _ = _ |- _ => rewrite E; simpl
                    end);
            repeat split; assumption || reflexivity.
        * split; [intros; eexists;
                  repeat (match goal with
                          | E : br_read64 _ _ = _ |- _ => rewrite E; simpl
                          end); reflexivity|].
          intros bd br H; injection H as <- <-; simpl.
          repeat (match goal with
                  | E : br_read64 _ _ = _ |- _ => rewrite E; simpl
                  end);
            repeat split; assumption || reflexivity.
      + simpl.
        destruct (flag_set flags BLOCK_HAS_SIGNATURE) eqn:Esig.
        * split; [discriminate|].
          destruct (br_read64 bv br2) as [signature br5] eqn:E5.
          destruct signature as [[|s|s]|];
            try destruct (get_ascii_string_at bv _);
            try destruct (br_read64 bv br5) as [layout br6] eqn:E6;
            intros bd br H; try discriminate H; injection H as <- <-; simpl;
            repeat (match goal with
                    | E : br_read64 _ _ = _ |- _ => rewrite E; simpl
                    end);
            repeat split; assumption || reflexivity.
        * split; [intros; eexists;
                  repeat (match goal with
                          | E : br_read64 _ _ = _ |- _ => rewrite E; simpl
                          end); reflexivity|].
          intros bd br H; injection H as <- <-; simpl.
          repeat (match goal with
                  | E : br_read64 _ _ = _ |- _ => rewrite E; simpl
                  end);
            repeat split; assumption || reflexivity.
    - split; [reflexivity|].
      split; [intro; lia|].
      intros bd br H; discriminate H.
  }
  destruct Fields as (Small & Unsigned & Read).
  split; [exact Small|]. split; [exact Unsigned|]. split; [|exact Read].
  clear Small Unsigned Read. intros Hle Hsig.
  unfold BlockDescriptor_init, after_layout, after_signature,
    after_copy_dispose, after_header in *.
  destruct (br_read64 bv (br_seek a)) as [reserved br1] eqn:E1.
  simpl in Hsize |- *.
  destruct (br_read64 bv br1) as [size_ br2] eqn:E2.
  simpl in Hsize |- *. subst size_.
  destruct (Z.leb_spec 0x20 size) as [_|Hlt]; [|lia]. simpl.
  rewrite Hsig.
  destruct (flag_set flags BLOCK_HAS_COPY_DISPOSE).
  - destruct (br_read64 bv br2) as [copy br3]. simpl.
    destruct (br_read64 bv br3) as [dispose br4]. simpl.
    pose proof (br_read64_none bv br4) as Hnone.
    destruct (br_read64 bv br4) as [[s|] br5]; simpl in Hnone |- *;
      [clear Hnone | rewrite (Hnone eq_refl); reflexivity].
    split; [|split].
    + intros ->. destruct (br_read64 bv br5) as [layout br6].
      eexists. repeat split.
    + intros raw Hs Hraw. destruct s as [|q|q];
        [contradiction Hs; reflexivity | |];
        rewrite Hraw; destruct (br_read64 bv br5) as [layout br6];
        eexists; repeat split.
    + intros Hs Hraw. destruct s as [|q|q];
        [contradiction Hs; reflexivity | |]; rewrite Hraw; reflexivity.
  - simpl. pose proof (br_read64_none bv br2) as Hnone.
    destruct (br_read64 bv br2) as [[s|] br5]; simpl in Hnone |- *;
      [clear Hnone | rewrite (Hnone eq_refl); reflexivity].
    split; [|split].
    + intros ->. destruct (br_read64 bv br5) as [layout br6].
      eexists. repeat split.
    + intros raw Hs Hraw. destruct s as [|q|q];
        [contradiction Hs; reflexivity | |];
        rewrite Hraw; destruct (br_read64 bv br5) as [layout br6];
        eexists; repeat split.
    + intros Hs Hraw. destruct s as [|q|q];
        [contradiction Hs; reflexivity | |]; rewrite Hraw; reflexivity.
Qed.

(** A descriptor with copy and dispose helpers and a signature string:
    all six fields are read, and the string the signature field points
    at. *)
Lemma C6_descriptor_fields_witness :
  fst (br_read64 full_descriptor_image
         (snd (br_read64 full_descriptor_image (br_seek 0x3000))))
  = Some 0x28 /\
  exists bd,
    BlockDescriptor_init full_descriptor_image (Some 0x3000)
      (Some 0x42000000)
    = (inr bd, {| br_offset := 0x3030 |}) /\
    bd_copy bd = Some 0x2100 /\ bd_dispose bd = Some 0x2200 /\
    bd_signature bd = Bound (Some 0x3030) /\
    bd_signature_raw bd
    = Bound (Some (map byte_of_Z [0x76; 0x38; 0x40; 0x3f; 0x30])) /\
    bd_layout bd = Bound (Some 0x100).
Proof.
  assert (H : fst (br_read64 full_descriptor_image
                     (snd (br_read64 full_descriptor_image
                             (br_seek 0x3000)))) = Some 0x28)
    by reflexivity.
  split; [exact H|].
  destruct (C6_descriptor_fields full_descriptor_image 0x3000 0x42000000
              0x28 H) as (_ & _ & Signed & Read).
  specialize (Signed ltac:(lia) eq_refl).
  change (fst (br_read64 full_descriptor_image
                 (after_copy_dispose full_descriptor_image 0x3000
                    0x42000000)))
    with (Some 0x3030) in Signed.
  destruct Signed as (_ & Raw & _).
  destruct (Raw (map byte_of_Z [0x76; 0x38; 0x40; 0x3f; 0x30])
              ltac:(discriminate) eq_refl) as (bd & E & Hs & Hr).
  exists bd. split; [exact E|].
  destruct (Read bd _ E) as (_ & _ & _ & (Hc & Hd) & (_ & Hl & _)).
  repeat split; assumption.
Defined.

(* ===================================================================== *)
(** ** Computations that only register source types *)

Lemma registers_refl h : registers h h.
Proof. repeat split. Qed.

Lemma registers_trans h1 h2 h3 :
  registers h1 h2 -> registers h2 h3 -> registers h1 h3.
Proof.
  unfold registers. intros (A1 & A2 & A3 & A4 & A5 & A6 & A7)
    (B1 & B2 & B3 & B4 & B5 & B6 & B7).
  repeat split; congruence.
Qed.

Lemma returns_ret {A} (a : A) : returns (ret a) a.
Proof. intro h. exists h. split; [reflexivity | apply registers_refl]. Qed.

Lemma returns_bind {A B} (m : M A) (k : A -> M B) a b :
  returns m a -> returns (k a) b -> returns (bind m k) b.
Proof.
  intros Hm Hk h. destruct (Hm h) as (h1 & E1 & R1).
  destruct (Hk h1) as (h2 & E2 & R2).
  exists h2. unfold bind. rewrite E1. split; [exact E2|].
  eapply registers_trans; eassumption.
Qed.

Lemma string_in_app s l1 l2 :
  string_in s l2 = true -> string_in s (l1 ++ l2) = true.
Proof.
  unfold string_in. intro H. rewrite existsb_app, H. apply orb_true_r.
Qed.

Lemma returns_get_custom_type name source :
  string_in name source = true ->
  returns (_get_custom_type name source) (source_type name).
Proof.
  intros Hin h. unfold _get_custom_type, bind, get_host, get_type_by_name.
  destruct (string_in name (h_source_types h)) eqn:E.
  - exists h. split; [reflexivity | apply registers_refl].
  - unfold modify. simpl. rewrite (string_in_app _ _ _ Hin).
    eexists. split; [reflexivity|]. repeat split.
Qed.

Lemma returns_get_objc_type_id : returns (_get_objc_type "id") TId.
Proof. apply (returns_get_custom_type "id"). reflexivity. Qed.

Lemma returns_get_objc_type_Class : returns (_get_objc_type "Class") TClass.
Proof. apply (returns_get_custom_type "Class"). reflexivity. Qed.

Lemma returns_get_libclosure_type name :
  string_in name _LIBCLOSURE_TYPE_SOURCE = true ->
  returns (_get_libclosure_type name) (source_type name).
Proof.
  intro H. unfold _get_libclosure_type.
  eapply returns_bind; [apply returns_get_objc_type_Class|].
  apply returns_get_custom_type, H.
Qed.

(** ** Slots appended to a structure *)

Lemma byref_positions_app a b start :
  byref_positions start (a ++ b)
  = byref_positions start a ++ byref_positions (start + List.length a) b.
Proof.
  revert start. induction a as [|x a IH]; intro start; simpl.
  - rewrite Nat.add_0_r. reflexivity.
  - rewrite <- Nat.add_succ_comm.
    destruct x; simpl; rewrite IH; reflexivity.
Qed.

Lemma extends_refl s : extends s s [].
Proof.
  exists []. simpl. rewrite app_nil_r. repeat split.
  destruct (snd s); simpl; [rewrite app_nil_r|]; reflexivity.
Qed.

Lemma extends_trans s1 s2 s3 a b :
  extends s1 s2 a -> extends s2 s3 b -> extends s1 s3 (a ++ b).
Proof.
  intros (n1 & M1 & S1 & P1 & B1) (n2 & M2 & S2 & P2 & B2).
  exists (n1 ++ n2). repeat split.
  - rewrite M2, M1, app_assoc. reflexivity.
  - rewrite !map_app, S1, S2. reflexivity.
  - congruence.
  - rewrite B2, B1, M1, byref_positions_app, length_app.
    assert (L : List.length n1 = List.length a).
    { rewrite <- (length_map member_slot n1), S1, length_map. reflexivity. }
    rewrite L. destruct (snd s1); simpl; [rewrite app_assoc|]; reflexivity.
Qed.

Lemma emits_bind (m : M layout_state) (k : layout_state -> M layout_state)
  s a b :
  emits m s a -> (forall s', emits (k s') s' b) ->
  emits (bind m k) s (a ++ b).
Proof.
  intros Hm Hk h. destruct (Hm h) as (s1 & h1 & E1 & R1 & X1).
  destruct (Hk s1 h1) as (s2 & h2 & E2 & R2 & X2).
  exists s2, h2. unfold bind. rewrite E1. split; [exact E2|]. split.
  - eapply registers_trans; eassumption.
  - eapply extends_trans; eassumption.
Qed.

Lemma emits_for_range body slot n :
  (forall s, emits (body s) s [slot]) ->
  forall s, emits (for_range n body s) s (repeat slot n).
Proof.
  intro Hb. induction n as [|n IH]; intro s; simpl.
  - intro h. exists s, h. split; [reflexivity|].
    split; [apply registers_refl | apply extends_refl].
  - change (slot :: repeat slot n) with ([slot] ++ repeat slot n).
    apply emits_bind; [apply Hb | exact IH].
Qed.

Lemma prefix_append p s : String.prefix p (p ++ s) = true.
Proof.
  induction p as [|a p IH]; simpl.
  - destruct s; reflexivity.
  - destruct (ascii_dec a a) as [_|N]; [exact IH | contradiction N; reflexivity].
Qed.

Lemma extends_append (st : StructureBuilder) bi t name slot :
  (forall off,
     member_slot {| m_type := t; m_name := name; m_offset := off |}
     = Some slot) ->
  slot <> ByrefPointer ->
  extends (st, bi) (sb_append st t name, bi) [slot].
Proof.
  intros Hs Hn. eexists. cbn [fst snd sb_append sb_members sb_packed].
  split; [reflexivity|]. split; [|split; [reflexivity|]].
  - cbn [map]. rewrite Hs. reflexivity.
  - destruct bi; simpl; [|reflexivity].
    destruct slot; try contradiction; rewrite app_nil_r; reflexivity.
Qed.

Lemma emits_append_id prefix slot s :
  (forall w off,
     member_slot {| m_type := TId; m_name := (prefix ++ hex w)%string;
                    m_offset := off |} = Some slot) ->
  slot <> ByrefPointer ->
  emits (append_id prefix s) s [slot].
Proof.
  intros Hs Hn h. destruct s as [st bi]. unfold append_id.
  destruct (returns_get_objc_type_id h) as (h' & E & R).
  do 2 eexists. unfold bind. rewrite E. split; [reflexivity|].
  split; [exact R|]. apply extends_append; [intro; apply Hs | exact Hn].
Qed.

Lemma emits_append_byref s : emits (append_byref s) s [ByrefPointer].
Proof.
  intro h. destruct s as [st bi]. unfold append_byref, append_id.
  destruct (returns_get_objc_type_id h) as (h' & E & R).
  do 2 eexists. unfold bind. rewrite E. split; [reflexivity|].
  split; [exact R|]. eexists.
  cbn [fst snd sb_append sb_members sb_packed].
  split; [reflexivity|]. split; [|split; [reflexivity|]].
  - cbn [map]. unfold member_slot. cbn [m_type m_name].
    change (String.prefix "strong_ptr_" ("byref_ptr_" ++ hex (sb_width st)))
      with false.
    rewrite prefix_append. reflexivity.
  - destruct bi; reflexivity.
Qed.

Lemma emits_append_non_object_bytes n s :
  emits (append_non_object_bytes n s) s [NonObjectBytes n].
Proof.
  intro h. destruct s as [st bi]. do 2 eexists.
  split; [reflexivity|]. split; [apply registers_refl|].
  apply extends_append; [|discriminate].
  intro off. unfold member_slot. cbn [m_type m_name].
  rewrite prefix_append. reflexivity.
Qed.

Lemma emits_append_non_object_word s :
  emits (append_non_object_word s) s [NonObjectWord].
Proof.
  intro h. destruct s as [st bi]. do 2 eexists.
  split; [reflexivity|]. split; [apply registers_refl|].
  apply extends_append; [|discriminate].
  intro off. unfold member_slot. cbn [m_type m_name].
  rewrite prefix_append. reflexivity.
Qed.

Lemma emits_strong s : emits (append_id "strong_ptr_" s) s [StrongPointer].
Proof.
  apply emits_append_id; [|discriminate].
  intros w off. unfold member_slot. cbn [m_type m_name].
  rewrite prefix_append. reflexivity.
Qed.

Lemma emits_weak s : emits (append_id "weak_ptr_" s) s [WeakPointer].
Proof.
  apply emits_append_id; [|discriminate].
  intros w off. unfold member_slot. cbn [m_type m_name].
  change (String.prefix "strong_ptr_" ("weak_ptr_" ++ hex w)) with false.
  change (String.prefix "byref_ptr_" ("weak_ptr_" ++ hex w)) with false.
  rewrite prefix_append. reflexivity.
Qed.

Lemma emits_unretained s :
  emits (append_id "unretained_ptr_" s) s [UnretainedPointer].
Proof.
  apply emits_append_id; [|discriminate].
  intros w off. unfold member_slot. cbn [m_type m_name].
  change (String.prefix "strong_ptr_" ("unretained_ptr_" ++ hex w)) with false.
  change (String.prefix "byref_ptr_" ("unretained_ptr_" ++ hex w)) with false.
  change (String.prefix "weak_ptr_" ("unretained_ptr_" ++ hex w)) with false.
  rewrite prefix_append. reflexivity.
Qed.

(** ** append_layout_fields: the compact encoding *)

(** C4. For a compact layout value [v], not 0 and below 0x1000, of a block
    with the extended-layout flag, the call appends one member per slot:
    [(v >> 8) & 0xf] strong pointers, then [(v >> 4) & 0xf] byref pointers,
    then [v & 0xf] weak pointers, and nothing else.  The member index of
    every byref pointer is appended to [byref_indexes] when the caller gives
    one, and [layout_end_obj] is returned as it was: no end offset is set. *)
Theorem C4_compact_layout :
  forall bv struct v byref_indexes layout_end_obj h,
    v <> 0 -> v < 0x1000 ->
    let n_strong := Z.land (Z.shiftr v 8) 0xf in
    let n_byref := Z.land (Z.shiftr v 4) 0xf in
    let n_weak := Z.land v 0xf in
    let slots := repeat StrongPointer (Z.to_nat n_strong)
                 ++ repeat ByrefPointer (Z.to_nat n_byref)
                 ++ repeat WeakPointer (Z.to_nat n_weak) in
    exists struct' byref_indexes' h' news,
      append_layout_fields bv struct (Some v) true byref_indexes
        layout_end_obj h
      = (inr (struct', byref_indexes', layout_end_obj), h') /\
      registers h h' /\
      sb_members struct' = sb_members struct ++ news /\
      map member_slot news = map Some slots /\
      Z.of_nat (List.length news) = n_strong + n_byref + n_weak /\
      byref_indexes'
      = option_map
          (fun l => l ++ map Z.of_nat
                           (seq (List.length (sb_members struct)
                                 + Z.to_nat n_strong)
                                (Z.to_nat n_byref)))
          byref_indexes.
Proof.
  intros bv struct v bi leo h Hnz Hlt n_strong n_byref n_weak slots.
  assert (Hemit :
    emits (s <- for_range (Z.to_nat n_strong) (append_id "strong_ptr_")
                  (struct, bi);;
           s <- for_range (Z.to_nat n_byref) append_byref s;;
           for_range (Z.to_nat n_weak) (append_id "weak_ptr_") s)
          (struct, bi) slots).
  { apply emits_bind; [apply emits_for_range, emits_strong|].
    intro s1. apply emits_bind; [apply emits_for_range, emits_append_byref|].
    intro s2. apply emits_for_range, emits_weak. }
  destruct (Hemit h) as ([struct' bi'] & h' & E & R & news & Hm & Hs & _ & Hb).
  exists struct', bi', h', news.
  assert (Hrun :
    append_layout_fields bv struct (Some v) true bi leo h
    = (inr (struct', bi', leo), h')).
  { unfold append_layout_fields.
    assert (Hv : (v <? 0x1000) = true) by (apply Z.ltb_lt; exact Hlt).
    destruct v as [|p|p]; [contradiction Hnz; reflexivity| |];
      cbn [negb need_int]; unfold bind at 1; cbn [ret];
      rewrite Hv; fold n_strong n_byref n_weak;
      unfold bind in E |- *;
      destruct (for_range (Z.to_nat n_strong) (append_id "strong_ptr_")
                  (struct, bi) h) as [[e1|s1] h1]; try discriminate E;
      destruct (for_range (Z.to_nat n_byref) append_byref s1 h1)
        as [[e2|s2] h2]; try discriminate E;
      rewrite E; reflexivity. }
  split; [exact Hrun|]. split; [exact R|]. split; [exact Hm|].
  split; [exact Hs|]. split.
  - assert (L : List.length news = List.length slots).
    { rewrite <- (length_map member_slot news), Hs, length_map. reflexivity. }
    rewrite L. unfold slots. rewrite !length_app, !repeat_length.
    assert (0 <= n_strong) by (apply Z.land_nonneg; right; lia).
    assert (0 <= n_byref) by (apply Z.land_nonneg; right; lia).
    assert (0 <= n_weak) by (apply Z.land_nonneg; right; lia).
    lia.
  - cbn [fst snd] in Hb. rewrite Hb. destruct bi as [l|]; [|reflexivity].
    cbn [option_map]. f_equal. f_equal. unfold slots.
    rewrite !byref_positions_app, !repeat_length.
    assert (P1 : forall n start,
               byref_positions start (repeat StrongPointer n) = []).
    { induction n; intro; simpl; auto. }
    assert (P2 : forall n start,
               byref_positions start (repeat WeakPointer n) = []).
    { induction n; intro; simpl; auto. }
    assert (P3 : forall n start,
               byref_positions start (repeat ByrefPointer n)
               = map Z.of_nat (seq start n)).
    { induction n; intro; simpl; [reflexivity|]. rewrite IHn. reflexivity. }
    rewrite P1, P2, P3, app_nil_r. reflexivity.
Qed.

(** A compact value with one strong, two byref and three weak pointers. *)
Lemma C4_compact_layout_witness :
  0x123 <> 0 /\ 0x123 < 0x1000 /\
  exists struct' byref_indexes' h' news,
    append_layout_fields (image 0 []) (sb_create true) (Some 0x123) true
      (Some []) None empty_host
    = (inr (struct', byref_indexes', None), h') /\
    sb_members struct' = news /\
    map member_slot news
    = map Some [StrongPointer; ByrefPointer; ByrefPointer;
                WeakPointer; WeakPointer; WeakPointer] /\
    byref_indexes' = Some [1; 2].
Proof.
  assert (H1 : 0x123 <> 0) by discriminate.
  assert (H2 : 0x123 < 0x1000) by reflexivity.
  split; [exact H1|]. split; [exact H2|].
  destruct (C4_compact_layout (image 0 []) (sb_create true) 0x123 (Some [])
              None empty_host H1 H2)
    as (struct' & bi' & h' & news & E & _ & Hm & Hs & _ & Hb).
  exists struct', bi', h', news.
  split; [exact E|]. split; [exact Hm|]. split; [exact Hs | exact Hb].
Defined.

(** ** append_layout_fields: the bytecode encoding *)

Lemma layout_bytecode_loop_step b rest offset s :
  layout_bytecode_loop (b :: rest) offset s
  = if opcode_of b =? BLOCK_LAYOUT_ESCAPE then ret (s, offset + 1)
    else if opcode_of b =? BLOCK_LAYOUT_NON_OBJECT_BYTES then
      s <- append_non_object_bytes (oparg_of b) s;;
      layout_bytecode_loop rest (offset + 1) s
    else if opcode_of b =? BLOCK_LAYOUT_NON_OBJECT_WORDS then
      s <- for_range (Z.to_nat (oparg_of b)) append_non_object_word s;;
      layout_bytecode_loop rest (offset + 1) s
    else if opcode_of b =? BLOCK_LAYOUT_STRONG then
      s <- for_range (Z.to_nat (oparg_of b)) (append_id "strong_ptr_") s;;
      layout_bytecode_loop rest (offset + 1) s
    else if opcode_of b =? BLOCK_LAYOUT_BYREF then
      s <- for_range (Z.to_nat (oparg_of b)) append_byref s;;
      layout_bytecode_loop rest (offset + 1) s
    else if opcode_of b =? BLOCK_LAYOUT_WEAK then
      s <- for_range (Z.to_nat (oparg_of b)) (append_id "weak_ptr_") s;;
      layout_bytecode_loop rest (offset + 1) s
    else if opcode_of b =? BLOCK_LAYOUT_UNRETAINED then
      s <- for_range (Z.to_nat (oparg_of b)) (append_id "unretained_ptr_") s;;
      layout_bytecode_loop rest (offset + 1) s
    else
      print (LogUnknownLayoutOp (byte_val b));;
      ret (s, offset + 1).
Proof. reflexivity. Qed.

(** What one byte with an opcode from 1 to 6 appends. *)
Lemma emits_opcode b s :
  1 <= opcode_of b <= 6 ->
  exists m : M layout_state,
    emits m s (slots_of_byte b) /\
    forall rest offset,
      layout_bytecode_loop (b :: rest) offset s
      = (s' <- m;; layout_bytecode_loop rest (offset + 1) s').
Proof.
  intro Hop.
  assert (C : opcode_of b = 1 \/ opcode_of b = 2 \/ opcode_of b = 3 \/
              opcode_of b = 4 \/ opcode_of b = 5 \/ opcode_of b = 6) by lia.
  unfold slots_of_byte.
  destruct C as [C|[C|[C|[C|[C|C]]]]]; eexists; rewrite C;
    (split; [|intros rest offset; rewrite layout_bytecode_loop_step, C;
              reflexivity]).
  - apply emits_append_non_object_bytes.
  - apply emits_for_range, emits_append_non_object_word.
  - apply emits_for_range, emits_strong.
  - apply emits_for_range, emits_append_byref.
  - apply emits_for_range, emits_weak.
  - apply emits_for_range, emits_unretained.
Qed.

Lemma layout_bytecode_loop_spec pre t rest :
  Forall (fun b => 1 <= opcode_of b <= 6) pre ->
  opcode_of t = 0 \/ 7 <= opcode_of t ->
  forall offset s h,
  exists s' h1,
    layout_bytecode_loop (pre ++ t :: rest) offset s h
    = (inr (s', offset + Z.of_nat (List.length pre) + 1),
       after_terminator t h1) /\
    registers h h1 /\
    extends s s' (flat_map slots_of_byte pre).
Proof.
  intros Hpre Ht. induction Hpre as [|b pre Hb Hpre IH]; intros offset s h.
  - exists s, h. cbn [app List.length flat_map]. split.
    + rewrite layout_bytecode_loop_step. unfold after_terminator.
      replace (offset + Z.of_nat 0 + 1) with (offset + 1) by lia.
      destruct Ht as [Ht|Ht]; [rewrite Ht; reflexivity|].
      destruct (Z.eqb_spec (opcode_of t) BLOCK_LAYOUT_ESCAPE) as [E|_];
        [unfold BLOCK_LAYOUT_ESCAPE in E; lia|].
      repeat match goal with
             | |- context [opcode_of t =? ?c] =>
                 destruct (Z.eqb_spec (opcode_of t) c) as [E|_];
                 [unfold BLOCK_LAYOUT_NON_OBJECT_BYTES,
                    BLOCK_LAYOUT_NON_OBJECT_WORDS, BLOCK_LAYOUT_STRONG,
                    BLOCK_LAYOUT_BYREF, BLOCK_LAYOUT_WEAK,
                    BLOCK_LAYOUT_UNRETAINED in E; lia|]
             end.
      reflexivity.
    + split; [apply registers_refl | apply extends_refl].
  - destruct (emits_opcode b s Hb) as (m & Hm & Hstep).
    destruct (Hm h) as (s1 & h1 & E1 & R1 & X1).
    destruct (IH (offset + 1) s1 h1) as (s2 & h2 & E2 & R2 & X2).
    exists s2, h2. split; [|split].
    + cbn [app]. rewrite Hstep. unfold bind. rewrite E1, E2.
      cbn [List.length]. do 3 f_equal. lia.
    + eapply registers_trans; eassumption.
    + cbn [flat_map]. eapply extends_trans; eassumption.
Qed.

(** C5. For a bytecode stream at address [layout]: the bytes with opcodes
    1 to 6 each append the slots of their opcode and operand, in order (one
    run of [n] bytes, [n] words, [n] strong, byref, weak or unretained
    pointers, with the member index of each byref pointer recorded); the
    first byte with opcode 0 (ESCAPE) or with an opcode from 7 to 15 ends
    the decoding without a slot, the call returns the slots appended so far,
    and the end offset set on [layout_end_obj] is the address after that
    byte.  For an opcode from 7 to 15 a warning is logged and nothing is
    raised. *)
Theorem C5_bytecode_layout :
  forall bv struct layout byref_indexes bd h pre t rest,
    0x1000 <= layout ->
    bytes_from bv layout = pre ++ t :: rest ->
    Forall (fun b => 1 <= opcode_of b <= 6) pre ->
    opcode_of t = 0 \/ 7 <= opcode_of t ->
    exists struct' byref_indexes' h1 news,
      append_layout_fields bv struct (Some layout) true byref_indexes
        (Some bd) h
      = (inr (struct', byref_indexes',
              Some (set_layout_end bd
                      (layout + Z.of_nat (List.length pre) + 1))),
         if opcode_of t =? 0 then h1
         else update_log (fun l => l ++ [LogUnknownLayoutOp (byte_val t)]) h1)
      /\ registers h h1 /\
      sb_members struct' = sb_members struct ++ news /\
      map member_slot news = map Some (flat_map slots_of_byte pre) /\
      byref_indexes'
      = option_map
          (fun l => l ++ byref_positions (List.length (sb_members struct))
                           (flat_map slots_of_byte pre))
          byref_indexes.
Proof.
  intros bv struct layout bi bd h pre t rest Hlay Hbytes Hpre Ht.
  destruct (layout_bytecode_loop_spec pre t rest Hpre Ht layout (struct, bi) h)
    as ([struct' bi'] & h1 & E & R & news & Hm & Hs & _ & Hb).
  exists struct', bi', h1, news.
  split; [|split; [exact R|split; [exact Hm|split; [exact Hs|exact Hb]]]].
  unfold append_layout_fields.
  assert (Hv : (layout <? 0x1000) = false) by (apply Z.ltb_ge; exact Hlay).
  destruct layout as [|p|p]; [lia| |lia].
  cbn [negb need_int]. unfold bind at 1. cbn [ret]. rewrite Hv, Hbytes.
  unfold bind. rewrite E. reflexivity.
Qed.

(** A stream with two strong pointers, a byref pointer and a run of three
    bytes, ended by ESCAPE. *)
Lemma C5_bytecode_layout_witness :
  let bv := image 0x4000 [x32; x41; x13; x00] in
  exists struct' h1 news,
    append_layout_fields bv (sb_create true) (Some 0x4000) true (Some [])
      (Some {| bd_address := 0x3000; bd_block_flags := 0xc0000000;
               bd_reserved := Some 0; bd_size := 0x3b;
               bd_copy := None; bd_dispose := None;
               bd_signature := Bound (Some 0);
               bd_signature_raw := Bound None;
               bd_layout := Bound (Some 0x4000);
               bd_layout_end := Unset; bd_struct_builder := Unset;
               bd_struct_name := Unset; bd_struct_type_name := Unset;
               bd_struct_type := Unset |}) empty_host
    = (inr (struct', Some [2],
            Some {| bd_address := 0x3000; bd_block_flags := 0xc0000000;
                    bd_reserved := Some 0; bd_size := 0x3b;
                    bd_copy := None; bd_dispose := None;
                    bd_signature := Bound (Some 0);
                    bd_signature_raw := Bound None;
                    bd_layout := Bound (Some 0x4000);
                    bd_layout_end := Bound 0x4004;
                    bd_struct_builder := Unset;
                    bd_struct_name := Unset; bd_struct_type_name := Unset;
                    bd_struct_type := Unset |}), h1) /\
    sb_members struct' = news /\
    map member_slot news
    = map Some [StrongPointer; StrongPointer; ByrefPointer; NonObjectBytes 3].
Proof.
  intro bv.
  assert (H1 : 0x1000 <= 0x4000) by discriminate.
  assert (H2 : bytes_from bv 0x4000 = [x32; x41; x13] ++ x00 :: [])
    by reflexivity.
  assert (H3 : Forall (fun b => 1 <= opcode_of b <= 6) [x32; x41; x13]).
  { repeat (constructor; [split; discriminate|]). constructor. }
  assert (H4 : opcode_of x00 = 0 \/ 7 <= opcode_of x00)
    by (left; reflexivity).
  destruct (C5_bytecode_layout bv (sb_create true) 0x4000 (Some [])
              {| bd_address := 0x3000; bd_block_flags := 0xc0000000;
                 bd_reserved := Some 0; bd_size := 0x3b;
                 bd_copy := None; bd_dispose := None;
                 bd_signature := Bound (Some 0);
                 bd_signature_raw := Bound None;
                 bd_layout := Bound (Some 0x4000);
                 bd_layout_end := Unset; bd_struct_builder := Unset;
                 bd_struct_name := Unset; bd_struct_type_name := Unset;
                 bd_struct_type := Unset |}
              empty_host [x32; x41; x13] x00 [] H1 H2 H3 H4)
    as (struct' & bi' & h1 & news & E & _ & Hm & Hs & Hb).
  exists struct', h1, news.
  split; [|split; [exact Hm | exact Hs]].
  rewrite E, Hb. reflexivity.
Defined.

(* ===================================================================== *)
(** ** What a computation leaves alone *)

Lemma quiet_refl h : quiet h h.
Proof. repeat split. Qed.

Lemma quiet_trans h1 h2 h3 : quiet h1 h2 -> quiet h2 h3 -> quiet h1 h3.
Proof.
  unfold quiet. intros (A1 & A2 & A3 & A4 & A5 & A6)
    (B1 & B2 & B3 & B4 & B5 & B6).
  repeat split; congruence.
Qed.

Lemma frame_ret {A} (a : A) : frame (ret a).
Proof. intros h r h' H. injection H as _ <-. apply quiet_refl. Qed.

Lemma frame_raise {A} e : frame (@raise A e).
Proof. intros h r h' H. injection H as _ <-. apply quiet_refl. Qed.

Lemma frame_lift {A} (x : exn + A) : frame (lift x).
Proof. intros h r h' H. injection H as _ <-. apply quiet_refl. Qed.

Lemma frame_get_host : frame get_host.
Proof. intros h r h' H. injection H as _ <-. apply quiet_refl. Qed.

Lemma frame_print e : frame (print e).
Proof. intros h r h' H. injection H as _ <-. repeat split. Qed.

Lemma frame_bind {A B} (m : M A) (k : A -> M B) :
  frame m -> (forall a, frame (k a)) -> frame (bind m k).
Proof.
  intros Hm Hk h r h' H. unfold bind in H.
  destruct (m h) as [[e|a] h1] eqn:E.
  - injection H as _ <-. eapply Hm, E.
  - eapply quiet_trans; [eapply Hm, E | eapply Hk, H].
Qed.

Lemma frame_returns {A} (m : M A) a : returns m a -> frame m.
Proof.
  intros Hr h r h' H. destruct (Hr h) as (h1 & E & R).
  rewrite E in H. injection H as _ <-.
  destruct R as (R1 & R2 & R3 & R4 & R5 & R6 & _). repeat split; assumption.
Qed.

Lemma frame_getattr {A} name (x : attr A) : frame (getattr name x).
Proof. destruct x; [apply frame_raise | apply frame_ret]. Qed.

Lemma frame_need_int x : frame (need_int x).
Proof. destruct x; [apply frame_ret | apply frame_raise]. Qed.

Lemma frame_for_range {S} n (body : S -> M S) :
  (forall s, frame (body s)) -> forall s, frame (for_range n body s).
Proof.
  intro Hb. induction n as [|n IH]; intro s; simpl.
  - apply frame_ret.
  - apply frame_bind; [apply Hb | exact IH].
Qed.

Lemma frame_append_id p s : frame (append_id p s).
Proof.
  destruct s as [st bi]. unfold append_id.
  apply frame_bind; [|intro; apply frame_ret].
  eapply frame_returns, returns_get_objc_type_id.
Qed.

Lemma frame_append_byref s : frame (append_byref s).
Proof. destruct s as [st bi]. apply frame_append_id. Qed.

Lemma frame_layout_bytecode_loop bytes :
  forall offset s, frame (layout_bytecode_loop bytes offset s).
Proof.
  induction bytes as [|b rest IH]; intros offset s.
  - apply frame_raise.
  - rewrite layout_bytecode_loop_step.
    repeat match goal with
           | |- frame (if ?c then _ else _) => destruct c
           end;
      try apply frame_ret;
      try (apply frame_bind; [|intro; apply IH]).
    + destruct s; apply frame_ret.
    + apply frame_for_range. intros [? ?]. apply frame_ret.
    + apply frame_for_range, frame_append_id.
    + apply frame_for_range, frame_append_byref.
    + apply frame_for_range, frame_append_id.
    + apply frame_for_range, frame_append_id.
    + apply frame_bind; [apply frame_print | intro; apply frame_ret].
Qed.

Lemma frame_append_layout_fields bv st layout ext bi leo :
  frame (append_layout_fields bv st layout ext bi leo).
Proof.
  unfold append_layout_fields.
  assert (G : frame
    (if negb ext then ret (st, bi, leo)
     else
       layout <- need_int layout;;
       if layout <? 0x1000 then
         s <- for_range (Z.to_nat (Z.land (Z.shiftr layout 8) 0xf))
                (append_id "strong_ptr_") (st, bi);;
         s <- for_range (Z.to_nat (Z.land (Z.shiftr layout 4) 0xf))
                append_byref s;;
         s <- for_range (Z.to_nat (Z.land layout 0xf))
                (append_id "weak_ptr_") s;;
         ret (fst s, snd s, leo)
       else
         '(s, offset) <- layout_bytecode_loop (bytes_from bv layout) layout
                           (st, bi);;
         ret (fst s, snd s,
              match leo with
              | Some bd => Some (set_layout_end bd offset)
              | None => None
              end))).
  { destruct (negb ext); [apply frame_ret|].
    apply frame_bind; [apply frame_need_int|]. intro v.
    destruct (v <? 0x1000).
    - apply frame_bind; [apply frame_for_range, frame_append_id|]. intro.
      apply frame_bind; [apply frame_for_range, frame_append_byref|]. intro.
      apply frame_bind; [apply frame_for_range, frame_append_id|]. intro.
      apply frame_ret.
    - apply frame_bind; [apply frame_layout_bytecode_loop|].
      intros [? ?]. apply frame_ret. }
  destruct layout as [[| |]|]; try exact G. apply frame_ret.
Qed.

Lemma frame_literal_struct bv self bd : frame (literal_struct bv self bd).
Proof.
  unfold literal_struct.
  apply frame_bind;
    [eapply frame_returns, returns_get_objc_type_Class | intro].
  apply frame_bind;
    [eapply frame_returns, returns_get_libclosure_type; reflexivity | intro].
  apply frame_bind;
    [eapply frame_returns, returns_get_libclosure_type; reflexivity | intro].
  destruct (0 <? imported_variables_size bd); [|apply frame_ret].
  apply frame_bind; [apply frame_getattr | intro].
  apply frame_bind; [apply frame_append_layout_fields | intros [[? ?] ?]].
  apply frame_ret.
Qed.

Lemma bind_inr {A B} (m : M A) (k : A -> M B) h b h' :
  bind m k h = (inr b, h') ->
  exists a h1, m h = (inr a, h1) /\ k a h1 = (inr b, h').
Proof.
  unfold bind. destruct (m h) as [[e|a] h1]; [discriminate|].
  intro H. exists a, h1. split; [reflexivity | exact H].
Qed.

Lemma bind_eq {A B} (m : M A) (k : A -> M B) h a h1 :
  m h = (inr a, h1) -> bind m k h = k a h1.
Proof. intro E. unfold bind. rewrite E. reflexivity. Qed.



(** ** annotate_literal: the size diagnostic *)


Example global_literal_decoded :
  from_data global_image global_data_var = inr global_literal /\
  fst (BlockDescriptor_init global_image (Some 0x3000) (Some 0x50000000))
  = inr (signed_descriptor 0x50000000).
Proof. split; reflexivity. Qed.


(* ===================================================================== *)
(** ** BlockLiteral.from_stack *)

Section HeaderAssignmentsFacts.

Variable var : Var.
Variables a0 a1 a2 a3 a4 : Z.
Variable marker_text : string.
Variables marker_constant marker_address : Z.
Variables flags_src reserved_src invoke_src descriptor_src : HLILExpr.
Variables flags invoke descriptor : Z.

Hypothesis flags_constant : is_const flags_src = Some flags.
Hypothesis invoke_constant : is_const invoke_src = Some invoke.
Hypothesis descriptor_constant : is_const descriptor_src = Some descriptor.

Local Abbreviation the_header :=
  (header_assignments var a0 a1 a2 a3 a4 marker_text marker_constant
     marker_address flags_src reserved_src invoke_src descriptor_src).
Local Abbreviation the_locals :=
  (header_locals marker_text marker_address reserved_src flags invoke
     descriptor).
Local Abbreviation is_consistent :=
  (consistent marker_text marker_address reserved_src flags invoke
     descriptor).
Local Abbreviation is_covered :=
  (covered var a0 a1 a2 a3 a4 marker_text marker_constant marker_address
     flags_src reserved_src invoke_src descriptor_src flags invoke
     descriptor).

Lemma scan_field_assign a k src :
  scan_insn (field_assign a var k src) (identifier var) = StepYield.
Proof. unfold scan_insn. cbn. rewrite Z.eqb_refl. reflexivity. Qed.

Lemma consistent_all_bound l :
  is_consistent l -> all_bound l = true -> l = the_locals.
Proof.
  destruct l as [i f r v d]. unfold consistent, all_bound, header_locals.
  cbn. destruct (String.eqb marker_text "__NSConcreteStackBlock");
    intros ([Hi|Hi] & [Hf|Hf] & [Hr|Hr] & [Hv|Hv] & [Hd|Hd]) Hb; subst;
    try discriminate Hb; reflexivity.
Qed.

Lemma body_isa a l :
  from_stack_body
    (field_assign a var 0
       (HighLevelILImport marker_text marker_constant marker_address)) l
  = inr {| l_isa := if String.eqb marker_text "__NSConcreteStackBlock"
                    then Bound marker_address else l_isa l;
           l_flags := l_flags l; l_reserved := l_reserved l;
           l_invoke := l_invoke l; l_descriptor := l_descriptor l |}.
Proof.
  unfold from_stack_body. cbn.
  destruct (String.eqb marker_text "__NSConcreteStackBlock");
    [reflexivity | destruct l; reflexivity].
Qed.

Lemma body_flags a l :
  from_stack_body (field_assign a var 1 flags_src) l
  = inr {| l_isa := l_isa l; l_flags := Bound flags;
           l_reserved := l_reserved l; l_invoke := l_invoke l;
           l_descriptor := l_descriptor l |}.
Proof.
  unfold from_stack_body. cbn.
  destruct flags_src; cbn in flags_constant; try discriminate flags_constant;
    injection flags_constant as ->; reflexivity.
Qed.

Lemma body_reserved a l :
  from_stack_body (field_assign a var 2 reserved_src) l
  = inr {| l_isa := l_isa l; l_flags := l_flags l;
           l_reserved := Bound (is_const reserved_src);
           l_invoke := l_invoke l; l_descriptor := l_descriptor l |}.
Proof. reflexivity. Qed.

Lemma body_invoke a l :
  from_stack_body (field_assign a var 3 invoke_src) l
  = inr {| l_isa := l_isa l; l_flags := l_flags l;
           l_reserved := l_reserved l; l_invoke := Bound invoke;
           l_descriptor := l_descriptor l |}.
Proof. unfold from_stack_body. cbn. rewrite invoke_constant. reflexivity. Qed.

Lemma body_descriptor a l :
  from_stack_body (field_assign a var 4 descriptor_src) l
  = inr {| l_isa := l_isa l; l_flags := l_flags l;
           l_reserved := l_reserved l; l_invoke := l_invoke l;
           l_descriptor := Bound descriptor |}.
Proof.
  unfold from_stack_body. cbn. rewrite descriptor_constant. reflexivity.
Qed.

Lemma from_stack_loop_header stream :
  forall l,
    is_consistent l ->
    incl stream the_header ->
    is_covered l stream ->
    from_stack_loop
      (yield_struct_field_assign_hlil_instructions_for_var_id stream
         (identifier var)) l
    = inr the_locals.
Proof.
  induction stream as [|x rest IH]; intros l Hc Hin Hcov.
  - cbn. f_equal.
    destruct Hcov as ([A|[]] & [B|[]] & [C|[]] & [D|[]] & [E|[]]).
    destruct l. cbn in A, B, C, D, E. subst. reflexivity.
  - assert (Hx : In x the_header) by (apply Hin; left; reflexivity).
    assert (Hin' : incl rest the_header)
      by (intros y Hy; apply Hin; right; exact Hy).
    assert (Step : forall l',
      from_stack_body x l = inr l' -> is_consistent l' ->
      is_covered l' rest ->
      scan_insn x (identifier var) = StepYield ->
      from_stack_loop
        (yield_struct_field_assign_hlil_instructions_for_var_id (x :: rest)
           (identifier var)) l
      = inr the_locals).
    { intros l' Hb Hc' Hcov' Hs.
      cbn [yield_struct_field_assign_hlil_instructions_for_var_id].
      rewrite Hs. cbn [from_stack_loop].
      rewrite Hb. destruct (all_bound l') eqn:Ea.
      - f_equal. apply consistent_all_bound; assumption.
      - apply IH; assumption. }
    destruct Hc as (Ci & Cf & Cr & Cv & Cd).
    destruct Hcov as (Vi & Vf & Vr & Vv & Vd).
    assert (Keep : forall (P : Prop) y, P \/ In y (x :: rest) ->
                     y <> x -> P \/ In y rest).
    { intros P y [HP|[HP|HP]] Hne; [left; exact HP| |right; exact HP].
      contradiction Hne. symmetry. exact HP. }
    destruct Hx as [<-|[<-|[<-|[<-|[<-|[]]]]]];
      (eapply Step;
       [first [apply body_isa | apply body_flags | apply body_reserved
              | apply body_invoke | apply body_descriptor]
       | | | apply scan_field_assign]);
      unfold consistent, covered, header_locals in *;
      cbn [l_isa l_flags l_reserved l_invoke l_descriptor nth
             header_assignments] in *;
      try (destruct (String.eqb marker_text "__NSConcreteStackBlock"));
      repeat split; try assumption; try (right; reflexivity);
      try (left; reflexivity);
      try (destruct Ci as [Ci|Ci]; rewrite Ci; auto; fail);
      (eapply Keep; [eassumption|]);
      unfold field_assign; intro HH; discriminate HH.
Qed.

End HeaderAssignmentsFacts.

(** C2, as the code has it.  When the instructions of the function are the
    five assignments to the header fields of the variable, in any order
    (member 0 from an import, members 1, 3 and 4 from constants, be they
    [HighLevelILConst] or [HighLevelILConstPtr], member 2 from anything),
    with IS_GLOBAL clear in the flags and [invoke] and [descriptor] not 0,
    [from_stack] returns a stack literal with these values when the import
    is [__NSConcreteStackBlock]; [reserved] is the constant assigned to
    member 2, or [None] when it is not a constant.  An import by any other
    name does not give [isa] a value, and [from_stack] raises. *)
Theorem C2_header_in_any_order :
  forall bv h bl_insn bl_var var a0 a1 a2 a3 a4
         marker_text marker_constant marker_address
         flags_src reserved_src invoke_src descriptor_src
         flags invoke descriptor stream,
    Permutation
      (header_assignments var a0 a1 a2 a3 a4 marker_text marker_constant
         marker_address flags_src reserved_src invoke_src descriptor_src)
      stream ->
    (forall h, bv_hlil bv h = stream) ->
    In (insn_address (ref_insn bl_insn)) [a0; a1; a2; a3; a4] ->
    constant_expr flags_src flags ->
    constant_expr invoke_src invoke ->
    constant_expr descriptor_src descriptor ->
    Z.land flags BLOCK_IS_GLOBAL = 0 -> invoke <> 0 -> descriptor <> 0 ->
    (marker_text = "__NSConcreteStackBlock"%string ->
     exists bl h',
       from_stack bv bl_insn bl_var h = (inr bl, h') /\
       is_stack_block bl = true /\
       bl_isa bl = Some marker_address /\
       bl_flags bl = Some flags /\
       bl_reserved bl = is_const reserved_src /\
       bl_invoke bl = Some invoke /\
       bl_descriptor bl = Some descriptor) /\
    (marker_text <> "__NSConcreteStackBlock"%string ->
     fst (from_stack bv bl_insn bl_var h) = inl (UnboundLocalError "isa")).
Proof.
  intros bv h bl_insn bl_var var a0 a1 a2 a3 a4 mt mc ma
    fsrc rsrc isrc dsrc flags invoke descriptor stream
    Hperm Hhlil Haddr Kf Ki Kd Hflags Hinv Hdesc.
  assert (Cf : is_const fsrc = Some flags)
    by (destruct Kf as [->| ->]; reflexivity).
  assert (Ci : is_const isrc = Some invoke)
    by (destruct Ki as [->| ->]; reflexivity).
  assert (Cd : is_const dsrc = Some descriptor)
    by (destruct Kd as [->| ->]; reflexivity).
  set (header := header_assignments var a0 a1 a2 a3 a4 mt mc ma fsrc rsrc
                   isrc dsrc) in *.
  assert (Run : exists i h2,
    from_stack bv bl_insn bl_var h
    = (from_stack_construct {| ref_insn := i; ref_function := stream |}
         (header_locals mt ma rsrc flags invoke descriptor), h2));
    [|destruct Run as (i & h2 & Run); rewrite Run; clear Run;
      unfold from_stack_construct, header_locals;
      cbn [l_isa l_flags l_reserved l_invoke l_descriptor]; split;
      [intros ->; cbn [String.eqb Ascii.eqb Bool.eqb];
       unfold BlockLiteral_init;
       destruct invoke as [|p|p]; [contradiction Hinv; reflexivity| |];
       (destruct descriptor as [|q|q];
        [contradiction Hdesc; reflexivity| |]);
       rewrite Hflags; cbn [Z.eqb];
       do 2 eexists; (split; [reflexivity|]); repeat split
      |intro Hne; apply String.eqb_neq in Hne; rewrite Hne; reflexivity]].
  unfold from_stack.
  destruct (returns_get_libclosure_type "Block_literal" eq_refl h)
    as (h1 & E1 & _).
  unfold bind at 1. rewrite E1.
  unfold bind at 1. cbn [set_var_type modify].
  set (h2 := update_var_types _ h1).
  (* the reload finds one of the five assignments *)
  assert (Hfind : exists i,
    find (fun insn => insn_address insn =? insn_address (ref_insn bl_insn))
      stream = Some i /\ In i header).
  { destruct (find (fun insn => insn_address insn
                                =? insn_address (ref_insn bl_insn)) stream)
      as [i|] eqn:F.
    - exists i. split; [reflexivity|]. apply find_some in F.
      eapply Permutation_in; [apply Permutation_sym, Hperm | apply F].
    - exfalso.
      assert (Hex : exists i, In i header /\
                      insn_address i = insn_address (ref_insn bl_insn)).
      { pose (d := field_assign 0 var 0 rsrc).
        destruct Haddr as [H|[H|[H|[H|[H|[]]]]]];
          [exists (nth 0 header d) | exists (nth 1 header d)
          |exists (nth 2 header d) | exists (nth 3 header d)
          |exists (nth 4 header d)];
          (split; [cbn; tauto | exact H]). }
      destruct Hex as (i & Hi & Ha).
      assert (Hn := find_none _ _ F i (Permutation_in _ Hperm Hi)).
      cbn beta in Hn. rewrite Ha, Z.eqb_refl in Hn. discriminate Hn. }
  destruct Hfind as (i & F & Hi).
  unfold bind at 1. unfold reload_hlil_instruction at 1.
  unfold bind at 1. cbn [get_host]. rewrite Hhlil, F. cbn [ret].
  assert (Hid : stack_var_id_of {| ref_insn := i; ref_function := stream |}
                = inr (identifier var)).
  { destruct Hi as [<-|[<-|[<-|[<-|[<-|[]]]]]]; reflexivity. }
  unfold bind at 1. unfold lift at 1. rewrite Hid.
  unfold bind at 1. unfold lift at 1. cbn [ref_function].
  rewrite (from_stack_loop_header var a0 a1 a2 a3 a4 mt mc ma fsrc rsrc isrc
             dsrc flags invoke descriptor Cf Ci Cd stream).
  - do 2 eexists. reflexivity.
  - unfold consistent. cbn. tauto.
  - intros x Hx. eapply Permutation_in; [apply Permutation_sym, Hperm | exact Hx].
  - unfold covered. cbn.
    repeat split; right;
      (eapply Permutation_in; [exact Hperm|]); cbn; tauto.
Qed.

Lemma C2_header_in_any_order_witness :
  exists bl h',
    from_stack (stack_view pointer_stream)
      {| ref_insn := field_assign 0x100 var_18 0 marker;
         ref_function := pointer_stream |}
      var_18 empty_host = (inr bl, h') /\
    is_stack_block bl = true /\
    bl_isa bl = Some 0x100 /\
    bl_flags bl = Some 0x02000000 /\
    bl_reserved bl = Some 0 /\
    bl_invoke bl = Some 0x4000 /\
    bl_descriptor bl = Some 0x5000.
Proof.
  refine (proj1
    (C2_header_in_any_order (stack_view pointer_stream) empty_host
       {| ref_insn := field_assign 0x100 var_18 0 marker;
          ref_function := pointer_stream |}
       var_18 var_18 0x100 0x108 0x10c 0x110 0x118
       "__NSConcreteStackBlock" 0x9000 0x100
       (HighLevelILConst 0x02000000) (HighLevelILConst 0)
       (HighLevelILConstPtr 0x4000) (HighLevelILConstPtr 0x5000)
       0x02000000 0x4000 0x5000 pointer_stream _ _ _ _ _ _ _ _ _) eq_refl).
  - unfold header_assignments, pointer_stream.
    apply (Permutation_cons_app
             [field_assign 0x110 var_18 3 (HighLevelILConstPtr 0x4000);
              field_assign 0x108 var_18 1 (HighLevelILConst 0x02000000);
              field_assign 0x118 var_18 4 (HighLevelILConstPtr 0x5000);
              field_assign 0x10c var_18 2 (HighLevelILConst 0)] []).
    apply (Permutation_cons_app
             [field_assign 0x110 var_18 3 (HighLevelILConstPtr 0x4000)]
             [field_assign 0x118 var_18 4 (HighLevelILConstPtr 0x5000);
              field_assign 0x10c var_18 2 (HighLevelILConst 0)]).
    apply (Permutation_cons_app
             [field_assign 0x110 var_18 3 (HighLevelILConstPtr 0x4000);
              field_assign 0x118 var_18 4 (HighLevelILConstPtr 0x5000)] []).
    apply Permutation_refl.
  - intro h. reflexivity.
  - left. reflexivity.
  - left. reflexivity.
  - right. reflexivity.
  - right. reflexivity.
  - reflexivity.
  - discriminate.
  - discriminate.
Defined.

(** C2 as the specification states it fails: with the instructions of its
    scenario [from_stack] raises, whether the marker is a variable
    initialization ([isa] is never bound) or an assignment to member 0
    ([reserved] is never bound). *)
Lemma C2_counterexample :
  fst (from_stack (stack_view (scenario_stream marker_init))
         {| ref_insn := marker_init;
            ref_function := scenario_stream marker_init |}
         var_18 empty_host)
  = inl (UnboundLocalError "isa") /\
  fst (from_stack
         (stack_view (scenario_stream (field_assign 0x100 var_18 0 marker)))
         {| ref_insn := field_assign 0x100 var_18 0 marker;
            ref_function :=
              scenario_stream (field_assign 0x100 var_18 0 marker) |}
         var_18 empty_host)
  = inl (UnboundLocalError "reserved").
Proof. split; reflexivity. Qed.

(* ===================================================================== *)
(** ** The scan for assignments to the fields of a variable *)

Lemma yield_app_continue pre insn post var_id :
  scan_insn insn var_id = StepContinue ->
  yield_struct_field_assign_hlil_instructions_for_var_id
    (pre ++ insn :: post) var_id
  = yield_struct_field_assign_hlil_instructions_for_var_id
      (pre ++ post) var_id.
Proof.
  intro Hc. induction pre as [|x pre IH]; cbn.
  - rewrite Hc. reflexivity.
  - rewrite IH. reflexivity.
Qed.

Lemma from_stack_loop_raise pre insn post var_id e :
  scan_insn insn var_id = StepRaise e ->
  forall l l',
    from_stack_loop
      (yield_struct_field_assign_hlil_instructions_for_var_id pre var_id) l
    = inr l' ->
    all_bound l' = false ->
    from_stack_loop
      (yield_struct_field_assign_hlil_instructions_for_var_id
         (pre ++ insn :: post) var_id) l
    = inl e.
Proof.
  intro Hr. induction pre as [|x pre IH]; intros l l' Hl Hb; cbn in *.
  - rewrite Hr. reflexivity.
  - destruct (scan_insn x var_id).
    + eapply IH; eassumption.
    + cbn in *. destruct (from_stack_body x l) as [e'|l1]; [discriminate|].
      destruct (all_bound l1) eqn:Eb.
      * injection Hl as <-. rewrite Eb in Hb. discriminate.
      * eapply IH; eassumption.
    + discriminate.
Qed.

(** C3, as the code has it.  An instruction that does not assign to a
    field, or that assigns to a field of a base the scan does not follow (a
    field behind a pointer, an element or field of something that is not a
    variable, another variable), is passed over in silence and the scan goes
    on as if it were not there.  An assignment to a field of any other kind
    of base (a dereference, a call, a constant, ...) makes the scan raise
    NotImplementedError when it reaches it: the loop of [from_stack] fails
    unless it had found all five fields before. *)
Theorem C3_unrecognized_destination :
  forall pre insn post var_id,
    match destination_base insn with
    | Some base =>
        if unhandled_base base then
          scan_insn insn var_id = StepRaise NotImplementedError /\
          forall l l',
            from_stack_loop
              (yield_struct_field_assign_hlil_instructions_for_var_id pre
                 var_id) l = inr l' ->
            all_bound l' = false ->
            from_stack_loop
              (yield_struct_field_assign_hlil_instructions_for_var_id
                 (pre ++ insn :: post) var_id) l
            = inl NotImplementedError
        else
          scan_insn insn var_id <> StepYield ->
          scan_insn insn var_id = StepContinue /\
          yield_struct_field_assign_hlil_instructions_for_var_id
            (pre ++ insn :: post) var_id
          = yield_struct_field_assign_hlil_instructions_for_var_id
              (pre ++ post) var_id
    | None =>
        scan_insn insn var_id = StepContinue /\
        yield_struct_field_assign_hlil_instructions_for_var_id
          (pre ++ insn :: post) var_id
        = yield_struct_field_assign_hlil_instructions_for_var_id
            (pre ++ post) var_id
    end.
Proof.
  intros pre insn post var_id.
  assert (Hskip : scan_insn insn var_id = StepContinue ->
    scan_insn insn var_id = StepContinue /\
    yield_struct_field_assign_hlil_instructions_for_var_id
      (pre ++ insn :: post) var_id
    = yield_struct_field_assign_hlil_instructions_for_var_id
        (pre ++ post) var_id).
  { intro Hc. split; [exact Hc | apply yield_app_continue, Hc]. }
  assert (Hraise : scan_insn insn var_id = StepRaise NotImplementedError ->
    scan_insn insn var_id = StepRaise NotImplementedError /\
    forall l l',
      from_stack_loop
        (yield_struct_field_assign_hlil_instructions_for_var_id pre var_id) l
      = inr l' ->
      all_bound l' = false ->
      from_stack_loop
        (yield_struct_field_assign_hlil_instructions_for_var_id
           (pre ++ insn :: post) var_id) l
      = inl NotImplementedError).
  { intro Hr. split; [exact Hr|]. apply from_stack_loop_raise, Hr. }
  unfold destination_base, scan_insn in *.
  destruct (insn_op insn) as [v|d s|dest src|n]; try (apply Hskip; reflexivity).
  destruct dest as [v|base k|b i|b k|b|b|t c a|c|c|d|n];
    try (apply Hskip; reflexivity).
  destruct base as [v|b k'|b i|b k'|b|b|t c a|c|c|d|n]; cbn [unhandled_base];
    try (apply Hraise; reflexivity).
  - intro Hy. apply Hskip.
    destruct (negb (identifier v =? var_id)); [reflexivity|].
    contradiction Hy. reflexivity.
  - intro Hy. apply Hskip.
    destruct b as [w| | | | | | | | | |]; try reflexivity.
    destruct (negb (identifier w =? var_id)); [reflexivity|].
    contradiction Hy. reflexivity.
  - intro Hy. apply Hskip.
    destruct b as [w| | | | | | | | | |]; try reflexivity.
    destruct (negb (identifier w =? var_id)); [reflexivity|].
    contradiction Hy. reflexivity.
  - intros _. apply Hskip. reflexivity.
Qed.

Lemma C3_unrecognized_destination_witness :
  from_stack_loop
    (yield_struct_field_assign_hlil_instructions_for_var_id
       ([field_assign 0x110 var_18 3 (HighLevelILConst 0x4000)]
        ++ deref_assign :: complete_stream) 0x18)
    no_locals
  = inl NotImplementedError.
Proof.
  destruct (C3_unrecognized_destination
              [field_assign 0x110 var_18 3 (HighLevelILConst 0x4000)]
              deref_assign complete_stream 0x18) as [_ H].
  eapply H; reflexivity.
Defined.

(** C3 as the specification states it fails: the function is the complete
    header of a stack block with one assignment through a dereferenced
    pointer before it.  Without that assignment [from_stack] succeeds; with
    it the scan raises, the instance is given up with the exception logged,
    and no structure is defined. *)
Lemma C3_counterexample :
  (exists bl,
     fst (from_stack (stack_view complete_stream)
            {| ref_insn := field_assign 0x100 var_18 0 marker;
               ref_function := complete_stream |}
            var_18 empty_host) = inr bl) /\
  let run :=
    annotate_stack_block_literal no_translator
      (stack_view (deref_assign :: complete_stream))
      {| ref_insn := field_assign 0x100 var_18 0 marker;
         ref_function := deref_assign :: complete_stream |}
      empty_host in
  fst run = inr None /\
  h_log (snd run) = [LogAnnotating true 0x100;
                     LogException true 0x100 NotImplementedError] /\
  h_types (snd run) = [] /\ h_comments (snd run) = [].
Proof.
  split.
  - eexists. reflexivity.
  - vm_compute. repeat split.
Qed.

(* ===================================================================== *)
(** ** The payload of a byref cell *)

Lemma with_keep_destroy_sigs flags st :
  map member_sig (sb_members (with_keep_destroy flags st))
  = map member_sig (sb_members st) ++ keep_destroy_sigs flags.
Proof.
  unfold with_keep_destroy, keep_destroy_sigs.
  destruct (negb (Z.land flags BLOCK_BYREF_HAS_COPY_DISPOSE =? 0)).
  - cbn [sb_append sb_members]. rewrite <- app_assoc, map_app. reflexivity.
  - rewrite app_nil_r. reflexivity.
Qed.

Lemma returns_keep_destroy flags st :
  returns
    (if negb (Z.land flags BLOCK_BYREF_HAS_COPY_DISPOSE =? 0) then
       t <- _get_libclosure_type "BlockByrefKeepFunction";;
       let byref_struct := sb_append st t "byref_keep" in
       t <- _get_libclosure_type "BlockByrefDestroyFunction";;
       ret (sb_append byref_struct t "byref_destroy")
     else ret st)
    (with_keep_destroy flags st).
Proof.
  unfold with_keep_destroy.
  destruct (negb (Z.land flags BLOCK_BYREF_HAS_COPY_DISPOSE =? 0)).
  - eapply returns_bind;
      [apply returns_get_libclosure_type; reflexivity|].
    eapply returns_bind;
      [apply returns_get_libclosure_type; reflexivity|].
    apply returns_ret.
  - apply returns_ret.
Qed.

Lemma sigs_append st t name :
  map member_sig (sb_members (sb_append st t name))
  = map member_sig (sb_members st) ++ [(t, name)].
Proof. cbn [sb_append sb_members]. rewrite map_app. reflexivity. Qed.

Lemma sigs_replace_last st t name t' :
  map member_sig
    (sb_members
       (sb_replace (sb_append st t name) (List.length (sb_members st)) t' name))
  = map member_sig (sb_members st) ++ [(t', name)].
Proof.
  cbn [sb_replace sb_append sb_members].
  induction (sb_members st) as [|m ms IH]; cbn; [reflexivity|].
  f_equal. exact IH.
Qed.

Lemma index_of_name_fresh ms name t off i :
  (forall m, In m ms -> m_name m <> name) ->
  index_of_name (ms ++ [{| m_type := t; m_name := name; m_offset := off |}])
    name i
  = Some (i + List.length ms)%nat.
Proof.
  revert i. induction ms as [|m ms IH]; intros i Hf; cbn.
  - rewrite String.eqb_refl. f_equal. lia.
  - destruct (String.eqb_spec (m_name m) name) as [E|_].
    + exfalso. apply (Hf m); [left; reflexivity | exact E].
    + rewrite IH; [f_equal; lia|]. intros m' Hm'. apply Hf. right. exact Hm'.
Qed.

Lemma no_layout_member flags :
  forall m, In m (sb_members (with_keep_destroy flags byref_fixed_header)) ->
            m_name m <> "layout"%string.
Proof.
  unfold with_keep_destroy.
  destruct (negb (Z.land flags BLOCK_BYREF_HAS_COPY_DISPOSE =? 0)); cbn;
    intros m H;
    repeat (destruct H as [<-|H]; [discriminate|]); contradiction H.
Qed.

Lemma opcode_of_range b : 0 <= opcode_of b <= 15.
Proof.
  unfold opcode_of. destruct b; vm_compute; split; discriminate.
Qed.

Lemma bytecode_slots_split bytes :
  forall slots,
    bytecode_slots bytes = Some slots ->
    exists pre t rest,
      bytes = pre ++ t :: rest /\
      Forall (fun b => 1 <= opcode_of b <= 6) pre /\
      (opcode_of t = 0 \/ 7 <= opcode_of t) /\
      slots = flat_map slots_of_byte pre.
Proof.
  induction bytes as [|b bytes IH]; intros slots H; [discriminate H|].
  cbn [bytecode_slots] in H.
  destruct ((1 <=? opcode_of b) && (opcode_of b <=? 6))%bool eqn:R.
  - apply andb_true_iff in R. destruct R as [R1 R2].
    apply Z.leb_le in R1, R2.
    destruct (bytecode_slots bytes) as [tail|]; [|discriminate H].
    injection H as <-.
    destruct (IH tail eq_refl) as (pre & t & rest & -> & Hpre & Ht & ->).
    exists (b :: pre), t, rest. split; [reflexivity|].
    split; [constructor; [lia | exact Hpre]|]. split; [exact Ht|].
    reflexivity.
  - injection H as <-. exists [], b, bytes. split; [reflexivity|].
    split; [constructor|]. split; [|reflexivity].
    pose proof (opcode_of_range b) as Hr.
    apply andb_false_iff in R. destruct R as [R|R]; apply Z.leb_gt in R; lia.
Qed.

(** With no list of byref indexes and no descriptor to tell the end,
    [append_layout_fields] returns for every layout whose slots can be
    decoded, with the members of these slots appended. *)
Lemma append_layout_fields_slots bv st layout slots h :
  layout_slots bv layout = Some slots ->
  exists st' h' news,
    append_layout_fields bv st (Some layout) true None None h
    = (inr (st', None, None), h') /\
    sb_members st' = sb_members st ++ news /\
    map member_slot news = map Some slots.
Proof.
  unfold layout_slots. intro H.
  assert (Done : forall (s' : layout_state) h',
    extends (st, None) s' slots ->
    exists st' h'' news,
      @ret (StructureBuilder * option (list Z) * option BlockDescriptor)
        (fst s', snd s', None) h'
      = (inr (st', None, None), h'') /\
      sb_members st' = sb_members st ++ news /\
      map member_slot news = map Some slots).
  { intros [st' bi] h' (news & Hm & Hs & _ & Hb). cbn [fst snd] in *.
    subst bi. exists st', h', news. repeat split; assumption. }
  destruct (Z.eqb_spec layout 0) as [->|Hnz].
  - injection H as <-. exists st, h, []. split; [reflexivity|].
    split; [rewrite app_nil_r|]; reflexivity.
  - unfold append_layout_fields.
    assert (G : forall X : M (StructureBuilder * option (list Z)
                              * option BlockDescriptor),
      match Some layout with
      | Some 0 => ret (st, None, None)
      | _ => X
      end = X).
    { intro X. destruct layout; [contradiction Hnz; reflexivity | |];
        reflexivity. }
    rewrite G. cbn [negb need_int]. rewrite bind_eq with (a := layout) (h1 := h)
      by reflexivity.
    destruct (layout <? 0x1000).
    + injection H as <-.
      destruct (emits_for_range (append_id "strong_ptr_") StrongPointer
                  (Z.to_nat (Z.land (Z.shiftr layout 8) 0xf)) emits_strong
                  (st, None) h) as (s1 & h1 & E1 & _ & X1).
      rewrite (bind_eq _ _ _ _ _ E1).
      destruct (emits_for_range append_byref ByrefPointer
                  (Z.to_nat (Z.land (Z.shiftr layout 4) 0xf))
                  emits_append_byref s1 h1) as (s2 & h2 & E2 & _ & X2).
      rewrite (bind_eq _ _ _ _ _ E2).
      destruct (emits_for_range (append_id "weak_ptr_") WeakPointer
                  (Z.to_nat (Z.land layout 0xf)) emits_weak s2 h2)
        as (s3 & h3 & E3 & _ & X3).
      rewrite (bind_eq _ _ _ _ _ E3).
      apply Done.
      eapply extends_trans; [exact X1|].
      eapply extends_trans; eassumption.
    + apply bytecode_slots_split in H.
      destruct H as (pre & t & rest & Hb & Hpre & Ht & ->).
      rewrite Hb.
      destruct (layout_bytecode_loop_spec pre t rest Hpre Ht layout (st, None)
                  h) as (s' & h1 & E & _ & X).
      rewrite (bind_eq _ _ _ _ _ E). apply Done. exact X.
Qed.

Lemma byref_layout_loop_finds var a k src post c l pre :
  forallb (before_layout_assignment (identifier var) k) pre = true ->
  is_const src = Some c ->
  byref_layout_loop
    (yield_struct_field_assign_hlil_instructions_for_var_id
       (pre ++ field_assign a var k src :: post) (identifier var)) k l
  = inr {| byref_flags := byref_flags l; byref_size := byref_size l;
           byref_layout := Bound c |}.
Proof.
  intros Hpre Hc. induction pre as [|x pre IH].
  - cbn [app yield_struct_field_assign_hlil_instructions_for_var_id].
    rewrite scan_field_assign. cbn [byref_layout_loop].
    change (assign_parts (field_assign a var k src)) with (Some (k, src)).
    cbv beta iota. rewrite Z.eqb_refl, Hc. reflexivity.
  - cbn [forallb] in Hpre. apply andb_true_iff in Hpre.
    destruct Hpre as [Hx Hpre].
    cbn [app yield_struct_field_assign_hlil_instructions_for_var_id].
    unfold before_layout_assignment in Hx.
    destruct (scan_insn x (identifier var)); [exact (IH Hpre) | |discriminate Hx].
    cbn [byref_layout_loop].
    destruct (assign_parts x) as [[m s]|]; [|discriminate Hx].
    apply negb_true_iff in Hx. rewrite Hx. exact (IH Hpre).
Qed.

(** C8. After the fixed header of a byref cell come the keep and destroy
    members, exactly when the copy-dispose bit of its flags is set, and then
    the payload that the layout nibble of the flags selects: one opaque word
    for NON_OBJECT, one pointer for STRONG, for WEAK and for UNRETAINED, and
    for EXTENDED the layout member followed by whatever members
    [append_layout_fields] appends for the layout constant assigned to it
    (none or more).  Any other nibble selects no payload.  The four simple
    payloads cannot fail.  The extended payload is returned whenever the
    variable is found declared again after it is retyped, the first
    assignment to its layout member is from a constant, and the slots of
    that constant can be decoded: the members are then the layout member,
    typed by the constant, and one member for each slot of the constant, in
    order, and the constant is what the scan leaves in [byref_layout]. *)
Theorem C8_byref_payload :
  forall bv flags byref_insn byref_insn_var l h,
    let nibble := Z.land flags BLOCK_BYREF_LAYOUT_MASK in
    let base := map member_sig (sb_members byref_fixed_header)
                ++ keep_destroy_sigs flags in
    let simple (payload : list (ty * string)) :=
      exists st' h',
        byref_payload bv flags byref_fixed_header byref_insn byref_insn_var l h
        = (inr (st', byref_insn, byref_insn_var, l), h') /\
        map member_sig (sb_members st') = base ++ payload in
    (nibble = BLOCK_BYREF_LAYOUT_NON_OBJECT ->
     simple [(TUInt64, "non_object_0"%string)]) /\
    (nibble = BLOCK_BYREF_LAYOUT_STRONG ->
     simple [(TId, "strong_ptr_0"%string)]) /\
    (nibble = BLOCK_BYREF_LAYOUT_WEAK ->
     simple [(TId, "weak_ptr_0"%string)]) /\
    (nibble = BLOCK_BYREF_LAYOUT_UNRETAINED ->
     simple [(TId, "unretained_ptr_0"%string)]) /\
    (nibble = 0 \/ 0x60000000 <= nibble -> simple []) /\
    (nibble = BLOCK_BYREF_LAYOUT_EXTENDED ->
     forall st' insn' var' l' h',
       byref_payload bv flags byref_fixed_header byref_insn byref_insn_var l h
       = (inr (st', insn', var', l'), h') ->
       exists layout st1 h1 bi leo,
         byref_layout l' = Bound layout /\
         map member_sig (sb_members st1)
         = base ++ [(layout_member_type layout, "layout"%string)] /\
         append_layout_fields bv st1 (Some layout) true None None h1
         = (inr (st', bi, leo), h')) /\
    (nibble = BLOCK_BYREF_LAYOUT_EXTENDED ->
     forall stream decl var' pre a src post layout slots,
       (forall h0, bv_hlil bv h0 = stream) ->
       find (fun insn =>
               insn_address insn =? insn_address (ref_insn byref_insn))
         stream = Some decl ->
       insn_op decl = HighLevelILVarDeclare var' ->
       stream
       = pre ++ field_assign a var' (Z.of_nat (List.length base)) src
           :: post ->
       forallb (before_layout_assignment (identifier var')
                  (Z.of_nat (List.length base))) pre = true ->
       constant_expr src layout ->
       layout_slots bv layout = Some slots ->
       exists st' h' news,
         byref_payload bv flags byref_fixed_header byref_insn byref_insn_var
           l h
         = (inr (st', {| ref_insn := decl; ref_function := stream |}, var',
                 {| byref_flags := byref_flags l;
                    byref_size := byref_size l;
                    byref_layout := Bound layout |}), h') /\
         map member_sig (sb_members st')
         = base ++ [(layout_member_type layout, "layout"%string)]
           ++ map member_sig news /\
         map member_slot news = map Some slots).
Proof.
  intros bv flags insn var l h nibble base simple.
  destruct (returns_keep_destroy flags byref_fixed_header h)
    as (h1 & Ekd & _).
  pose proof (with_keep_destroy_sigs flags byref_fixed_header) as Hsig.
  fold base in Hsig.
  destruct (returns_get_objc_type_id h1) as (h2 & Eid & _).
  set (kd := with_keep_destroy flags byref_fixed_header) in *.
  assert (Simple : forall payload st' h',
    nibble <> BLOCK_BYREF_LAYOUT_EXTENDED ->
    (if nibble =? BLOCK_BYREF_LAYOUT_NON_OBJECT then
       ret (sb_append kd TUInt64 "non_object_0", insn, var, l)
     else if nibble =? BLOCK_BYREF_LAYOUT_STRONG then
       t <- _get_objc_type "id";;
       ret (sb_append kd t "strong_ptr_0", insn, var, l)
     else if nibble =? BLOCK_BYREF_LAYOUT_WEAK then
       t <- _get_objc_type "id";;
       ret (sb_append kd t "weak_ptr_0", insn, var, l)
     else if nibble =? BLOCK_BYREF_LAYOUT_UNRETAINED then
       t <- _get_objc_type "id";;
       ret (sb_append kd t "unretained_ptr_0", insn, var, l)
     else ret (kd, insn, var, l)) h1
    = (inr (st', insn, var, l), h') ->
    map member_sig (sb_members st') = base ++ payload ->
    simple payload).
  { intros payload st' h' N E Hm. exists st', h'. split; [|exact Hm].
    unfold byref_payload. rewrite (bind_eq _ _ _ _ _ Ekd).
    fold nibble. apply Z.eqb_neq in N. rewrite N. exact E. }
  assert (Hidx : sb_index_by_name (sb_append kd TVoidPtr "layout") "layout"
                 = Some (List.length (sb_members kd))).
  { unfold sb_index_by_name. cbn [sb_append sb_members].
    rewrite index_of_name_fresh; [reflexivity|].
    apply no_layout_member. }
  split; [|split; [|split; [|split; [|split; [|split]]]]].
  - intro Hn. eapply Simple.
    + rewrite Hn. discriminate.
    + rewrite Hn. reflexivity.
    + rewrite sigs_append, Hsig. reflexivity.
  - intro Hn. eapply Simple.
    + rewrite Hn. discriminate.
    + rewrite Hn.
      change (BLOCK_BYREF_LAYOUT_STRONG =? BLOCK_BYREF_LAYOUT_NON_OBJECT)
        with false.
      change (BLOCK_BYREF_LAYOUT_STRONG =? BLOCK_BYREF_LAYOUT_STRONG)
        with true.
      cbv iota. rewrite (bind_eq _ _ _ _ _ Eid). reflexivity.
    + rewrite sigs_append, Hsig. reflexivity.
  - intro Hn. eapply Simple.
    + rewrite Hn. discriminate.
    + rewrite Hn.
      change (BLOCK_BYREF_LAYOUT_WEAK =? BLOCK_BYREF_LAYOUT_NON_OBJECT)
        with false.
      change (BLOCK_BYREF_LAYOUT_WEAK =? BLOCK_BYREF_LAYOUT_STRONG)
        with false.
      change (BLOCK_BYREF_LAYOUT_WEAK =? BLOCK_BYREF_LAYOUT_WEAK)
        with true.
      cbv iota. rewrite (bind_eq _ _ _ _ _ Eid). reflexivity.
    + rewrite sigs_append, Hsig. reflexivity.
  - intro Hn. eapply Simple.
    + rewrite Hn. discriminate.
    + rewrite Hn.
      change (BLOCK_BYREF_LAYOUT_UNRETAINED =? BLOCK_BYREF_LAYOUT_NON_OBJECT)
        with false.
      change (BLOCK_BYREF_LAYOUT_UNRETAINED =? BLOCK_BYREF_LAYOUT_STRONG)
        with false.
      change (BLOCK_BYREF_LAYOUT_UNRETAINED =? BLOCK_BYREF_LAYOUT_WEAK)
        with false.
      change (BLOCK_BYREF_LAYOUT_UNRETAINED =? BLOCK_BYREF_LAYOUT_UNRETAINED)
        with true.
      cbv iota. rewrite (bind_eq _ _ _ _ _ Eid). reflexivity.
    + rewrite sigs_append, Hsig. reflexivity.
  - intro Hn. eapply Simple with (st' := kd).
    + unfold BLOCK_BYREF_LAYOUT_EXTENDED. lia.
    + repeat match goal with
             | |- context [nibble =? ?c] =>
                 destruct (Z.eqb_spec nibble c) as [E|_];
                 [exfalso;
                  unfold BLOCK_BYREF_LAYOUT_NON_OBJECT,
                    BLOCK_BYREF_LAYOUT_STRONG, BLOCK_BYREF_LAYOUT_WEAK,
                    BLOCK_BYREF_LAYOUT_UNRETAINED in E; lia|]
             end.
      reflexivity.
    + rewrite Hsig, app_nil_r. reflexivity.
  - intros Hn st' insn' var' l' h' H.
    unfold byref_payload in H. rewrite (bind_eq _ _ _ _ _ Ekd) in H.
    fold nibble kd in H. rewrite Hn in H.
    change (BLOCK_BYREF_LAYOUT_EXTENDED =? BLOCK_BYREF_LAYOUT_EXTENDED)
      with true in H.
    cbv iota in H.
    rewrite Hidx in H.
    apply bind_inr in H. destruct H as ([] & h3 & _ & H).
    apply bind_inr in H. destruct H as (insn2 & h4 & _ & H).
    apply bind_inr in H. destruct H as (var2 & h5 & _ & H).
    apply bind_inr in H. destruct H as (l2 & h6 & _ & H).
    apply bind_inr in H. destruct H as (layout & h7 & G & H).
    apply bind_inr in H. destruct H as ([[st2 bi] leo] & h8 & A & H).
    injection H as <- <- <- <- <-.
    unfold getlocal in G. destruct (byref_layout l2) as [|lay] eqn:El;
      [discriminate G|]. injection G as <- <-.
    eexists lay, _, h6, bi, leo.
    split; [reflexivity|]. split; [|exact A].
    unfold layout_member_type.
    destruct (lay =? 0); cbn [negb].
    + rewrite sigs_append, Hsig. reflexivity.
    + destruct (lay <? 0x1000); rewrite sigs_replace_last, Hsig; reflexivity.
  - intros Hn stream decl var' pre a src post layout slots
      Hstream Hfind Hop Hpost Hpre Kc Hslots.
    assert (Hc : is_const src = Some layout)
      by (destruct Kc as [->| ->]; reflexivity).
    assert (Hlen : List.length (sb_members kd) = List.length base).
    { rewrite <- Hsig, length_map. reflexivity. }
    unfold byref_payload. rewrite (bind_eq _ _ _ _ _ Ekd).
    fold nibble kd. rewrite Hn.
    change (BLOCK_BYREF_LAYOUT_EXTENDED =? BLOCK_BYREF_LAYOUT_EXTENDED)
      with true.
    cbv iota. rewrite Hidx.
    erewrite bind_eq by reflexivity.
    erewrite bind_eq;
      [|unfold reload_hlil_instruction; erewrite bind_eq by reflexivity;
        cbv beta zeta; rewrite Hstream, Hfind; reflexivity].
    erewrite bind_eq;
      [|unfold lift, insn_var; cbn [ref_insn]; rewrite Hop; reflexivity].
    erewrite bind_eq;
      [|unfold lift; cbn [ref_function]; rewrite Hlen, Hpost;
        rewrite (byref_layout_loop_finds var' a _ src post layout l pre
                   Hpre Hc); reflexivity].
    cbn [byref_layout getlocal].
    erewrite bind_eq by reflexivity.
    match goal with
    | |- context [append_layout_fields bv ?st1 (Some layout) true None None]
      =>
        match goal with
        | |- exists _ _ _, bind _ _ ?hx = _ /\ _ =>
            destruct (append_layout_fields_slots bv st1 layout slots hx
                        Hslots) as (st' & h' & news & EA & Hm & Hsl);
            assert (Hst1 : map member_sig (sb_members st1)
                           = base ++ [(layout_member_type layout,
                                       "layout"%string)])
        end
    end.
    { unfold layout_member_type.
      destruct (layout =? 0); cbn [negb].
      - rewrite sigs_append, Hsig. reflexivity.
      - destruct (layout <? 0x1000); rewrite sigs_replace_last, Hsig;
          reflexivity. }
    rewrite (bind_eq _ _ _ _ _ EA).
    exists st', h', news. split; [reflexivity|]. split; [|exact Hsl].
    rewrite Hm, map_app, Hst1, <- app_assoc. reflexivity.
Qed.

(** A byref cell with keep and destroy functions and an extended layout:
    the address of its bytecode is assigned to member 6, and the bytecode
    stands for two strong pointers and one byref pointer. *)
Lemma C8_byref_payload_witness :
  Z.land 0x12000000 BLOCK_BYREF_LAYOUT_MASK = BLOCK_BYREF_LAYOUT_EXTENDED /\
  exists st' h',
    byref_payload extended_cell_view 0x12000000 byref_fixed_header
      {| ref_insn := {| insn_address := 0x200;
                        insn_op := HighLevelILVarDeclare var_p |};
         ref_function := extended_cell_stream |}
      var_p no_byref_locals empty_host
    = (inr (st',
            {| ref_insn := {| insn_address := 0x200;
                              insn_op := HighLevelILVarDeclare var_p |};
               ref_function := extended_cell_stream |},
            var_p,
            {| byref_flags := Unset; byref_size := Unset;
               byref_layout := Bound 0x3020 |}), h') /\
    map member_sig (sb_members st')
    = [(TClass, "isa"%string); (TVoidPtr, "forwarding"%string);
       (TVolatileInt32, "flags"%string); (TUInt32, "size"%string);
       (TLibclosure "BlockByrefKeepFunction", "byref_keep"%string);
       (TLibclosure "BlockByrefDestroyFunction", "byref_destroy"%string);
       (TUInt8ConstPtr, "layout"%string);
       (TId, "strong_ptr_30"%string); (TId, "strong_ptr_38"%string);
       (TId, "byref_ptr_40"%string)].
Proof.
  assert (Hn : Z.land 0x12000000 BLOCK_BYREF_LAYOUT_MASK
               = BLOCK_BYREF_LAYOUT_EXTENDED) by reflexivity.
  split; [exact Hn|].
  destruct (C8_byref_payload extended_cell_view 0x12000000
              {| ref_insn := {| insn_address := 0x200;
                                insn_op := HighLevelILVarDeclare var_p |};
                 ref_function := extended_cell_stream |}
              var_p no_byref_locals empty_host)
    as (_ & _ & _ & _ & _ & _ & Ext).
  destruct (Ext Hn extended_cell_stream
              {| insn_address := 0x200;
                 insn_op := HighLevelILVarDeclare var_p |}
              var_p
              [{| insn_address := 0x200;
                  insn_op := HighLevelILVarDeclare var_p |};
               field_assign 0x204 var_p 2 (HighLevelILConst 0x12000000);
               field_assign 0x208 var_p 3 (HighLevelILConst 0x40)]
              0x20c (HighLevelILConstPtr 0x3020) [] 0x3020
              [StrongPointer; StrongPointer; ByrefPointer]
              (fun _ => eq_refl) eq_refl eq_refl eq_refl eq_refl
              (or_intror eq_refl) eq_refl)
    as (st' & h' & news & E & Hsig & Hslot).
  exists st', h'. split; [exact E|].
  vm_compute in E. injection E as <- _. reflexivity.
Defined.

(* ===================================================================== *)
(** ** A stack block with two byref cells *)

(** C10.  The block captures [var_a] and [var_b] by reference; the scan of
    [var_b] finds no constant for its flags or its size.  When [var_b] is
    the first cell of the pass it is reported as failed and passed over,
    and the pass goes on with [var_a].  When it comes after [var_a], the
    flags and the size found for [var_a] are still bound: no failure is
    reported for [var_b], and a structure is defined for it from the flags
    of [var_a]. *)
Theorem C10_byref_without_constants :
  (let r := byref_run var_b var_a in
   h_log (snd r)
   = [LogAnnotating true 0x100;
      LogLiteral true 0x100 0xc0000000 0x4000 0x5000;
      LogDescriptor 0x5000 0x30;
      LogByrefFailed 0x300;
      LogByref 0x200 0x30000000 0x20] /\
   assoc_string "Block_byref_300" (h_types (snd r)) = None /\
   exists st, assoc_string "Block_byref_200" (h_types (snd r)) = Some st) /\
  (let r := byref_run var_a var_b in
   h_log (snd r)
   = [LogAnnotating true 0x100;
      LogLiteral true 0x100 0xc0000000 0x4000 0x5000;
      LogDescriptor 0x5000 0x30;
      LogByref 0x200 0x30000000 0x20;
      LogByref 0x300 0x30000000 0x20] /\
   exists st,
     assoc_string "Block_byref_300" (h_types (snd r)) = Some st /\
     map member_sig (sb_members st)
     = [(TClass, "isa"%string);
        (TPointer (TStruct "Block_byref_300"), "forwarding"%string);
        (TVolatileInt32, "flags"%string); (TUInt32, "size"%string);
        (TId, "strong_ptr_0"%string)]).
Proof.
  split.
  - vm_compute. split; [reflexivity|]. split; [reflexivity|].
    eexists. reflexivity.
  - vm_compute. split; [reflexivity|]. eexists. split; reflexivity.
Qed.

(* ===================================================================== *)
(** ** A global block without a signature *)

(** C1.  The descriptor of the scenario decodes, with 8 bytes of imported
    variables and without a value for [layout].  [annotate_literal] reads
    [bd.layout] because the imported variables are not empty, the read
    raises AttributeError, and the instance is given up: no structure is
    defined and no comment is written.  The same literal with
    HAS_SIGNATURE set and a signature and layout of 0 in its descriptor is
    annotated, with the comment on the 8 bytes missing. *)
Theorem C1_global_without_signature :
  (exists bd,
     fst (BlockDescriptor_init (scenario_image 0x10000000 [])
            (Some 0x3000) (Some 0x10000000)) = inr bd /\
     imported_variables_size bd = 8 /\
     bd_copy bd = None /\ bd_dispose bd = None /\
     bd_layout bd = Unset) /\
  (let r := annotate_global_block_literal no_translator
              (scenario_image 0x10000000 []) 0x2fe0 scenario_host in
   fst r = inr None /\
   h_log (snd r)
   = [LogAnnotating false 0x2fe0;
      LogLiteral false 0x2fe0 0x10000000 0x2000 0x3000;
      LogDescriptor 0x3000 0x28;
      LogException false 0x2fe0 (AttributeError "layout")] /\
   h_types (snd r) = [] /\ h_comments (snd r) = []) /\
  (let r := annotate_global_block_literal no_translator
              (scenario_image 0x50000000 (le_bytes 8 0 ++ le_bytes 8 0))
              0x2fe0 scenario_host in
   (exists bl bd, fst r = inr (Some (bl, bd))) /\
   h_comments (snd r)
   = [(0x2fe0, CommentSizeMismatch 0x28 "struct Block_literal_2fe0" 0x20 8)]).
Proof.
  split; [|split].
  - eexists. split; [reflexivity|]. repeat split.
  - vm_compute. repeat split.
  - vm_compute. split; [do 2 eexists; reflexivity | reflexivity].
Qed.


(* ===================================================================== *)
(** ** One instance never stops a sweep *)

Lemma never_raises_ret {A} (a : A) : never_raises (ret a).
Proof. intro h. exists a, h. reflexivity. Qed.

Lemma never_raises_bind {A B} (m : M A) (k : A -> M B) :
  never_raises m -> (forall a, never_raises (k a)) -> never_raises (bind m k).
Proof.
  intros Hm Hk h. destruct (Hm h) as (a & h1 & E).
  destruct (Hk a h1) as (b & h2 & E2).
  exists b, h2. unfold bind. rewrite E. exact E2.
Qed.

Lemma never_raises_print e : never_raises (print e).
Proof. intro h. do 2 eexists. reflexivity. Qed.

Lemma never_raises_returns {A} (m : M A) a : returns m a -> never_raises m.
Proof. intros Hr h. destruct (Hr h) as (h' & E & _). eauto. Qed.

Lemma never_raises_try_except {A} (body : M A) (handler : exn -> M A) :
  (forall e, never_raises (handler e)) ->
  never_raises (try_except body handler).
Proof.
  intros Hh h. unfold try_except.
  destruct (body h) as [[e|a] h1]; [apply Hh | eauto].
Qed.

Lemma never_raises_defined_data_var address t :
  never_raises
    (define_user_data_var address t;;
     h <- get_host;;
     match get_data_var_at h address with
     | Some dv => ret dv
     | None => raise AssertionError
     end).
Proof.
  intro h. unfold bind, define_user_data_var, modify, get_host,
    get_data_var_at. cbn. rewrite Z.eqb_refl. do 2 eexists. reflexivity.
Qed.

(** X1. [annotate_global_block_literal] returns for every view, address and
    host state: whatever is raised while the literal, its descriptor or its
    functions are read and annotated is caught and logged. *)
Theorem global_block_never_raises :
  forall translator bv block_literal_addr,
    never_raises
      (annotate_global_block_literal translator bv block_literal_addr).
Proof.
  intros translator bv addr. unfold annotate_global_block_literal.
  apply never_raises_bind; [apply never_raises_print | intros _].
  intro h0. unfold bind at 1. cbn [get_host].
  assert (Hdv : never_raises
    match get_data_var_at h0 addr with
    | Some dv => ret dv
    | None =>
        class_type <- _get_objc_type "Class";;
        define_user_data_var addr (TPointer class_type);;
        h <- get_host;;
        match get_data_var_at h addr with
        | Some dv => ret dv
        | None => raise AssertionError
        end
    end).
  { destruct (get_data_var_at h0 addr); [apply never_raises_ret|].
    apply never_raises_bind;
      [eapply never_raises_returns, returns_get_objc_type_Class|].
    intro t. apply never_raises_defined_data_var. }
  refine (never_raises_bind _ _ Hdv _ h0).
  intro dv.
  destruct (match data_var_value bv dv with
            | ValueDict members =>
                match assoc_string "isa" members with
                | Some isa => ValueInt isa
                | None => ValueDict members
                end
            | v => v
            end);
    try (apply never_raises_bind;
         [apply never_raises_print | intro; apply never_raises_ret]).
  destruct (get_symbol_of_type bv "__NSConcreteGlobalBlock" ExternalSymbol).
  - destruct (negb (z =? sym_address s)).
    + apply never_raises_bind;
        [apply never_raises_print | intro; apply never_raises_ret].
    + apply never_raises_try_except. intro e.
      apply never_raises_bind;
        [apply never_raises_print | intro; apply never_raises_ret].
  - apply never_raises_bind;
      [apply never_raises_print | intro; apply never_raises_ret].
Qed.

Lemma never_raises_stack_body translator bv insn var isa_src :
  never_raises
    (if negb (is_stack_variable var) then
       print (LogNotStackVariable (insn_address (ref_insn insn)));;
       ret None
     else
       if negb match isa_src with
               | HighLevelILImport text _ _ =>
                   String.eqb text "__NSConcreteStackBlock"
               | _ => false
               end
       then
         print (LogNotStackBlockImport (insn_address (ref_insn insn)));;
         ret None
       else
         r <- try_except
                (r <- annotate_stack_block translator bv insn var;;
                 ret (Some r))
                (fun e =>
                   print (LogException true (insn_address (ref_insn insn)) e);;
                   ret None);;
         match r with
         | None => ret None
         | Some (bl, bd) =>
             try_except
               (bl <- annotate_stack_byrefs bv bl bd;;
                ret (Some (bl, bd)))
               (fun e =>
                  print (LogException true (insn_address (ref_insn insn)) e);;
                  ret None)
         end).
Proof.
  assert (Hlog : forall (e : LogEntry),
            never_raises (print e;;
                          ret (@None (BlockLiteral * BlockDescriptor)))).
  { intro e. apply never_raises_bind;
      [apply never_raises_print | intro; apply never_raises_ret]. }
  destruct (negb (is_stack_variable var)); [apply Hlog|].
  destruct (negb _); [apply Hlog|].
  apply never_raises_bind.
  - apply never_raises_try_except. intro e. apply Hlog.
  - intros [[bl bd]|]; [|apply never_raises_ret].
    apply never_raises_try_except. intro e. apply Hlog.
Qed.

(** X2. [annotate_stack_block_literal] returns for every instruction but
    one kind: an assignment to a field of something that is not a variable,
    for which [block_literal_insn.dest.src.var] is read before the first
    [try] and raises AttributeError.  A variable initialization, which is
    what the sweep over all stack blocks passes, never raises. *)
Theorem stack_block_raises_only_before_try :
  forall translator bv block_literal_insn,
    ((forall base k src,
        insn_op (ref_insn block_literal_insn)
        = HighLevelILAssign (HighLevelILStructField base k) src ->
        exists v, base = HighLevelILVar v) ->
     never_raises
       (annotate_stack_block_literal translator bv block_literal_insn)) /\
    (forall base k src h,
       insn_op (ref_insn block_literal_insn)
       = HighLevelILAssign (HighLevelILStructField base k) src ->
       (forall v, base <> HighLevelILVar v) ->
       fst (annotate_stack_block_literal translator bv block_literal_insn h)
       = inl (AttributeError "var")).
Proof.
  intros translator bv insn. split.
  - intro Hvar. unfold annotate_stack_block_literal.
    apply never_raises_bind; [apply never_raises_print | intros _].
    apply never_raises_bind.
    + unfold block_literal_var_of.
      destruct (insn_op (ref_insn insn)) as [v|d s|dest src|n] eqn:Eop;
        try apply never_raises_ret.
      destruct dest as [v|base k|b i|b k|b|b|t c a|c|c|d|n];
        try apply never_raises_ret.
      destruct (Hvar base k src eq_refl) as (v & ->).
      apply never_raises_bind; [|intro; apply never_raises_ret].
      intro h. do 2 eexists. reflexivity.
    + intros [entry|[var isa_src]].
      * apply never_raises_bind;
          [apply never_raises_print | intro; apply never_raises_ret].
      * apply never_raises_stack_body.
  - intros base k src h Eop Hnv.
    unfold annotate_stack_block_literal, block_literal_var_of.
    rewrite Eop. unfold bind, print, modify. cbn.
    destruct base; try reflexivity. exfalso. eapply Hnv. reflexivity.
Qed.

Lemma stack_block_raises_only_before_try_witness :
  never_raises
    (annotate_stack_block_literal no_translator (stack_view complete_stream)
       {| ref_insn := marker_init; ref_function := [marker_init] |}).
Proof.
  apply (stack_block_raises_only_before_try no_translator
           (stack_view complete_stream)
           {| ref_insn := marker_init; ref_function := [marker_init] |}).
  intros base k src H. discriminate H.
Defined.

(** X3. A variable initialization that is not a stack block is turned down
    before anything is touched: when the variable is not a stack variable,
    or the value is not the import [__NSConcreteStackBlock], the call
    returns without a literal, and the host state is as before but for two
    lines in the log. *)
Theorem stack_candidate_turned_down :
  forall translator bv address dest src function h,
    is_stack_variable dest = false \/
    (forall c a, src <> HighLevelILImport "__NSConcreteStackBlock" c a) ->
    exists reason h',
      annotate_stack_block_literal translator bv
        {| ref_insn := {| insn_address := address;
                          insn_op := HighLevelILVarInit dest src |};
           ref_function := function |} h
      = (inr None, h') /\
      h_log h' = h_log h ++ [LogAnnotating true address; reason] /\
      h_types h' = h_types h /\ h_source_types h' = h_source_types h /\
      h_var_names h' = h_var_names h /\ h_var_types h' = h_var_types h /\
      h_data_vars h' = h_data_vars h /\ h_funcs h' = h_funcs h /\
      h_comments h' = h_comments h.
Proof.
  intros translator bv address dest src function h Hrej.
  unfold annotate_stack_block_literal, block_literal_var_of.
  cbn [ref_insn insn_op insn_address].
  unfold bind at 1. cbn [print modify].
  unfold bind at 1. cbn [ret].
  destruct (is_stack_variable dest) eqn:Es; cbn [negb].
  - destruct Hrej as [Hrej|Hrej]; [discriminate|].
    assert (Hm : match src with
                 | HighLevelILImport text _ _ =>
                     String.eqb text "__NSConcreteStackBlock"
                 | _ => false
                 end = false).
    { destruct src; try reflexivity.
      destruct (String.eqb_spec text "__NSConcreteStackBlock") as [->|];
        [|reflexivity].
      exfalso. eapply Hrej. reflexivity. }
    rewrite Hm. cbn [negb]. do 2 eexists. split; [reflexivity|].
    cbn. rewrite <- app_assoc. repeat split.
  - do 2 eexists. split; [reflexivity|].
    cbn. rewrite <- app_assoc. repeat split.
Qed.

Lemma stack_candidate_turned_down_witness :
  exists reason h',
    annotate_stack_block_literal no_translator (stack_view [])
      {| ref_insn := {| insn_address := 0x100;
                        insn_op := HighLevelILVarInit var_x marker |};
         ref_function := [] |} empty_host
    = (inr None, h') /\
    h_log h' = h_log empty_host ++ [LogAnnotating true 0x100; reason] /\
    h_types h' = h_types empty_host /\
    h_source_types h' = h_source_types empty_host /\
    h_var_names h' = h_var_names empty_host /\
    h_var_types h' = h_var_types empty_host /\
    h_data_vars h' = h_data_vars empty_host /\
    h_funcs h' = h_funcs empty_host /\
    h_comments h' = h_comments empty_host.
Proof.
  apply (stack_candidate_turned_down no_translator (stack_view []) 0x100
           var_x marker [] empty_host).
  left. reflexivity.
Defined.

(* ===================================================================== *)
(** ** shinobi.py: lookups *)

Lemma find_first {A} (f : A -> bool) (l : list A) :
  match find f l with
  | Some x =>
      f x = true /\
      exists pre post, l = pre ++ x :: post /\
                       forall y, In y pre -> f y = false
  | None => forall y, In y l -> f y = false
  end.
Proof.
  induction l as [|a l IH]; cbn.
  - intros y [].
  - destruct (f a) eqn:Ea.
    + split; [exact Ea|]. exists [], l. split; [reflexivity|]. intros y [].
    + destruct (find f l) as [x|].
      * destruct IH as (Hx & pre & post & -> & Hpre).
        split; [exact Hx|]. exists (a :: pre), post.
        split; [reflexivity|]. intros y [<-|Hy]; [exact Ea | apply Hpre, Hy].
      * intros y [<-|Hy]; [exact Ea | apply IH, Hy].
Qed.

(** X4. [get_symbol_of_type] gives the first symbol of the view that has
    the name and the type, and [None] exactly when the view has no such
    symbol (the StopIteration of the generator is caught). *)
Theorem get_symbol_of_type_first :
  forall bv name type_,
    match get_symbol_of_type bv name type_ with
    | Some s =>
        sym_name s = name /\ sym_type s = type_ /\
        exists pre post,
          bv_symbols bv = pre ++ s :: post /\
          forall y, In y pre -> symbol_matches name type_ y = false
    | None =>
        forall y, In y (bv_symbols bv) ->
                  sym_name y = name -> sym_type y <> type_
    end.
Proof.
  intros bv name type_.
  assert (Heqb : forall a b, SymbolType_eqb a b = true <-> a = b).
  { intros [] []; cbn; split; intro H; try reflexivity; discriminate H. }
  assert (Hfind : get_symbol_of_type bv name type_
                  = find (symbol_matches name type_) (bv_symbols bv)).
  { unfold get_symbol_of_type, yield_symbols_of_type.
    induction (bv_symbols bv) as [|s l IH]; [reflexivity|].
    cbn [filter find]. unfold symbol_matches at 1.
    destruct (String.eqb (sym_name s) name); cbn [filter andb].
    - destruct (SymbolType_eqb (sym_type s) type_); [reflexivity | exact IH].
    - exact IH. }
  rewrite Hfind.
  pose proof (find_first (symbol_matches name type_) (bv_symbols bv)) as H.
  destruct (find (symbol_matches name type_) (bv_symbols bv)) as [s|].
  - destruct H as (Hs & Hrest). unfold symbol_matches in Hs.
    apply andb_true_iff in Hs. destruct Hs as (Hn & Ht).
    split; [apply String.eqb_eq, Hn|]. split; [apply Heqb, Ht | exact Hrest].
  - intros y Hy Hn Ht. specialize (H y Hy). unfold symbol_matches in H.
    apply (proj2 (String.eqb_eq _ _)) in Hn. apply (proj2 (Heqb _ _)) in Ht.
    rewrite Hn, Ht in H. discriminate H.
Qed.

(** X5. [reload_hlil_instruction] changes nothing in the host.  It gives
    the first instruction, in the function as the host decompiles it now,
    that has the address of the instruction it is given, together with that
    function; it raises AssertionError exactly when no instruction of the
    function has this address. *)
Theorem reload_first_at_address :
  forall bv hlil_insn h,
    let address := insn_address (ref_insn hlil_insn) in
    match reload_hlil_instruction bv hlil_insn h with
    | (inr r, h') =>
        h' = h /\ ref_function r = bv_hlil bv h /\
        insn_address (ref_insn r) = address /\
        exists pre post,
          bv_hlil bv h = pre ++ ref_insn r :: post /\
          forall i, In i pre -> insn_address i <> address
    | (inl e, h') =>
        h' = h /\ e = AssertionError /\
        forall i, In i (bv_hlil bv h) -> insn_address i <> address
    end.
Proof.
  intros bv hlil_insn h address.
  unfold reload_hlil_instruction, bind, get_host. fold address.
  pose proof (find_first (fun insn => insn_address insn =? address)
                (bv_hlil bv h)) as H.
  destruct (find (fun insn => insn_address insn =? address) (bv_hlil bv h))
    as [i|]; cbn.
  - destruct H as (Hi & pre & post & E & Hpre).
    split; [reflexivity|]. split; [reflexivity|].
    split; [apply Z.eqb_eq, Hi|].
    exists pre, post. split; [exact E|].
    intros y Hy. apply Z.eqb_neq, Hpre, Hy.
  - split; [reflexivity|]. split; [reflexivity|].
    intros y Hy. apply Z.eqb_neq, H, Hy.
Qed.

(* ===================================================================== *)
(** ** shinobi.py: what the scan yields *)

Lemma scan_insn_cases insn var_id :
  match destination_base insn with
  | Some base =>
      if unhandled_base base
      then scan_insn insn var_id = StepRaise NotImplementedError
      else scan_insn insn var_id
           = if rooted_at var_id base then StepYield else StepContinue
  | None => scan_insn insn var_id = StepContinue
  end.
Proof.
  unfold destination_base, scan_insn.
  destruct (insn_op insn) as [v|d s|dest src|n]; try reflexivity.
  destruct dest as [v|base k|b i|b k|b|b|t c a|c|c|d|n]; try reflexivity.
  destruct base as [v|b k'|b i|b k'|b|b|t c a|c|c|d|n];
    cbn [unhandled_base rooted_at]; try reflexivity.
  - destruct (identifier v =? var_id); reflexivity.
  - destruct b as [w| | | | | | | | | |]; try reflexivity.
    destruct (identifier w =? var_id); reflexivity.
  - destruct b as [w| | | | | | | | | |]; try reflexivity.
    destruct (identifier w =? var_id); reflexivity.
Qed.

(** X6. As long as no assignment goes to a field of a base the scan has no
    case for, the scan yields exactly the instructions that assign to a
    field of the variable, or of an element or a field of it, in the order
    of the function, and then stops; every other instruction is left out.
    In any case everything it yields is such an assignment. *)
Theorem scan_yields_field_assignments :
  forall instructions var_id,
    let g := yield_struct_field_assign_hlil_instructions_for_var_id
               instructions var_id in
    Forall (fun insn => assigns_field_of var_id insn = true) (yielded g) /\
    subsequence (yielded g) instructions /\
    ((forall insn base,
        In insn instructions -> destination_base insn = Some base ->
        unhandled_base base = false) ->
     yielded g = filter (assigns_field_of var_id) instructions /\
     gen_end g = None).
Proof.
  intros instructions var_id.
  induction instructions as [|x rest IH]; cbn zeta.
  - split; [constructor|]. split; [constructor|]. intros _. split; reflexivity.
  - cbn [yield_struct_field_assign_hlil_instructions_for_var_id].
    destruct IH as (F & S & C).
    pose proof (scan_insn_cases x var_id) as Hx.
    assert (Hf : assigns_field_of var_id x
                 = match destination_base x with
                   | Some base => rooted_at var_id base
                   | None => false
                   end) by reflexivity.
    cbn [filter]. rewrite Hf. clear Hf.
    destruct (destination_base x) as [base|] eqn:Eb.
    + destruct (unhandled_base base) eqn:Eu.
      * rewrite Hx. cbn [yielded gen_end].
        split; [constructor|]. split.
        { clear. induction (x :: rest); constructor; assumption. }
        intro Hall. specialize (Hall x base (or_introl eq_refl) Eb).
        rewrite Hall in Eu. discriminate Eu.
      * rewrite Hx. destruct (rooted_at var_id base) eqn:Er;
          cbn [yielded gen_end].
        -- split.
           { constructor; [|exact F]. unfold assigns_field_of.
             rewrite Eb. exact Er. }
           split; [constructor; exact S|].
           intro Hall. destruct C as (C1 & C2).
           { intros i b Hi. apply Hall. right. exact Hi. }
           split; [f_equal; exact C1 | exact C2].
        -- split; [exact F|]. split; [constructor; exact S|].
           intro Hall. apply C. intros i b Hi. apply Hall. right. exact Hi.
    + rewrite Hx. split; [exact F|]. split; [constructor; exact S|].
      intro Hall. apply C. intros i b Hi. apply Hall. right. exact Hi.
Qed.

Lemma scan_yields_field_assignments_witness :
  yielded (yield_struct_field_assign_hlil_instructions_for_var_id
             (typed_function var_a var_b) 0x30)
  = filter (assigns_field_of 0x30) (typed_function var_a var_b) /\
  gen_end (yield_struct_field_assign_hlil_instructions_for_var_id
             (typed_function var_a var_b) 0x30) = None.
Proof.
  apply (scan_yields_field_assignments (typed_function var_a var_b) 0x30).
  intros insn base Hin Hb.
  repeat (destruct Hin as [<-|Hin];
          [cbn in Hb; try discriminate Hb; injection Hb as <-; reflexivity|]).
  contradiction Hin.
Defined.

(* ===================================================================== *)
(** ** from_stack: how the loop ends *)

Lemma from_stack_loop_app pre rest var_id :
  forall l l',
    from_stack_loop
      (yield_struct_field_assign_hlil_instructions_for_var_id pre var_id) l
    = inr l' ->
    all_bound l' = false ->
    from_stack_loop
      (yield_struct_field_assign_hlil_instructions_for_var_id
         (pre ++ rest) var_id) l
    = from_stack_loop
        (yield_struct_field_assign_hlil_instructions_for_var_id rest var_id)
        l'.
Proof.
  induction pre as [|x pre IH]; intros l l' Hl Hb; cbn in *.
  - injection Hl as ->. reflexivity.
  - destruct (scan_insn x var_id).
    + apply IH; assumption.
    + cbn in *. destruct (from_stack_body x l) as [e|l1]; [discriminate|].
      destruct (all_bound l1) eqn:Eb.
      * injection Hl as <-. rewrite Eb in Hb. discriminate.
      * apply IH; assumption.
    + discriminate.
Qed.

(** X7. The loop of [from_stack] stops at the assignment that completes
    the five header fields: whatever the function holds after it, be it an
    assignment the scan has no case for or a second assignment to a header
    field, is not looked at and changes nothing in the result. *)
Theorem from_stack_stops_at_complete_header :
  forall pre post var_id l l',
    all_bound l = false ->
    from_stack_loop
      (yield_struct_field_assign_hlil_instructions_for_var_id pre var_id) l
    = inr l' ->
    all_bound l' = true ->
    from_stack_loop
      (yield_struct_field_assign_hlil_instructions_for_var_id
         (pre ++ post) var_id) l
    = inr l'.
Proof.
  induction pre as [|x pre IH]; intros post var_id l l' Hn Hl Hb; cbn in *.
  - injection Hl as ->. rewrite Hb in Hn. discriminate.
  - destruct (scan_insn x var_id).
    + apply IH; assumption.
    + cbn in *. destruct (from_stack_body x l) as [e|l1]; [discriminate|].
      destruct (all_bound l1) eqn:Eb.
      * exact Hl.
      * apply IH; assumption.
    + discriminate.
Qed.

Lemma from_stack_stops_at_complete_header_witness :
  from_stack_loop
    (yield_struct_field_assign_hlil_instructions_for_var_id
       (complete_stream
        ++ [deref_assign;
            field_assign 0x130 var_18 1 (HighLevelILConst 0)]) 0x18)
    no_locals
  = inr {| l_isa := Bound 0x100; l_flags := Bound 0x02000000;
           l_reserved := Bound (Some 0); l_invoke := Bound 0x4000;
           l_descriptor := Bound 0x5000 |}.
Proof.
  apply (from_stack_stops_at_complete_header complete_stream
           [deref_assign; field_assign 0x130 var_18 1 (HighLevelILConst 0)]
           0x18 no_locals); reflexivity.
Defined.

(** X8. When the flags of the block are assigned from a field of a
    structure, before the five header fields are complete, the loop of
    [from_stack] raises RuntimeError: the flags cannot be recovered, and
    nothing that follows in the function is looked at. *)
Theorem from_stack_flags_from_field :
  forall pre insn post var_id l l' base source member,
    from_stack_loop
      (yield_struct_field_assign_hlil_instructions_for_var_id pre var_id) l
    = inr l' ->
    all_bound l' = false ->
    insn_op insn
    = HighLevelILAssign (HighLevelILStructField base 1)
        (HighLevelILStructField source member) ->
    rooted_at var_id base = true ->
    from_stack_loop
      (yield_struct_field_assign_hlil_instructions_for_var_id
         (pre ++ insn :: post) var_id) l
    = inl (RuntimeError "RHS of flags is struct field instead of constant").
Proof.
  intros pre insn post var_id l l' base source member Hl Hb Hop Hr.
  rewrite (from_stack_loop_app pre (insn :: post) var_id l l' Hl Hb).
  cbn [yield_struct_field_assign_hlil_instructions_for_var_id].
  pose proof (scan_insn_cases insn var_id) as Hs.
  unfold destination_base in Hs. rewrite Hop in Hs.
  assert (Hu : unhandled_base base = false).
  { destruct base as [v|b k'|b i|b k'|b|b|t c a|c|c|d|n];
      try reflexivity; discriminate Hr. }
  rewrite Hu, Hr in Hs. rewrite Hs. cbn [from_stack_loop].
  unfold from_stack_body, assign_parts. rewrite Hop. reflexivity.
Qed.

Lemma from_stack_flags_from_field_witness :
  from_stack_loop
    (yield_struct_field_assign_hlil_instructions_for_var_id
       ([field_assign 0x100 var_18 0 marker]
        ++ field_assign 0x108 var_18 1
             (HighLevelILStructField (HighLevelILVar var_x) 3)
        :: complete_stream) 0x18)
    no_locals
  = inl (RuntimeError "RHS of flags is struct field instead of constant").
Proof.
  eapply (from_stack_flags_from_field [field_assign 0x100 var_18 0 marker]
            (field_assign 0x108 var_18 1
               (HighLevelILStructField (HighLevelILVar var_x) 3))
            complete_stream 0x18 no_locals);
    reflexivity.
Defined.

(* ===================================================================== *)
(** ** append_layout_fields: round trip and reach *)

Lemma compact_layout_fields strong byref weak :
  0 <= strong <= 15 -> 0 <= byref <= 15 -> 0 <= weak <= 15 ->
  let v := compact_layout strong byref weak in
  0 <= v < 0x1000 /\
  Z.land (Z.shiftr v 8) 0xf = strong /\
  Z.land (Z.shiftr v 4) 0xf = byref /\
  Z.land v 0xf = weak /\
  (v = 0 -> strong = 0 /\ byref = 0 /\ weak = 0).
Proof.
  intros Hs Hb Hw.
  pose (range := map Z.of_nat (seq 0 16)).
  pose (check := fun s b w =>
    let v := compact_layout s b w in
    (0 <=? v) && (v <? 0x1000)
    && (Z.land (Z.shiftr v 8) 0xf =? s)
    && (Z.land (Z.shiftr v 4) 0xf =? b)
    && (Z.land v 0xf =? w)
    && (negb (v =? 0) || ((s =? 0) && (b =? 0) && (w =? 0)))).
  assert (Hall : forallb (fun s => forallb (fun b =>
                   forallb (fun w => check s b w) range) range) range
                 = true) by (vm_compute; reflexivity).
  assert (Hin : forall x, 0 <= x <= 15 -> In x range).
  { intros x Hx. unfold range. rewrite <- (Z2Nat.id x) by lia.
    apply in_map, in_seq. lia. }
  rewrite forallb_forall in Hall. specialize (Hall strong (Hin _ Hs)).
  rewrite forallb_forall in Hall. specialize (Hall byref (Hin _ Hb)).
  rewrite forallb_forall in Hall. specialize (Hall weak (Hin _ Hw)).
  unfold check in Hall. cbn zeta in Hall.
  apply andb_true_iff in Hall. destruct Hall as [Hall H6].
  apply andb_true_iff in Hall. destruct Hall as [Hall H5].
  apply andb_true_iff in Hall. destruct Hall as [Hall H4].
  apply andb_true_iff in Hall. destruct Hall as [Hall H3].
  apply andb_true_iff in Hall. destruct Hall as [H1 H2].
  cbn zeta.
  split; [split; [apply Z.leb_le, H1 | apply Z.ltb_lt, H2]|].
  split; [apply Z.eqb_eq, H3|]. split; [apply Z.eqb_eq, H4|].
  split; [apply Z.eqb_eq, H5|].
  intro Hz. rewrite Hz in H6. cbn [Z.eqb negb orb] in H6.
  apply andb_true_iff in H6. destruct H6 as [H6 H8].
  apply andb_true_iff in H6. destruct H6 as [H6 H7].
  split; [apply Z.eqb_eq, H6|]. split; apply Z.eqb_eq; assumption.
Qed.

(** X9. Round trip of the compact encoding: for any counts of strong, byref
    and weak pointers up to 15 each, the layout value
    [(strong << 8) | (byref << 4) | weak] of a block with the
    extended-layout flag is decoded into exactly that many strong, then
    byref, then weak pointer members, appended to the structure; with all
    counts 0 the value is 0 and nothing is appended. *)
Theorem compact_layout_round_trip :
  forall bv struct strong byref weak byref_indexes layout_end_obj h,
    0 <= strong <= 15 -> 0 <= byref <= 15 -> 0 <= weak <= 15 ->
    exists struct' byref_indexes' h' news,
      append_layout_fields bv struct
        (Some (compact_layout strong byref weak)) true byref_indexes
        layout_end_obj h
      = (inr (struct', byref_indexes', layout_end_obj), h') /\
      sb_members struct' = sb_members struct ++ news /\
      map member_slot news
      = map Some (repeat StrongPointer (Z.to_nat strong)
                  ++ repeat ByrefPointer (Z.to_nat byref)
                  ++ repeat WeakPointer (Z.to_nat weak)).
Proof.
  intros bv struct strong byref weak bi leo h Hs Hb Hw.
  destruct (compact_layout_fields strong byref weak Hs Hb Hw)
    as (Hv & E8 & E4 & E0 & Hz).
  set (v := compact_layout strong byref weak) in *.
  destruct (Z.eq_dec v 0) as [Ez|Hnz].
  - destruct (Hz Ez) as (-> & -> & ->). rewrite Ez.
    exists struct, bi, h, []. cbn. rewrite app_nil_r. repeat split.
  - assert (Hemit :
      emits (s <- for_range (Z.to_nat strong) (append_id "strong_ptr_")
                    (struct, bi);;
             s <- for_range (Z.to_nat byref) append_byref s;;
             for_range (Z.to_nat weak) (append_id "weak_ptr_") s)
            (struct, bi)
            (repeat StrongPointer (Z.to_nat strong)
             ++ repeat ByrefPointer (Z.to_nat byref)
             ++ repeat WeakPointer (Z.to_nat weak))).
    { apply emits_bind; [apply emits_for_range, emits_strong|].
      intro s1. apply emits_bind; [apply emits_for_range, emits_append_byref|].
      intro s2. apply emits_for_range, emits_weak. }
    destruct (Hemit h) as ([struct' bi'] & h' & E & _ & news & Hm & Hsl & _).
    exists struct', bi', h', news.
    split; [|split; [exact Hm | exact Hsl]].
    unfold append_layout_fields.
    assert (Hlt : (v <? 0x1000) = true) by (apply Z.ltb_lt; lia).
    destruct v as [|p|p] eqn:Ev; [contradiction Hnz; reflexivity| |lia].
    cbn [negb need_int]. unfold bind at 1. cbn [ret].
    rewrite Hlt, E8, E4, E0.
    unfold bind in E |- *.
    destruct (for_range (Z.to_nat strong) (append_id "strong_ptr_")
                (struct, bi) h) as [[e1|s1] h1]; try discriminate E.
    destruct (for_range (Z.to_nat byref) append_byref s1 h1)
      as [[e2|s2] h2]; try discriminate E.
    rewrite E. reflexivity.
Qed.

Lemma compact_layout_round_trip_witness :
  exists struct' byref_indexes' h' news,
    append_layout_fields (image 0 []) (sb_create true)
      (Some (compact_layout 2 0 1)) true (Some []) None empty_host
    = (inr (struct', byref_indexes', None), h') /\
    sb_members struct' = sb_members (sb_create true) ++ news /\
    map member_slot news
    = map Some (repeat StrongPointer (Z.to_nat 2)
                ++ repeat ByrefPointer (Z.to_nat 0)
                ++ repeat WeakPointer (Z.to_nat 1)).
Proof.
  apply (compact_layout_round_trip (image 0 []) (sb_create true) 2 0 1
           (Some []) None empty_host); split; discriminate.
Defined.

(** X10. [append_layout_fields] reaches nothing in the host but the source
    types it registers on first use and the log: it defines no structure,
    touches no variable, data variable or function and writes no comment,
    whether it returns or raises.  With a layout of 0, or for a block
    without the extended-layout flag, it returns what it was given and the
    host is as before; no byte is read, so this holds for any memory and
    even for a layout that could not be read. *)
Theorem append_layout_fields_reach :
  forall bv struct layout block_has_extended_layout byref_indexes
         layout_end_obj h,
    (forall r h',
       append_layout_fields bv struct layout block_has_extended_layout
         byref_indexes layout_end_obj h = (r, h') ->
       h_types h' = h_types h /\ h_var_names h' = h_var_names h /\
       h_var_types h' = h_var_types h /\ h_data_vars h' = h_data_vars h /\
       h_funcs h' = h_funcs h /\ h_comments h' = h_comments h) /\
    (layout = Some 0 \/ block_has_extended_layout = false ->
     append_layout_fields bv struct layout block_has_extended_layout
       byref_indexes layout_end_obj h
     = (inr (struct, byref_indexes, layout_end_obj), h)).
Proof.
  intros bv struct layout ext bi leo h. split.
  - intros r h' E.
    exact (frame_append_layout_fields bv struct layout ext bi leo h r h' E).
  - intros [->| ->]; [reflexivity|].
    unfold append_layout_fields. destruct layout as [[| |]|]; reflexivity.
Qed.

Lemma append_layout_fields_reach_witness :
  append_layout_fields (image 0 []) (sb_create true) None false (Some [])
    None empty_host
  = (inr (sb_create true, Some [], None), empty_host).
Proof.
  apply (append_layout_fields_reach (image 0 []) (sb_create true) None false
           (Some []) None empty_host).
  right. reflexivity.
Defined.

(* ===================================================================== *)
(** ** The types that come with the plugin *)

(** X11. [_get_custom_type] for a name of its source never fails: it
    defines the types of the source when the name is not defined yet, and
    only then; a second call for the name changes nothing.  For a name that
    is neither defined nor in the source, the source is defined and the
    assertion on the second lookup fails. *)
Theorem get_custom_type_on_first_use :
  forall name source h,
    (string_in name source = true ->
     exists h1,
       _get_custom_type name source h = (inr (source_type name), h1) /\
       (string_in name (h_source_types h) = true -> h1 = h) /\
       (string_in name (h_source_types h) = false ->
        h_source_types h1 = h_source_types h ++ source) /\
       _get_custom_type name source h1 = (inr (source_type name), h1)) /\
    (string_in name source = false ->
     string_in name (h_source_types h) = false ->
     _get_custom_type name source h
     = (inl AssertionError,
        update_source_types (fun l => l ++ source) h)).
Proof.
  intros name source h. split.
  - intro Hin. unfold _get_custom_type, bind, get_host, get_type_by_name.
    destruct (string_in name (h_source_types h)) eqn:E.
    + exists h. split; [reflexivity|]. split; [reflexivity|].
      split; [discriminate|]. rewrite E. reflexivity.
    + exists (update_source_types (fun l => l ++ source) h).
      assert (Hd : string_in name
                     (h_source_types
                        (update_source_types (fun l => l ++ source) h))
                   = true) by (apply (string_in_app _ _ _ Hin)).
      unfold modify. cbn [fst snd]. rewrite Hd.
      split; [reflexivity|]. split; [discriminate|].
      split; reflexivity.
  - intros Hs Hh. unfold _get_custom_type, bind, get_host, get_type_by_name.
    rewrite Hh. unfold modify.
    assert (Hn : string_in name
                   (h_source_types
                      (update_source_types (fun l => l ++ source) h))
                 = false).
    { cbn [h_source_types update_source_types].
      unfold string_in in *. rewrite existsb_app, Hs, Hh. reflexivity. }
    rewrite Hn. reflexivity.
Qed.

Lemma get_custom_type_on_first_use_witness :
  exists h1,
    _get_custom_type "id" _OBJC_TYPE_SOURCE empty_host
    = (inr (source_type "id"), h1) /\
    (string_in "id" (h_source_types empty_host) = true -> h1 = empty_host) /\
    (string_in "id" (h_source_types empty_host) = false ->
     h_source_types h1 = h_source_types empty_host ++ _OBJC_TYPE_SOURCE) /\
    _get_custom_type "id" _OBJC_TYPE_SOURCE h1 = (inr (source_type "id"), h1).
Proof.
  apply (get_custom_type_on_first_use "id" _OBJC_TYPE_SOURCE empty_host).
  reflexivity.
Defined.

(* ===================================================================== *)
(** ** from_data: the literal in memory *)

Lemma bytes_from_cons bv off b t :
  bytes_from bv off = b :: t ->
  byte_at bv off = Some b /\ bytes_from bv (off + 1) = t.
Proof.
  unfold bytes_from, byte_at.
  destruct (Z.ltb_spec off (bv_start bv)) as [Hlt|Hge]; [discriminate|].
  intro H.
  destruct (Z.ltb_spec (off + 1) (bv_start bv)) as [Hlt'|_]; [lia|].
  replace (Z.to_nat (off + 1 - bv_start bv))
    with (S (Z.to_nat (off - bv_start bv))) by lia.
  revert H. generalize (Z.to_nat (off - bv_start bv)) as n.
  generalize (bv_data bv) as data.
  induction data as [|x data IH]; intros n H.
  - destruct n; discriminate H.
  - destruct n as [|n].
    + cbn in H. injection H as -> ->. split; reflexivity.
    + cbn in H |- *. apply IH, H.
Qed.

Lemma read_le_bytes bv n :
  forall bs rest off,
    List.length bs = n ->
    bytes_from bv off = bs ++ rest ->
    read_le bv off n = Some (le_value bs) /\
    bytes_from bv (off + Z.of_nat n) = rest.
Proof.
  induction n as [|n IH]; intros bs rest off Hlen Hb.
  - destruct bs; [|discriminate Hlen]. cbn.
    rewrite Z.add_0_r. split; [reflexivity | exact Hb].
  - destruct bs as [|b bs]; [discriminate Hlen|].
    cbn in Hlen. injection Hlen as Hlen.
    apply bytes_from_cons in Hb. destruct Hb as (Hb1 & Hb2).
    destruct (IH bs rest (off + 1) Hlen Hb2) as (Hr & Hrest).
    cbn [read_le le_value]. rewrite Hb1, Hr. split; [reflexivity|].
    rewrite <- Hrest. f_equal. lia.
Qed.

Lemma byte_val_of_Z v : byte_val (byte_of_Z v) = v mod 256.
Proof.
  unfold byte_val, byte_of_Z.
  assert (Hr : 0 <= v mod 256 < 256) by (apply Z.mod_pos_bound; lia).
  destruct (Byte.of_N (Z.to_N (v mod 256))) as [b|] eqn:E.
  - apply Byte.to_of_N in E. rewrite E. lia.
  - apply Byte.of_N_None_iff in E. lia.
Qed.

Lemma le_bytes_length n v : List.length (le_bytes n v) = n.
Proof.
  revert v. induction n as [|n IH]; intro v; cbn; [|rewrite IH]; reflexivity.
Qed.

Lemma le_value_le_bytes n :
  forall v, 0 <= v < 256 ^ Z.of_nat n -> le_value (le_bytes n v) = v.
Proof.
  induction n as [|n IH]; intros v Hv.
  - cbn in *. lia.
  - cbn [le_bytes le_value]. rewrite byte_val_of_Z.
    rewrite Nat2Z.inj_succ, Z.pow_succ_r in Hv by lia.
    rewrite IH.
    + pose proof (Z.div_mod v 256). lia.
    + split; [apply Z.div_pos; lia|].
      apply Z.div_lt_upper_bound; lia.
Qed.

Lemma br_read_bytes bv n v rest off :
  0 <= v < 256 ^ Z.of_nat n ->
  bytes_from bv off = le_bytes n v ++ rest ->
  br_read bv n {| br_offset := off |}
  = (Some v, {| br_offset := off + Z.of_nat n |}) /\
  bytes_from bv (off + Z.of_nat n) = rest.
Proof.
  intros Hv Hb.
  destruct (read_le_bytes bv n (le_bytes n v) rest off (le_bytes_length n v)
              Hb) as (Hr & Hrest).
  unfold br_read. cbn [br_offset]. rewrite Hr, le_value_le_bytes by exact Hv.
  split; [reflexivity | exact Hrest].
Qed.

(** X12. [from_data] reads the literal as five little-endian fields at the
    address of the data variable: [isa] in bytes 0 to 7, [flags] in 8 to 11,
    [reserved] in 12 to 15, [invoke] in 16 to 23 and [descriptor] in 24 to
    31.  Written out this way and read back, a literal with IS_GLOBAL set
    and [invoke] and [descriptor] not 0 comes back as a global literal with
    the same five values, whatever follows it in memory; with [invoke] or
    [descriptor] 0 or IS_GLOBAL clear the constructor refuses it. *)
Theorem from_data_round_trip :
  forall bv bl_data_var isa flags reserved invoke descriptor rest,
    bytes_from bv (dv_address bl_data_var)
    = literal_bytes isa flags reserved invoke descriptor ++ rest ->
    0 <= isa < 2 ^ 64 -> 0 <= flags < 2 ^ 32 -> 0 <= reserved < 2 ^ 32 ->
    0 <= invoke < 2 ^ 64 -> 0 <= descriptor < 2 ^ 64 ->
    from_data bv bl_data_var
    = BlockLiteral_init false (inr bl_data_var) (Some isa) (Some flags)
        (Some reserved) (Some invoke) (Some descriptor) /\
    (invoke <> 0 -> descriptor <> 0 -> Z.land flags BLOCK_IS_GLOBAL <> 0 ->
     exists bl,
       from_data bv bl_data_var = inr bl /\
       is_stack_block bl = false /\
       bl_address bl = dv_address bl_data_var /\
       bl_isa bl = Some isa /\ bl_flags bl = Some flags /\
       bl_reserved bl = Some reserved /\ bl_invoke bl = Some invoke /\
       bl_descriptor bl = Some descriptor) /\
    (invoke = 0 \/ descriptor = 0 \/ Z.land flags BLOCK_IS_GLOBAL = 0 ->
     from_data bv bl_data_var = inl AssertionError).
Proof.
  intros bv dv isa flags reserved invoke descriptor rest Hb Hi Hf Hr Hv Hd.
  assert (Hrun : from_data bv dv
                 = BlockLiteral_init false (inr dv) (Some isa) (Some flags)
                     (Some reserved) (Some invoke) (Some descriptor)).
  { unfold from_data, br_read64, br_read32, br_seek, literal_bytes in *.
    rewrite <- !app_assoc in Hb.
    destruct (br_read_bytes bv 8 isa _ _ Hi Hb) as (E1 & B1).
    rewrite E1.
    destruct (br_read_bytes bv 4 flags _ _ Hf B1) as (E2 & B2).
    rewrite E2.
    destruct (br_read_bytes bv 4 reserved _ _ Hr B2) as (E3 & B3).
    rewrite E3.
    destruct (br_read_bytes bv 8 invoke _ _ Hv B3) as (E4 & B4).
    rewrite E4.
    destruct (br_read_bytes bv 8 descriptor _ _ Hd B4) as (E5 & B5).
    rewrite E5. reflexivity. }
  split; [exact Hrun|]. rewrite Hrun. unfold BlockLiteral_init. split.
  - intros Hnv Hnd Hg.
    destruct invoke as [|p|p]; [contradiction Hnv; reflexivity| |lia].
    destruct descriptor as [|q|q]; [contradiction Hnd; reflexivity| |lia].
    apply Z.eqb_neq in Hg. rewrite Hg. cbn [negb].
    eexists. split; [reflexivity|]. repeat split.
  - intros [->|[->|Hg]]; [reflexivity| |].
    + destruct invoke as [|p|p]; reflexivity.
    + rewrite Hg. cbn.
      destruct invoke as [|p|p]; try reflexivity;
        destruct descriptor as [|q|q]; reflexivity.
Qed.

Lemma from_data_round_trip_witness :
  exists bl,
    from_data global_image global_data_var = inr bl /\
    is_stack_block bl = false /\
    bl_address bl = dv_address global_data_var /\
    bl_isa bl = Some 0x1000 /\ bl_flags bl = Some 0x50000000 /\
    bl_reserved bl = Some 0 /\ bl_invoke bl = Some 0x2000 /\
    bl_descriptor bl = Some 0x3000.
Proof.
  destruct (from_data_round_trip global_image global_data_var 0x1000
              0x50000000 0 0x2000 0x3000
              (le_bytes 8 0 ++ le_bytes 8 0x28 ++ le_bytes 8 0 ++ le_bytes 8 0))
    as (_ & H & _); try (split; [discriminate | reflexivity]).
  - reflexivity.
  - apply H; discriminate.
Defined.

(* ===================================================================== *)
(** ** The structure of a literal *)

Lemma layout_bytecode_loop_extends bytes :
  forall offset s h s' offset' h',
    layout_bytecode_loop bytes offset s h = (inr (s', offset'), h') ->
    (exists slots, extends s s' slots) /\ offset < offset'.
Proof.
  induction bytes as [|b rest IH]; intros offset s h s' offset' h' H.
  - discriminate H.
  - destruct (Z.eq_dec (opcode_of b) 0) as [E0|N0].
    + rewrite layout_bytecode_loop_step, E0 in H. cbn in H.
      injection H as <- <- _.
      split; [exists []; apply extends_refl | lia].
    + destruct (Z_le_dec 1 (opcode_of b)) as [L1|G1];
        [destruct (Z_le_dec (opcode_of b) 6) as [L6|G6]|].
      * destruct (emits_opcode b s (conj L1 L6)) as (m & Hm & Hstep).
        rewrite Hstep in H. apply bind_inr in H.
        destruct H as (s1 & h1 & E1 & H).
        destruct (Hm h) as (s1' & h1' & E1' & _ & X1).
        rewrite E1 in E1'. injection E1' as <- <-.
        apply IH in H. destruct H as ((slots & X2) & Hlt).
        split; [|lia]. eexists. eapply extends_trans; eassumption.
      * rewrite layout_bytecode_loop_step in H.
        repeat match type of H with
               | context [opcode_of b =? ?c] =>
                   destruct (Z.eqb_spec (opcode_of b) c) as [E|_];
                   [exfalso;
                    unfold BLOCK_LAYOUT_ESCAPE, BLOCK_LAYOUT_NON_OBJECT_BYTES,
                      BLOCK_LAYOUT_NON_OBJECT_WORDS, BLOCK_LAYOUT_STRONG,
                      BLOCK_LAYOUT_BYREF, BLOCK_LAYOUT_WEAK,
                      BLOCK_LAYOUT_UNRETAINED in E; lia|]
               end.
        cbv [bind print modify ret] in H. injection H as <- <- _.
        split; [exists []; apply extends_refl | lia].
      * rewrite layout_bytecode_loop_step in H.
        repeat match type of H with
               | context [opcode_of b =? ?c] =>
                   destruct (Z.eqb_spec (opcode_of b) c) as [E|_];
                   [exfalso;
                    unfold BLOCK_LAYOUT_ESCAPE, BLOCK_LAYOUT_NON_OBJECT_BYTES,
                      BLOCK_LAYOUT_NON_OBJECT_WORDS, BLOCK_LAYOUT_STRONG,
                      BLOCK_LAYOUT_BYREF, BLOCK_LAYOUT_WEAK,
                      BLOCK_LAYOUT_UNRETAINED in E; lia|]
               end.
        cbv [bind print modify ret] in H. injection H as <- <- _.
        split; [exists []; apply extends_refl | lia].
Qed.

Lemma append_layout_fields_extends bv st layout ext bi leo h st' bi' leo' h' :
  append_layout_fields bv st layout ext bi leo h
  = (inr (st', bi', leo'), h') ->
  exists slots, extends (st, bi) (st', bi') slots.
Proof.
  unfold append_layout_fields.
  assert (G :
    (if negb ext then ret (st, bi, leo)
     else
       layout <- need_int layout;;
       if layout <? 0x1000 then
         s <- for_range (Z.to_nat (Z.land (Z.shiftr layout 8) 0xf))
                (append_id "strong_ptr_") (st, bi);;
         s <- for_range (Z.to_nat (Z.land (Z.shiftr layout 4) 0xf))
                append_byref s;;
         s <- for_range (Z.to_nat (Z.land layout 0xf))
                (append_id "weak_ptr_") s;;
         ret (fst s, snd s, leo)
       else
         '(s, offset) <- layout_bytecode_loop (bytes_from bv layout) layout
                           (st, bi);;
         ret (fst s, snd s,
              match leo with
              | Some bd => Some (set_layout_end bd offset)
              | None => None
              end)) h
    = (inr (st', bi', leo'), h') ->
    exists slots, extends (st, bi) (st', bi') slots).
  { destruct (negb ext).
    - intro H. injection H as <- <- _ _. exists []. apply extends_refl.
    - intro H. apply bind_inr in H. destruct H as (v & h1 & _ & H).
      destruct (v <? 0x1000).
      + apply bind_inr in H. destruct H as (s1 & h2 & E1 & H).
        apply bind_inr in H. destruct H as (s2 & h3 & E2 & H).
        apply bind_inr in H. destruct H as (s3 & h4 & E3 & H).
        injection H as <- <- _ _.
        destruct (emits_for_range (append_id "strong_ptr_") StrongPointer
                    (Z.to_nat (Z.land (Z.shiftr v 8) 0xf)) emits_strong
                    (st, bi) h1) as (s1' & h2' & E1' & _ & X1).
        rewrite E1 in E1'. injection E1' as <- <-.
        destruct (emits_for_range append_byref ByrefPointer
                    (Z.to_nat (Z.land (Z.shiftr v 4) 0xf)) emits_append_byref
                    s1 h2) as (s2' & h3' & E2' & _ & X2).
        rewrite E2 in E2'. injection E2' as <- <-.
        destruct (emits_for_range (append_id "weak_ptr_") WeakPointer
                    (Z.to_nat (Z.land v 0xf)) emits_weak
                    s2 h3) as (s3' & h4' & E3' & _ & X3).
        rewrite E3 in E3'. injection E3' as <- <-.
        eexists. destruct s3 as [a b]. cbn [fst snd].
        eapply extends_trans; [eapply extends_trans|]; eassumption.
      + apply bind_inr in H. destruct H as ([s1 off] & h2 & E1 & H).
        injection H as <- <- _ _.
        apply layout_bytecode_loop_extends in E1.
        destruct E1 as ((slots & X) & _). exists slots.
        destruct s1 as [a b]. exact X. }
  destruct layout as [[| |]|]; try exact G.
  intro H. injection H as <- <- _ _. exists []. apply extends_refl.
Qed.

Lemma byref_positions_In slots :
  forall start i,
    In i (byref_positions start slots) <->
    exists j, i = Z.of_nat (start + j) /\
              nth_error slots j = Some ByrefPointer.
Proof.
  induction slots as [|x slots IH]; intros start i; cbn.
  - split; [intros [] | intros (j & _ & H); destruct j; discriminate H].
  - assert (Hrest : In i (byref_positions (S start) slots) <->
                    exists j, i = Z.of_nat (start + S j) /\
                              nth_error slots j = Some ByrefPointer).
    { rewrite IH. split; intros (j & Hi & Hj); exists j;
        (split; [|exact Hj]); rewrite Hi; f_equal; lia. }
    assert (Htail : forall P : Prop,
              (P <-> exists j, i = Z.of_nat (start + S j) /\
                               nth_error slots j = Some ByrefPointer) ->
              x <> ByrefPointer ->
              (P <-> exists j, i = Z.of_nat (start + j) /\
                               nth_error (x :: slots) j = Some ByrefPointer)).
    { intros P HP Hx. rewrite HP. split.
      - intros (j & Hi & Hj). exists (S j). split; assumption.
      - intros ([|j] & Hi & Hj).
        + cbn in Hj. injection Hj as Hj. contradiction.
        + exists j. split; assumption. }
    destruct x; try (apply Htail; [exact Hrest | discriminate]).
    cbn [In]. split.
    + intros [<-|H].
      * exists 0%nat. split; [f_equal; lia | reflexivity].
      * apply Hrest in H. destruct H as (j & Hi & Hj).
        exists (S j). split; assumption.
    + intros ([|j] & Hi & Hj).
      * left. rewrite Hi. f_equal. lia.
      * right. apply Hrest. exists j. split; assumption.
Qed.

(** X13. The structure [annotate_literal] builds is packed and begins with
    the five header members [isa], [flags], [reserved], [invoke] and
    [descriptor]; every member after them is a slot of the layout.  Without
    imported variables (size 0x20) nothing follows the header and the layout
    is not even looked at.  Otherwise [byref_indexes] holds exactly the
    indexes of the members that are byref pointers (type [id], name
    beginning with [byref_ptr_]): the later pass over the byref cells finds
    such a member at every index it is given. *)
Theorem literal_struct_shape :
  forall bv self bd h struct self' bd' h',
    literal_struct bv self bd h = (inr (struct, self', bd'), h') ->
    sb_packed struct = true /\
    exists news,
      sb_members struct = sb_members literal_fixed_header ++ news /\
      Forall (fun m => member_slot m <> None) news /\
      (imported_variables_size bd <= 0 ->
       news = [] /\ self' = self /\ bd' = bd) /\
      (0 < imported_variables_size bd ->
       exists l,
         bl_byref_indexes self' = Bound l /\
         forall i,
           In i l <->
           exists n m, i = Z.of_nat n /\
                       nth_error (sb_members struct) n = Some m /\
                       member_slot m = Some ByrefPointer).
Proof.
  intros bv self bd h struct self' bd' h' H.
  unfold literal_struct in H.
  destruct (returns_get_objc_type_Class h) as (h1 & E1 & _).
  rewrite (bind_eq _ _ _ _ _ E1) in H.
  destruct (returns_get_libclosure_type "BlockInvokeFunction" eq_refl h1)
    as (h2 & E2 & _).
  rewrite (bind_eq _ _ _ _ _ E2) in H.
  destruct (returns_get_libclosure_type "Block_descriptor_1" eq_refl h2)
    as (h3 & E3 & _).
  rewrite (bind_eq _ _ _ _ _ E3) in H.
  change (sb_append _ (TPointer (source_type "Block_descriptor_1"))
            "descriptor") with literal_fixed_header in H.
  destruct (Z.ltb_spec 0 (imported_variables_size bd)) as [Hpos|Hle].
  - apply bind_inr in H. destruct H as (layout & h4 & _ & H).
    apply bind_inr in H. destruct H as ([[st bi] leo] & h5 & A & H).
    injection H as <- <- _ _.
    apply append_layout_fields_extends in A.
    destruct A as (slots & news & Hm & Hs & Hp & Hb).
    cbn [fst snd] in *.
    split; [rewrite Hp; reflexivity|].
    exists news. split; [exact Hm|]. split.
    + apply Forall_forall. intros m Hin Hnone.
      apply (in_map member_slot) in Hin. rewrite Hs in Hin.
      apply in_map_iff in Hin. rewrite Hnone in Hin. destruct Hin as (x & Hx & _). discriminate Hx.
    + split; [intro; lia|]. intros _.
      rewrite Hb. cbn [option_map app set_byref_indexes bl_byref_indexes].
      eexists. split; [reflexivity|]. intro i.
      rewrite byref_positions_In. rewrite Hm. split.
      * intros (j & Hi & Hj).
        assert (Hn : nth_error (map member_slot news) j
                     = Some (Some ByrefPointer)).
        { rewrite Hs, nth_error_map, Hj. reflexivity. }
        rewrite nth_error_map in Hn.
        destruct (nth_error news j) as [m|] eqn:En; [|discriminate Hn].
        injection Hn as Hn.
        exists (List.length (sb_members literal_fixed_header) + j)%nat, m.
        split; [exact Hi|]. split; [|exact Hn].
        rewrite nth_error_app2 by lia.
        replace (_ + j - _)%nat with j by lia. exact En.
      * intros (n & m & Hi & Hn & Hsl).
        destruct (Nat.lt_ge_cases n
                    (List.length (sb_members literal_fixed_header)))
          as [Hlt|Hge].
        -- exfalso. rewrite nth_error_app1 in Hn by exact Hlt.
           apply nth_error_In in Hn. cbn in Hn.
           repeat (destruct Hn as [<-|Hn]; [discriminate Hsl|]).
           contradiction Hn.
        -- rewrite nth_error_app2 in Hn by exact Hge.
           exists (n - List.length (sb_members literal_fixed_header))%nat.
           split; [rewrite Hi; f_equal; lia|].
           assert (Hn' : nth_error (map member_slot news)
                           (n - List.length
                                  (sb_members literal_fixed_header))
                         = Some (Some ByrefPointer)).
           { rewrite nth_error_map, Hn. cbn [option_map]. rewrite Hsl.
             reflexivity. }
           rewrite Hs, nth_error_map in Hn'.
           destruct (nth_error slots _) as [x|]; [|discriminate Hn'].
           injection Hn' as ->. reflexivity.
  - injection H as <- <- <- _.
    split; [reflexivity|]. exists [].
    split; [rewrite app_nil_r; reflexivity|].
    split; [constructor|]. split; [intros _; repeat split | intro; lia].
Qed.

Lemma literal_struct_shape_witness :
  exists struct self' bd' h' l,
    literal_struct (byref_view var_a var_b) annotated_literal
      {| bd_address := 0x5000; bd_block_flags := 0xc0000000;
         bd_reserved := Some 0; bd_size := 0x30;
         bd_copy := None; bd_dispose := None;
         bd_signature := Bound (Some 0); bd_signature_raw := Bound None;
         bd_layout := Bound (Some 0x20);
         bd_layout_end := Unset; bd_struct_builder := Unset;
         bd_struct_name := Unset; bd_struct_type_name := Unset;
         bd_struct_type := Unset |} empty_host
    = (inr (struct, self', bd'), h') /\
    sb_packed struct = true /\
    bl_byref_indexes self' = Bound l /\
    (In 5 l <->
     exists n m, 5 = Z.of_nat n /\
                 nth_error (sb_members struct) n = Some m /\
                 member_slot m = Some ByrefPointer).
Proof.
  destruct (literal_struct (byref_view var_a var_b) annotated_literal
              {| bd_address := 0x5000; bd_block_flags := 0xc0000000;
                 bd_reserved := Some 0; bd_size := 0x30;
                 bd_copy := None; bd_dispose := None;
                 bd_signature := Bound (Some 0);
                 bd_signature_raw := Bound None;
                 bd_layout := Bound (Some 0x20);
                 bd_layout_end := Unset; bd_struct_builder := Unset;
                 bd_struct_name := Unset; bd_struct_type_name := Unset;
                 bd_struct_type := Unset |} empty_host)
    as [[e|[[struct self'] bd']] h'] eqn:E;
    [vm_compute in E; discriminate E|].
  destruct (literal_struct_shape _ _ _ _ _ _ _ _ E)
    as (Hp & news & _ & _ & _ & Hl).
  destruct Hl as (l & Hl & Hiff); [reflexivity|].
  exists struct, self', bd', h', l.
  split; [reflexivity|]. split; [exact Hp|]. split; [exact Hl|]. apply Hiff.
Defined.

(** ** The structure of a descriptor *)

Lemma BlockDescriptor_init_reads bv addr flags bd br :
  BlockDescriptor_init bv (Some addr) (Some flags) = (inr bd, br) ->
  (block_has_copy_dispose bd = true ->
   bd_copy bd <> None /\ bd_dispose bd <> None) ->
  (block_has_signature bd = true -> bd_layout bd <> Bound None) ->
  bd_address bd = addr /\ bd_block_flags bd = flags /\
  br_offset br
  = addr + 16
    + (if block_has_copy_dispose bd then 16 else 0)
    + (if block_has_signature bd then 16 else 0).
Proof.
  unfold BlockDescriptor_init, br_read64, br_read, br_seek.
  cbn [br_offset].
  repeat
    (match goal with
     | |- context [read_le ?b ?o ?n] => destruct (read_le b o n) as [?v|] eqn:?
     | |- context [flag_set flags ?m] => destruct (flag_set flags m) eqn:?
     | |- context [get_ascii_string_at ?b ?o] =>
         destruct (get_ascii_string_at b o)
     | |- context [negb (32 <=? ?z)] => destruct (negb (32 <=? z))
     | |- context [match ?z with 0 => _ | Z.pos _ => _ | Z.neg _ => _ end] =>
         is_var z; destruct z
     end; cbn [br_offset]);
    intros H Hcd Hsig; try discriminate H;
    injection H as <- <-;
    unfold block_has_copy_dispose, block_has_signature in *;
    cbn [bd_address bd_block_flags bd_copy bd_dispose bd_layout br_offset]
      in *;
    repeat match goal with
           | E : flag_set _ _ = _ |- _ => rewrite E in *; clear E
           end;
    try (exfalso; destruct (Hcd eq_refl) as [Hc Hd];
         (apply Hc; reflexivity) || (apply Hd; reflexivity));
    try (exfalso; apply (Hsig eq_refl); reflexivity);
    try congruence;
    (split; [reflexivity|]; split; [reflexivity|]; lia).
Qed.

Lemma returns_value {A} (m : M A) a h b h' :
  returns m a -> m h = (inr b, h') -> b = a.
Proof.
  intros R E. destruct (R h) as (h1 & E1 & _).
  rewrite E1 in E. injection E as <- _. reflexivity.
Qed.

Lemma annotate_descriptor_struct self bl h self' bl' h' :
  annotate_descriptor self bl h = (inr (self', bl'), h') ->
  exists st,
    bd_struct_builder self' = Bound st /\
    map m_name (sb_members st) = descriptor_field_names self /\
    laid_out_from 0 (sb_members st) /\
    sb_width st
    = 16 + (if block_has_copy_dispose self then 16 else 0)
      + (if block_has_signature self then 16 else 0) /\
    In (("Block_descriptor_" ++ hex (bd_address self))%string, st)
      (h_types h').
Proof.
  unfold annotate_descriptor, descriptor_field_names. intro H.
  apply bind_inr in H. destruct H as (st1 & h1 & E1 & H).
  apply bind_inr in H. destruct H as (st2 & h2 & E2 & H).
  apply bind_inr in H. destruct H as ([] & h3 & E3 & H).
  apply bind_inr in H. destruct H as ([] & h4 & E4 & H).
  apply bind_inr in H. destruct H as (bls & h5 & E5 & H).
  destruct (sb_index_by_name bls "descriptor") as [i|]; [|discriminate H].
  apply bind_inr in H. destruct H as (bln & h6 & E6 & H).
  apply bind_inr in H. destruct H as ([] & h7 & E7 & H).
  injection H as <- <- <-.
  assert (T : In (("Block_descriptor_" ++ hex (bd_address self))%string, st2)
                (h_types h7)).
  { cbv [define_type modify] in E3. injection E3 as <-.
    cbv [make_data_var modify] in E4. injection E4 as <-.
    destruct (bl_struct_builder bl); [discriminate E5|].
    injection E5 as _ <-.
    destruct (bl_struct_name bl); [discriminate E6|].
    injection E6 as _ <-.
    cbv [define_type modify] in E7. injection E7 as <-.
    right. left. reflexivity. }
  exists st2. split; [reflexivity|].
  assert (S1 : st1 =
    if block_has_copy_dispose self then
      sb_append
        (sb_append
           (sb_append (sb_append (sb_create false) TUInt64 "reserved")
              TUInt64 "size")
           (TLibclosure "BlockCopyFunction") "copy")
        (TLibclosure "BlockDisposeFunction") "dispose"
    else sb_append (sb_append (sb_create false) TUInt64 "reserved")
           TUInt64 "size").
  { destruct (block_has_copy_dispose self).
    - refine (returns_value _ _ _ _ _ _ E1).
      eapply returns_bind;
        [apply (returns_get_libclosure_type "BlockCopyFunction");
         reflexivity|].
      eapply returns_bind;
        [apply (returns_get_libclosure_type "BlockDisposeFunction");
         reflexivity|].
      apply returns_ret.
    - injection E1 as <- _. reflexivity. }
  assert (S2 :
    if block_has_signature self then
      exists t, (t = TVoidPtr \/ t = TUInt64 \/ t = TUInt8ConstPtr) /\
                st2 = sb_append (sb_append st1 TCharConstPtr "signature")
                        t "layout"
    else st2 = st1).
  { destruct (block_has_signature self).
    - apply bind_inr in E2. destruct E2 as (layout & ha & _ & E2).
      assert (G :
        (if block_has_extended_layout self then
           layout <- need_int layout;;
           if layout <? 0x1000
           then ret (sb_append (sb_append st1 TCharConstPtr "signature")
                       TUInt64 "layout")
           else ret (sb_append (sb_append st1 TCharConstPtr "signature")
                       TUInt8ConstPtr "layout")
         else ret (sb_append (sb_append st1 TCharConstPtr "signature")
                     TVoidPtr "layout")) ha = (inr st2, h2) ->
        exists t, (t = TVoidPtr \/ t = TUInt64 \/ t = TUInt8ConstPtr) /\
                  st2 = sb_append (sb_append st1 TCharConstPtr "signature")
                          t "layout").
      { destruct (block_has_extended_layout self).
        - intro G. apply bind_inr in G. destruct G as (v & hb & _ & G).
          destruct (v <? 0x1000); injection G as <- _; eexists;
            (split; [|reflexivity]); auto.
        - intro G. injection G as <- _. eexists.
          split; [|reflexivity]. auto. }
      destruct layout as [[| |]|]; try exact (G E2).
      injection E2 as <- _. eexists. split; [|reflexivity]. auto.
    - injection E2 as <- _. reflexivity. }
  split; [|split; [|split; [|exact T]]];
    destruct (block_has_copy_dispose self), (block_has_signature self);
    subst st1;
    try (destruct S2 as (t & [->| [->| ->]] & ->));
    try subst st2; vm_compute; repeat split.
Qed.

(** X14. The structure [annotate_descriptor] defines for a descriptor that
    [BlockDescriptor.__init__] read spans exactly the bytes the constructor
    consumed, when every field it read had a value: the members are
    [reserved] and [size], then [copy] and [dispose] with
    BLOCK_HAS_COPY_DISPOSE, then [signature] and [layout] with
    BLOCK_HAS_SIGNATURE; they follow one another without padding from offset
    0, and the address plus the width of the structure is the offset the
    reader stopped at.  The structure is registered under
    [Block_descriptor_<address>]. *)
Theorem descriptor_struct_spans_the_read :
  forall bv addr flags bd br bl h bd' bl' h',
    BlockDescriptor_init bv (Some addr) (Some flags) = (inr bd, br) ->
    (block_has_copy_dispose bd = true ->
     bd_copy bd <> None /\ bd_dispose bd <> None) ->
    (block_has_signature bd = true -> bd_layout bd <> Bound None) ->
    annotate_descriptor bd bl h = (inr (bd', bl'), h') ->
    exists st,
      bd_struct_builder bd' = Bound st /\
      map m_name (sb_members st) = descriptor_field_names bd /\
      laid_out_from 0 (sb_members st) /\
      addr + sb_width st = br_offset br /\
      In (("Block_descriptor_" ++ hex addr)%string, st) (h_types h').
Proof.
  intros bv addr flags bd br bl h bd' bl' h' Hinit Hcd Hsig Hann.
  destruct (BlockDescriptor_init_reads _ _ _ _ _ Hinit Hcd Hsig)
    as (Ha & _ & Hoff).
  destruct (annotate_descriptor_struct _ _ _ _ _ _ Hann)
    as (st & Hst & Hnames & Hlaid & Hw & Ht).
  exists st. rewrite Ha in Ht.
  split; [exact Hst|]. split; [exact Hnames|]. split; [exact Hlaid|].
  split; [rewrite Hw, Hoff; lia | exact Ht].
Qed.

Lemma descriptor_struct_spans_the_read_witness :
  exists bd br bd' bl' h' st,
    BlockDescriptor_init global_image (Some 0x3000) (Some 0x50000000)
    = (inr bd, br) /\
    annotate_descriptor bd
      (set_bl_struct global_literal literal_fixed_header "Block_literal_2fe0"
         "struct Block_literal_2fe0" (TStruct "Block_literal_2fe0"))
      empty_host
    = (inr (bd', bl'), h') /\
    bd_struct_builder bd' = Bound st /\
    map m_name (sb_members st)
    = ["reserved"; "size"; "signature"; "layout"]%string /\
    0x3000 + sb_width st = br_offset br.
Proof.
  destruct (BlockDescriptor_init global_image (Some 0x3000) (Some 0x50000000))
    as [[e|bd] br] eqn:Einit; [vm_compute in Einit; discriminate Einit|].
  destruct (annotate_descriptor bd
              (set_bl_struct global_literal literal_fixed_header
                 "Block_literal_2fe0" "struct Block_literal_2fe0"
                 (TStruct "Block_literal_2fe0")) empty_host)
    as [[e|[bd' bl']] h'] eqn:Eann.
  { exfalso. vm_compute in Einit. injection Einit as <- _.
    vm_compute in Eann. discriminate Eann. }
  assert (Hbd : bd = signed_descriptor 0x50000000).
  { vm_compute in Einit. injection Einit as <- _. reflexivity. }
  assert (Hcd : block_has_copy_dispose bd = true ->
                bd_copy bd <> None /\ bd_dispose bd <> None).
  { rewrite Hbd. intro C. discriminate C. }
  assert (Hsig : block_has_signature bd = true -> bd_layout bd <> Bound None).
  { rewrite Hbd. intros _ C. discriminate C. }
  destruct (descriptor_struct_spans_the_read _ _ _ _ _ _ _ _ _ _
              Einit Hcd Hsig Eann) as (st & Hst & Hnames & _ & Hw & _).
  exists bd, br, bd', bl', h', st.
  split; [reflexivity|]. split; [exact Eann|]. split; [exact Hst|].
  split; [rewrite Hnames, Hbd; reflexivity | exact Hw].
Defined.

(** ** The data variable over the layout bytecode *)

Lemma annotate_literal_struct bv self bd h self' bd' h1 :
  annotate_literal bv self bd h = (inr (self', bd'), h1) ->
  exists st self0 h0,
    literal_struct bv self bd h = (inr (st, self0, bd'), h0).
Proof.
  unfold annotate_literal. intro H.
  apply bind_inr in H. destruct H as ([[st self0] bd0] & h0 & E & H).
  exists st, self0, h0. rewrite E. do 3 f_equal.
  apply bind_inr in H. destruct H as ([] & ha & _ & H).
  cbn [is_stack_block set_bl_struct] in H.
  destruct (is_stack_block self0).
  - apply bind_inr in H. destruct H as (stack_var & hb & _ & H).
    apply bind_inr in H. destruct H as (hc & hd & _ & H).
    match type of H with
    | (if ?c then _ else _) _ = _ => destruct c
    end.
    + apply bind_inr in H. destruct H as ([] & he & _ & H).
      injection H as _ <- _. reflexivity.
    + apply bind_inr in H. destruct H as ([] & he & _ & H).
      apply bind_inr in H. destruct H as ([] & hf & _ & H).
      apply bind_inr in H. destruct H as (insn & hg & _ & H).
      apply bind_inr in H. destruct H as ([] & hi & _ & H).
      injection H as _ <- _. reflexivity.
  - apply bind_inr in H. destruct H as ([] & hb & _ & H).
    apply bind_inr in H. destruct H as ([] & hc & _ & H).
    injection H as _ <- _. reflexivity.
Qed.

Lemma BlockDescriptor_init_fresh bv addr flags bd br :
  BlockDescriptor_init bv addr flags = (inr bd, br) ->
  bd_layout_end bd = Unset /\ 0x20 <= bd_size bd.
Proof.
  unfold BlockDescriptor_init, br_read64, br_read, br_seek.
  destruct addr as [addr|]; [|intro H; discriminate H].
  destruct flags as [flags|];
  repeat
    (match goal with
     | |- context [read_le ?b ?o ?n] => destruct (read_le b o n) as [?v|] eqn:?
     | |- context [flag_set flags ?m] => destruct (flag_set flags m) eqn:?
     | |- context [get_ascii_string_at ?b ?o] =>
         destruct (get_ascii_string_at b o)
     | |- context [negb (32 <=? ?z)] =>
         destruct (Z.leb_spec 32 z) as [?Hle|?Hlt]
     | |- context [match ?z with 0 => _ | Z.pos _ => _ | Z.neg _ => _ end] =>
         is_var z; destruct z
     end; cbn [br_offset negb]);
    intros H; try discriminate H;
    injection H as <- _; cbn [bd_layout_end bd_size]; split;
    solve [reflexivity | assumption].
Qed.

Lemma literal_struct_layout_end bv self bd h st self' bd' h1 layout pre t rest :
  literal_struct bv self bd h = (inr (st, self', bd'), h1) ->
  0 < imported_variables_size bd ->
  block_has_extended_layout bd = true ->
  bd_layout bd = Bound (Some layout) ->
  0x1000 <= layout ->
  bytes_from bv layout = pre ++ t :: rest ->
  Forall (fun b => 1 <= opcode_of b <= 6) pre ->
  opcode_of t = 0 \/ 7 <= opcode_of t ->
  bd' = set_layout_end bd (layout + Z.of_nat (List.length pre) + 1).
Proof.
  intros H Hpos Hext Hlayout Hbig Hbytes Hpre Ht.
  unfold literal_struct in H.
  destruct (returns_get_objc_type_Class h) as (h2 & E1 & _).
  rewrite (bind_eq _ _ _ _ _ E1) in H.
  destruct (returns_get_libclosure_type "BlockInvokeFunction" eq_refl h2)
    as (h3 & E2 & _).
  rewrite (bind_eq _ _ _ _ _ E2) in H.
  destruct (returns_get_libclosure_type "Block_descriptor_1" eq_refl h3)
    as (h4 & E3 & _).
  rewrite (bind_eq _ _ _ _ _ E3) in H.
  apply Z.ltb_lt in Hpos. rewrite Hpos, Hlayout, Hext in H.
  apply bind_inr in H. destruct H as (l & h5 & El & H).
  injection El as <- <-.
  apply bind_inr in H. destruct H as ([[st0 bi] leo] & h6 & A & H).
  injection H as _ _ <- _.
  unfold append_layout_fields in A.
  destruct layout as [|p|p]; try lia.
  cbn [negb need_int] in A.
  apply bind_inr in A. destruct A as (l & h7 & El & A).
  injection El as <- <-.
  destruct (Z.ltb_spec (Z.pos p) 0x1000) as [C|_]; [lia|].
  rewrite Hbytes in A.
  match type of A with
  | bind (layout_bytecode_loop _ _ ?s) _ _ = _ =>
      destruct (layout_bytecode_loop_spec pre t rest Hpre Ht (Z.pos p) s h4)
        as (s' & h8 & E & _)
  end.
  rewrite (bind_eq _ _ _ _ _ E) in A.
  injection A as _ _ <- _. reflexivity.
Qed.

Lemma bind_ret_l {A B} (a : A) (k : A -> M B) h : bind (ret a) k h = k a h.
Proof. reflexivity. Qed.

Lemma annotate_descriptor_keeps self bl h self' bl' h' :
  annotate_descriptor self bl h = (inr (self', bl'), h') ->
  bd_block_flags self' = bd_block_flags self /\
  bd_layout self' = bd_layout self /\
  bd_layout_end self' = bd_layout_end self.
Proof.
  unfold annotate_descriptor. intro H.
  apply bind_inr in H. destruct H as (st1 & h1 & _ & H).
  apply bind_inr in H. destruct H as (st2 & h2 & _ & H).
  apply bind_inr in H. destruct H as ([] & h3 & _ & H).
  apply bind_inr in H. destruct H as ([] & h4 & _ & H).
  apply bind_inr in H. destruct H as (bls & h5 & _ & H).
  destruct (sb_index_by_name bls "descriptor") as [i|]; [|discriminate H].
  apply bind_inr in H. destruct H as (bln & h6 & _ & H).
  apply bind_inr in H. destruct H as ([] & h7 & _ & H).
  injection H as <- _ _. repeat split.
Qed.

(** X15. With imported variables (size above 0x20), BLOCK_HAS_SIGNATURE,
    BLOCK_HAS_EXTENDED_LAYOUT and a layout field that is an address (0x1000
    or more), the calls [annotate_literal], [annotate_descriptor],
    [annotate_layout_bytecode] in the order the plugin makes them end with a
    data variable at the layout address, named [block_layout_<address>], of
    type [uint8_t [n]] where [n] counts the bytes of the bytecode through its
    terminator: the operations with opcode 1 to 6 and the one byte that
    ends them. *)
Theorem layout_bytecode_array_spans_the_bytecode :
  forall bv self bd h self' bd' h1 bd'' bl'' h2 layout pre t rest,
    0x20 < bd_size bd ->
    block_has_signature bd = true ->
    block_has_extended_layout bd = true ->
    bd_layout bd = Bound (Some layout) ->
    0x1000 <= layout ->
    bytes_from bv layout = pre ++ t :: rest ->
    Forall (fun b => 1 <= opcode_of b <= 6) pre ->
    opcode_of t = 0 \/ 7 <= opcode_of t ->
    annotate_literal bv self bd h = (inr (self', bd'), h1) ->
    annotate_descriptor bd' self' h1 = (inr (bd'', bl''), h2) ->
    exists h3,
      annotate_layout_bytecode bl'' bd'' h2 = (inr tt, h3) /\
      get_data_var_at h3 layout
      = Some {| dv_address := layout;
                dv_name := ("block_layout_" ++ hex layout)%string;
                dv_type := TUInt8Array (Z.of_nat (List.length pre) + 1) |}.
Proof.
  intros bv self bd h self' bd' h1 bd'' bl'' h2 layout pre t rest
    Hsize Hsig Hext Hlayout Hbig Hbytes Hpre Ht Hlit Hdesc.
  destruct (annotate_literal_struct _ _ _ _ _ _ _ Hlit)
    as (st & self0 & h0 & Hst).
  assert (Hbd' : bd' = set_layout_end bd
                         (layout + Z.of_nat (List.length pre) + 1)).
  { eapply literal_struct_layout_end; try eassumption.
    unfold imported_variables_size. lia. }
  destruct (annotate_descriptor_keeps _ _ _ _ _ _ Hdesc)
    as (Hf & Hl & He).
  rewrite Hbd' in Hf, Hl, He.
  cbn [set_layout_end bd_block_flags bd_layout bd_layout_end] in Hf, Hl, He.
  unfold annotate_layout_bytecode.
  unfold block_has_signature, block_has_extended_layout in *.
  rewrite Hf, Hsig, Hext, Hl, Hlayout, He.
  cbn [andb getattr].
  rewrite bind_ret_l. cbn beta. cbn [need_int].
  rewrite bind_ret_l. cbn beta.
  destruct (Z.leb_spec 0x1000 layout) as [_|C]; [|lia].
  rewrite bind_ret_l. cbn beta.
  replace (layout + Z.of_nat (List.length pre) + 1 - layout)
    with (Z.of_nat (List.length pre) + 1) by lia.
  eexists. split; [reflexivity|].
  unfold get_data_var_at, update_data_vars. cbn [h_data_vars find dv_address].
  rewrite Z.eqb_refl. reflexivity.
Qed.

Lemma layout_bytecode_array_spans_the_bytecode_witness :
  exists self' bd' h1 bd'' bl'' h2 h3,
    annotate_literal (bytecode_image 0x38) bytecode_literal
      {| bd_address := 0x3000; bd_block_flags := 0xd0000000;
         bd_reserved := Some 0; bd_size := 0x38;
         bd_copy := None; bd_dispose := None;
         bd_signature := Bound (Some 0); bd_signature_raw := Bound None;
         bd_layout := Bound (Some 0x3020);
         bd_layout_end := Unset; bd_struct_builder := Unset;
         bd_struct_name := Unset; bd_struct_type_name := Unset;
         bd_struct_type := Unset |} scenario_host
    = (inr (self', bd'), h1) /\
    annotate_descriptor bd' self' h1 = (inr (bd'', bl''), h2) /\
    annotate_layout_bytecode bl'' bd'' h2 = (inr tt, h3) /\
    get_data_var_at h3 0x3020
    = Some {| dv_address := 0x3020; dv_name := "block_layout_3020";
              dv_type := TUInt8Array 3 |}.
Proof.
  set (bd := {| bd_address := 0x3000; bd_block_flags := 0xd0000000;
                bd_reserved := Some 0; bd_size := 0x38;
                bd_copy := None; bd_dispose := None;
                bd_signature := Bound (Some 0);
                bd_signature_raw := Bound None;
                bd_layout := Bound (Some 0x3020);
                bd_layout_end := Unset; bd_struct_builder := Unset;
                bd_struct_name := Unset; bd_struct_type_name := Unset;
                bd_struct_type := Unset |}).
  destruct (annotate_literal (bytecode_image 0x38) bytecode_literal bd
              scenario_host)
    as [[e|[self' bd']] h1] eqn:E1; [vm_compute in E1; discriminate E1|].
  destruct (annotate_descriptor bd' self' h1)
    as [[e|[bd'' bl'']] h2] eqn:E2.
  { exfalso. vm_compute in E1. injection E1 as <- <- <-.
    vm_compute in E2. discriminate E2. }
  assert (Hsize : 0x20 < bd_size bd) by (cbn; lia).
  assert (Hpre : Forall (fun b => 1 <= opcode_of b <= 6)
                   [byte_of_Z 0x32; byte_of_Z 0x41])
    by (repeat constructor; vm_compute; discriminate).
  destruct (layout_bytecode_array_spans_the_bytecode
              (bytecode_image 0x38) bytecode_literal bd scenario_host
              self' bd' h1 bd'' bl'' h2 0x3020
              [byte_of_Z 0x32; byte_of_Z 0x41] (byte_of_Z 0) []
              Hsize eq_refl eq_refl eq_refl ltac:(lia) eq_refl
              Hpre (or_introl eq_refl) E1 E2)
    as (h3 & E3 & Hdv).
  exists self', bd', h1, bd'', bl'', h2, h3.
  split; [reflexivity|]. split; [exact E2|]. split; [exact E3|exact Hdv].
Defined.

Lemma literal_struct_without_imports bv self bd h st self' bd' h1 :
  literal_struct bv self bd h = (inr (st, self', bd'), h1) ->
  imported_variables_size bd <= 0 ->
  st = literal_fixed_header /\ self' = self /\ bd' = bd.
Proof.
  intros H Hle. unfold literal_struct in H.
  destruct (returns_get_objc_type_Class h) as (h2 & E1 & _).
  rewrite (bind_eq _ _ _ _ _ E1) in H.
  destruct (returns_get_libclosure_type "BlockInvokeFunction" eq_refl h2)
    as (h3 & E2 & _).
  rewrite (bind_eq _ _ _ _ _ E2) in H.
  destruct (returns_get_libclosure_type "Block_descriptor_1" eq_refl h3)
    as (h4 & E3 & _).
  rewrite (bind_eq _ _ _ _ _ E3) in H.
  destruct (Z.ltb_spec 0 (imported_variables_size bd)) as [C|_]; [lia|].
  injection H as <- <- <- _. repeat split.
Qed.

(** X16. A descriptor that says 0x20 for the size (no imported variables),
    with BLOCK_HAS_SIGNATURE, BLOCK_HAS_EXTENDED_LAYOUT and a layout field
    that is an address (0x1000 or more): [annotate_literal] does not look at
    the layout, so nothing gives [layout_end] a value, and after
    [annotate_literal] and [annotate_descriptor] the call of
    [annotate_layout_bytecode] raises AttributeError on [bd.layout_end],
    leaving the host as it was. *)
Theorem layout_bytecode_without_imported_variables :
  forall bv addr flags bd br self h self' bd' h1 bd'' bl'' h2 layout,
    BlockDescriptor_init bv addr flags = (inr bd, br) ->
    bd_size bd = 0x20 ->
    block_has_signature bd = true ->
    block_has_extended_layout bd = true ->
    bd_layout bd = Bound (Some layout) ->
    0x1000 <= layout ->
    annotate_literal bv self bd h = (inr (self', bd'), h1) ->
    annotate_descriptor bd' self' h1 = (inr (bd'', bl''), h2) ->
    annotate_layout_bytecode bl'' bd'' h2
    = (inl (AttributeError "layout_end"), h2).
Proof.
  intros bv addr flags bd br self h self' bd' h1 bd'' bl'' h2 layout
    Hinit Hsize Hsig Hext Hlayout Hbig Hlit Hdesc.
  destruct (BlockDescriptor_init_fresh _ _ _ _ _ Hinit) as (Hend & _).
  destruct (annotate_literal_struct _ _ _ _ _ _ _ Hlit)
    as (st & self0 & h0 & Hst).
  destruct (literal_struct_without_imports _ _ _ _ _ _ _ _ Hst)
    as (_ & _ & Hbd'); [unfold imported_variables_size; lia|].
  destruct (annotate_descriptor_keeps _ _ _ _ _ _ Hdesc)
    as (Hf & Hl & He).
  rewrite Hbd' in Hf, Hl, He.
  unfold annotate_layout_bytecode.
  unfold block_has_signature, block_has_extended_layout in *.
  rewrite Hf, Hsig, Hext, Hl, Hlayout, He, Hend.
  cbn [andb getattr].
  rewrite bind_ret_l. cbn beta. cbn [need_int].
  rewrite bind_ret_l. cbn beta.
  destruct (Z.leb_spec 0x1000 layout) as [_|C]; [|lia].
  reflexivity.
Qed.

Lemma layout_bytecode_without_imported_variables_witness :
  exists bd br self' bd' h1 bd'' bl'' h2,
    BlockDescriptor_init (bytecode_image 0x20) (Some 0x3000)
      (Some 0xd0000000) = (inr bd, br) /\
    annotate_literal (bytecode_image 0x20) bytecode_literal bd scenario_host
    = (inr (self', bd'), h1) /\
    annotate_descriptor bd' self' h1 = (inr (bd'', bl''), h2) /\
    annotate_layout_bytecode bl'' bd'' h2
    = (inl (AttributeError "layout_end"), h2).
Proof.
  destruct (BlockDescriptor_init (bytecode_image 0x20) (Some 0x3000)
              (Some 0xd0000000))
    as [[e|bd] br] eqn:E0; [vm_compute in E0; discriminate E0|].
  assert (Hbd : bd =
      {| bd_address := 0x3000; bd_block_flags := 0xd0000000;
         bd_reserved := Some 0; bd_size := 0x20;
         bd_copy := None; bd_dispose := None;
         bd_signature := Bound (Some 0); bd_signature_raw := Bound None;
         bd_layout := Bound (Some 0x3020);
         bd_layout_end := Unset; bd_struct_builder := Unset;
         bd_struct_name := Unset; bd_struct_type_name := Unset;
         bd_struct_type := Unset |}).
  { vm_compute in E0. injection E0 as <- _. reflexivity. }
  destruct (annotate_literal (bytecode_image 0x20) bytecode_literal bd
              scenario_host)
    as [[e|[self' bd']] h1] eqn:E1;
    [rewrite Hbd in E1; vm_compute in E1; discriminate E1|].
  destruct (annotate_descriptor bd' self' h1)
    as [[e|[bd'' bl'']] h2] eqn:E2.
  { exfalso. rewrite Hbd in E1. vm_compute in E1. injection E1 as <- <- <-.
    vm_compute in E2. discriminate E2. }
  exists bd, br, self', bd', h1, bd'', bl'', h2.
  split; [reflexivity|]. split; [exact E1|]. split; [exact E2|].
  apply (layout_bytecode_without_imported_variables
           (bytecode_image 0x20) (Some 0x3000) (Some 0xd0000000)
           bd br bytecode_literal scenario_host self' bd' h1 bd'' bl'' h2
           0x3020 E0);
    try (rewrite Hbd; reflexivity); try lia; assumption.
Defined.

(** ** The names of the functions *)

Lemma names_kept_refl h : names_kept h h.
Proof.
  unfold names_kept. induction (h_funcs h) as [|f l IH]; constructor; auto.
Qed.

Lemma names_kept_starts h h' :
  names_kept h h' -> map f_start (h_funcs h') = map f_start (h_funcs h).
Proof.
  unfold names_kept. induction 1 as [|f f' l l' [Hs _] _ IH];
    [reflexivity | cbn; rewrite Hs, IH; reflexivity].
Qed.

Lemma names_kept_trans h1 h2 h3 :
  names_kept h1 h2 -> names_kept h2 h3 -> names_kept h1 h3.
Proof.
  unfold names_kept. generalize (h_funcs h1) (h_funcs h2) (h_funcs h3).
  intros l1 l2 l3 H12. revert l3.
  induction H12 as [|f1 f2 l1 l2 [S12 N12] _ IH]; intros l3 H23;
    inversion H23 as [|f2' f3 l2' l3' [S23 N23] H23' E1 E2]; subst;
    constructor; [|apply IH; exact H23'].
  split; [congruence|].
  unfold default_name in *. rewrite S12 in N23.
  destruct N12 as [N12|[D1 P1]].
  - rewrite N12 in N23. destruct N23 as [N23|[D2 P2]]; [left|right]; auto.
  - right. split; [exact D1|].
    destruct N23 as [N23|[D2 P2]]; [rewrite N23; exact P1 | exact P2].
Qed.

Lemma keeps_from_same {A} (m : M A) h :
  (forall r h', m h = (r, h') -> h_funcs h' = h_funcs h) -> keeps_from h m.
Proof.
  intros H r h' _ E. apply H in E. unfold names_kept. rewrite E.
  apply (names_kept_refl h).
Qed.

Lemma keeps_from_ret {A} (a : A) h : keeps_from h (ret a).
Proof.
  apply keeps_from_same. intros r h' E. injection E as _ <-. reflexivity.
Qed.

Lemma keeps_from_raise {A} e h : keeps_from h (@raise A e).
Proof.
  apply keeps_from_same. intros r h' E. injection E as _ <-. reflexivity.
Qed.

Lemma keeps_from_getattr {A} name (x : attr A) h :
  keeps_from h (getattr name x).
Proof. destruct x; [apply keeps_from_raise | apply keeps_from_ret]. Qed.

Lemma keeps_from_need_int x h : keeps_from h (need_int x).
Proof. destruct x; [apply keeps_from_ret | apply keeps_from_raise]. Qed.

Lemma keeps_from_print e h : keeps_from h (print e).
Proof.
  apply keeps_from_same. intros r h' E. injection E as _ <-. reflexivity.
Qed.

Lemma keeps_from_define_type name st h : keeps_from h (define_type name st).
Proof.
  apply keeps_from_same. intros r h' E. injection E as _ <-. reflexivity.
Qed.

Lemma keeps_from_bind {A B} (m : M A) (k : A -> M B) h :
  keeps_from h m -> (forall a h1, keeps_from h1 (k a)) ->
  keeps_from h (bind m k).
Proof.
  intros Hm Hk r h' Hnd E. unfold bind in E.
  destruct (m h) as [[e|a] h1] eqn:Em.
  - injection E as _ <-. exact (Hm _ _ Hnd Em).
  - pose proof (Hm _ _ Hnd Em) as K1.
    eapply names_kept_trans; [exact K1|].
    apply (Hk a h1 r h'); [|exact E].
    rewrite (names_kept_starts _ _ K1). exact Hnd.
Qed.

Lemma keeps_from_get_host {B} (k : Host -> M B) h :
  keeps_from h (k h) -> keeps_from h (bind get_host k).
Proof. intros H r h' Hnd E. exact (H r h' Hnd E). Qed.

Lemma Forall2_map_same {A} (R : A -> A -> Prop) (g : A -> A) l :
  (forall x, In x l -> R x (g x)) -> Forall2 R l (map g l).
Proof.
  induction l as [|x l IH]; intro H; cbn; constructor.
  - apply H. left. reflexivity.
  - apply IH. intros y Hy. apply H. right. exact Hy.
Qed.

Lemma keeps_from_update_function start g h :
  (forall f, f_start (g f) = f_start f /\ f_name (g f) = f_name f) ->
  keeps_from h (update_function start g).
Proof.
  intros Hg r h' _ E. injection E as _ <-.
  unfold names_kept, update_funcs. cbn [h_funcs].
  apply Forall2_map_same. intros f _.
  destruct (f_start f =? start); [|auto].
  destruct (Hg f) as [Hs Hn]. auto.
Qed.

Lemma keeps_from_set_function_type start r ps v h :
  keeps_from h (set_function_type start r ps v).
Proof. apply keeps_from_update_function. intro f. split; reflexivity. Qed.

Lemma keeps_from_set_return_type start t h :
  keeps_from h (set_return_type start t).
Proof. apply keeps_from_update_function. intro f. split; reflexivity. Qed.

Lemma keeps_from_set_parameter start i name t h :
  keeps_from h (set_parameter start i name t).
Proof. apply keeps_from_update_function. intro f. split; reflexivity. Qed.

Lemma found_is_the_one (l : list Function) a f :
  NoDup (map f_start l) ->
  find (fun f => f_start f =? a) l = Some f ->
  forall x, In x l -> f_start x = a -> x = f.
Proof.
  induction l as [|y l IH]; intros Hnd Hf x Hin Hx; [destruct Hin|].
  cbn in Hnd. inversion Hnd as [|? ? Hnotin Hnd']; subst.
  cbn [find] in Hf.
  destruct (Z.eqb_spec (f_start y) (f_start x)) as [Ey|Ey].
  - injection Hf as <-. destruct Hin as [<-|Hin]; [reflexivity|].
    exfalso. apply Hnotin. rewrite Ey. apply in_map. exact Hin.
  - destruct Hin as [<-|Hin]; [congruence|].
    apply (IH Hnd' Hf x Hin eq_refl).
Qed.

Lemma keeps_from_guarded h a f new :
  get_function_at h a = Some f ->
  String.prefix (default_name f) new = true ->
  keeps_from h
    (if String.eqb (f_name f) (default_name f)
     then set_function_name (f_start f) new
     else ret tt).
Proof.
  intros Hf Hp.
  destruct (String.eqb_spec (f_name f) (default_name f)) as [Hd|_];
    [|apply keeps_from_ret].
  intros r h' Hnd E. injection E as _ <-.
  unfold names_kept, update_funcs. cbn [h_funcs].
  apply Forall2_map_same. intros x Hx.
  unfold get_function_at in Hf.
  pose proof (find_some _ _ Hf) as [_ Ha]. apply Z.eqb_eq in Ha.
  destruct (Z.eqb_spec (f_start x) (f_start f)) as [Ex|_]; [|auto].
  assert (x = f) as ->.
  { apply (found_is_the_one _ a f Hnd Hf x Hx). congruence. }
  cbn [f_start f_name]. split; [reflexivity|]. right. auto.
Qed.

Lemma default_name_extended f suffix :
  String.prefix (default_name f) ("sub_" ++ hex (f_start f) ++ suffix) = true.
Proof.
  unfold default_name.
  change (String.prefix (hex (f_start f)) (hex (f_start f) ++ suffix) = true).
  apply prefix_append.
Qed.

Lemma keeps_from_guarded_at h a f suffix :
  get_function_at h a = Some f ->
  keeps_from h
    (if String.eqb (f_name f) ("sub_" ++ hex a)
     then set_function_name a ("sub_" ++ hex a ++ suffix)
     else ret tt).
Proof.
  intro Hf. pose proof (find_some _ _ Hf) as [_ Ha]. apply Z.eqb_eq in Ha.
  rewrite <- Ha.
  apply (keeps_from_guarded h (f_start f) f);
    [rewrite Ha; exact Hf | apply default_name_extended].
Qed.

Ltac keeps_step :=
  cbv zeta;
  lazymatch goal with
  | |- keeps_from _ (ret _) => apply keeps_from_ret
  | |- keeps_from _ (raise _) => apply keeps_from_raise
  | |- keeps_from _ (print _) => apply keeps_from_print
  | |- keeps_from _ (getattr _ _) => apply keeps_from_getattr
  | |- keeps_from _ (need_int _) => apply keeps_from_need_int
  | |- keeps_from _ (define_type _ _) => apply keeps_from_define_type
  | |- keeps_from _ (set_function_type _ _ _ _) =>
      apply keeps_from_set_function_type
  | |- keeps_from _ (set_return_type _ _) => apply keeps_from_set_return_type
  | |- keeps_from _ (set_parameter _ _ _ _) => apply keeps_from_set_parameter
  | |- keeps_from _ update_analysis_and_wait => apply keeps_from_ret
  | |- keeps_from _ (bind get_host _) => apply keeps_from_get_host
  | |- keeps_from _ (bind _ _) => apply keeps_from_bind; [|intros ? ?]
  | E : get_function_at ?h ?a = Some ?f
    |- keeps_from ?h (if String.eqb (f_name ?f) ("sub_" ++ hex ?a) then _
                      else _) =>
      apply (keeps_from_guarded_at h a f), E
  | E : get_function_at ?h ?a = Some ?f
    |- keeps_from ?h (if String.eqb (f_name ?f) _ then _ else _) =>
      apply (keeps_from_guarded h a f);
      [exact E | apply default_name_extended]
  | |- keeps_from _ (match ?x with _ => _ end) => destruct x eqn:?
  end.

Lemma keeps_from_signature_func_type translator bv t raw h :
  keeps_from h (signature_func_type translator bv t raw).
Proof. unfold signature_func_type. repeat keeps_step. Qed.

(** X17. [annotate_functions] never takes a name away that somebody gave:
    however the call ends, with a value or with an exception, the host has
    the same functions at the same addresses, and a function has another
    name only if its name was the default [sub_<start>], which the new name
    extends ([_block_invoke], [_block_copy], [_block_dispose]).  The host is
    taken to have one function per start address. *)
Theorem annotate_functions_keeps_names :
  forall translator bv self bd h r h',
    NoDup (map f_start (h_funcs h)) ->
    annotate_functions translator bv self bd h = (r, h') ->
    names_kept h h'.
Proof.
  intros translator bv self bd h r h' Hnd E.
  assert (K : keeps_from h (annotate_functions translator bv self bd));
    [|exact (K r h' Hnd E)].
  clear. unfold annotate_functions.
  repeat first [apply keeps_from_signature_func_type | keeps_step].
Qed.

Lemma annotate_functions_keeps_names_witness :
  NoDup (map f_start (h_funcs named_functions)) /\
  names_kept named_functions
    (snd (annotate_functions no_translator (image 0 []) structured_literal
            copying_descriptor named_functions)) /\
  map f_name
    (h_funcs
       (snd (annotate_functions no_translator (image 0 []) structured_literal
               copying_descriptor named_functions)))
  = ["completion_handler"; "sub_2100_block_copy"]%string.
Proof.
  assert (Hnd : NoDup (map f_start (h_funcs named_functions))).
  { cbn. repeat constructor; cbn; intuition discriminate. }
  split; [exact Hnd|]. split.
  - apply (annotate_functions_keeps_names no_translator (image 0 [])
             structured_literal copying_descriptor named_functions
             (fst (annotate_functions no_translator (image 0 [])
                     structured_literal copying_descriptor named_functions))
             _ Hnd).
    apply surjective_pairing.
  - vm_compute. reflexivity.
Defined.


(** ** The data variables of the two block classes *)

Lemma make_data_var_unnamed_run address t h :
  exists name,
    make_data_var_unnamed address t h
    = (inr tt,
       update_data_vars
         (fun l =>
            {| dv_address := address; dv_name := name; dv_type := t |}
            :: filter (fun dv => negb (dv_address dv =? address)) l) h).
Proof. unfold make_data_var_unnamed. eexists. reflexivity. Qed.

(** X18. [_define_ns_concrete_block_imports] never raises.  It goes through
    [__NSConcreteGlobalBlock] and [__NSConcreteStackBlock] in this order and
    returns at the first that has no external symbol: without the one of
    the global class no data variable changes, whether the stack class has a
    symbol or not; every symbol it reaches has a data variable of type
    [Class] at its address afterwards. *)
Theorem define_imports_stops_at_first_missing :
  forall bv h,
  exists h',
    _define_ns_concrete_block_imports bv h = (inr tt, h') /\
    match get_symbol_of_type bv "__NSConcreteGlobalBlock" ExternalSymbol with
    | None => h_data_vars h' = h_data_vars h
    | Some g =>
        option_map dv_type (get_data_var_at h' (sym_address g))
        = Some TClass /\
        match
          get_symbol_of_type bv "__NSConcreteStackBlock" ExternalSymbol
        with
        | None => True
        | Some s =>
            option_map dv_type (get_data_var_at h' (sym_address s))
            = Some TClass
        end
    end.
Proof.
  intros bv h. unfold _define_ns_concrete_block_imports.
  destruct (returns_get_objc_type_Class h) as (h1 & E1 & R1).
  rewrite (bind_eq _ _ _ _ _ E1). cbn [define_imports].
  destruct (get_symbol_of_type bv "__NSConcreteGlobalBlock" ExternalSymbol)
    as [g|].
  - destruct (make_data_var_unnamed_run (sym_address g) TClass h1)
      as (ng & Eg).
    rewrite (bind_eq _ _ _ _ _ Eg).
    destruct (get_symbol_of_type bv "__NSConcreteStackBlock" ExternalSymbol)
      as [s|].
    + destruct (make_data_var_unnamed_run (sym_address s) TClass
                  (update_data_vars
                     (fun l =>
                        {| dv_address := sym_address g; dv_name := ng;
                           dv_type := TClass |}
                        :: filter
                             (fun dv => negb (dv_address dv =? sym_address g))
                             l) h1)) as (ns & Es).
      rewrite (bind_eq _ _ _ _ _ Es).
      eexists. split; [reflexivity|].
      unfold get_data_var_at, update_data_vars.
      cbn [h_data_vars find filter dv_address].
      rewrite !Z.eqb_refl. split; [|reflexivity].
      destruct (Z.eqb_spec (sym_address s) (sym_address g)) as [_|Hne];
        [reflexivity|].
      destruct (Z.eqb_spec (sym_address g) (sym_address s)) as [C|_];
        [congruence|].
      cbn [negb find dv_address]. rewrite Z.eqb_refl. reflexivity.
    + eexists. split; [reflexivity|].
      unfold get_data_var_at, update_data_vars.
      cbn [h_data_vars find dv_address]. rewrite Z.eqb_refl.
      split; [reflexivity|exact I].
  - exists h1. split; [reflexivity|]. apply R1.
Qed.

(** ** The data variable of a global literal *)

Lemma literal_struct_self bv self bd h st self' bd' h1 :
  literal_struct bv self bd h = (inr (st, self', bd'), h1) ->
  is_stack_block self' = is_stack_block self /\
  bl_address self' = bl_address self /\
  bl_object self' = bl_object self.
Proof.
  unfold literal_struct. intro H.
  apply bind_inr in H. destruct H as (t1 & h2 & _ & H).
  apply bind_inr in H. destruct H as (t2 & h3 & _ & H).
  apply bind_inr in H. destruct H as (t3 & h4 & _ & H).
  destruct (0 <? imported_variables_size bd).
  - apply bind_inr in H. destruct H as (layout & h5 & _ & H).
    apply bind_inr in H. destruct H as ([[st0 bi] leo] & h6 & _ & H).
    injection H as _ <- _ _. repeat split.
  - injection H as _ <- _ _. repeat split.
Qed.

Lemma report_size_keeps self st name bd h r h' :
  report_size self st name bd h = (r, h') ->
  h_types h' = h_types h /\ h_data_vars h' = h_data_vars h /\
  h_funcs h' = h_funcs h /\ h_var_names h' = h_var_names h /\
  h_var_types h' = h_var_types h.
Proof.
  unfold report_size. destruct (sb_width st <? bd_size bd);
    intro E; injection E as _ <-; repeat split.
Qed.

Lemma find_map_same_key {A} (p : A -> bool) (g : A -> A) l :
  (forall x, p (g x) = p x) ->
  find p (map g l) = option_map g (find p l).
Proof.
  intro Hg. induction l as [|x l IH]; [reflexivity|].
  cbn [map find]. rewrite Hg. destruct (p x); [reflexivity | exact IH].
Qed.

(** X19. When [annotate_literal] succeeds on a global literal, the host has
    the structure of the literal under [Block_literal_<address>] on top of
    the types it had; the data variable at the address of the literal, if
    there is one, is named [global_block_<address>] and has the type of that
    structure, and the data variable at any other address is as it was;
    functions and the names and types of stack variables are untouched. *)
Theorem annotate_literal_global_data_var :
  forall bv self bd h self' bd' h',
    is_stack_block self = false ->
    annotate_literal bv self bd h = (inr (self', bd'), h') ->
    let name := ("Block_literal_" ++ hex (bl_address self))%string in
    exists st,
      bl_struct_builder self' = Bound st /\
      bl_struct_type self' = Bound (TStruct name) /\
      h_types h' = (name, st) :: h_types h /\
      (forall a,
         get_data_var_at h' a
         = if a =? bl_address self
           then option_map
                  (fun _ =>
                     {| dv_address := a;
                        dv_name := ("global_block_" ++ hex a)%string;
                        dv_type := TStruct name |})
                  (get_data_var_at h a)
           else get_data_var_at h a) /\
      h_funcs h' = h_funcs h /\
      h_var_names h' = h_var_names h /\
      h_var_types h' = h_var_types h.
Proof.
  intros bv self bd h self' bd' h' Hglobal H name.
  unfold annotate_literal in H.
  apply bind_inr in H. destruct H as ([[st self0] bd0] & h0 & E & H).
  destruct (literal_struct_self _ _ _ _ _ _ _ _ E) as (Hs & Ha & _).
  destruct (frame_literal_struct _ _ _ _ _ _ E)
    as (Qt & Qn & Qv & Qd & Qf & _).
  apply bind_inr in H. destruct H as ([] & h1 & E1 & H).
  cbv [define_type modify] in E1. injection E1 as <-.
  cbn [is_stack_block set_bl_struct] in H. rewrite Hs, Hglobal in H.
  apply bind_inr in H. destruct H as ([] & h2 & E2 & H).
  cbv [set_data_var modify] in E2. injection E2 as <-.
  apply bind_inr in H. destruct H as ([] & h3 & E3 & H).
  injection H as <- _ <-.
  destruct (report_size_keeps _ _ _ _ _ _ _ E3) as (T3 & D3 & F3 & N3 & V3).
  cbn [h_types h_data_vars h_funcs h_var_names h_var_types update_data_vars
         update_types bl_address set_bl_struct] in T3, D3, F3, N3, V3.
  subst name. rewrite <- Ha.
  exists st. split; [reflexivity|]. split; [reflexivity|].
  split; [rewrite T3, Qt; reflexivity|].
  split; [|repeat split; congruence].
  intro a. unfold get_data_var_at. rewrite D3, Qd.
  rewrite find_map_same_key.
  - destruct (find (fun dv => dv_address dv =? a) (h_data_vars h))
      as [dv|] eqn:Ef.
    + apply find_some in Ef. destruct Ef as [_ Ea]. apply Z.eqb_eq in Ea.
      cbn [option_map]. rewrite Ea.
      destruct (a =? bl_address self0) eqn:C; [|reflexivity].
      apply Z.eqb_eq in C. rewrite C. reflexivity.
    + destruct (a =? bl_address self0); reflexivity.
  - intro x. destruct (Z.eqb_spec (dv_address x) (bl_address self0)) as [C|_];
      [cbn [dv_address]; rewrite C|]; reflexivity.
Qed.

Lemma annotate_literal_global_data_var_witness :
  exists self' bd' h',
    annotate_literal global_image global_literal
      (signed_descriptor 0x50000000) scenario_host
    = (inr (self', bd'), h') /\
    get_data_var_at h' 0x2fe0
    = Some {| dv_address := 0x2fe0; dv_name := "global_block_2fe0";
              dv_type := TStruct "Block_literal_2fe0" |}.
Proof.
  destruct (annotate_literal global_image global_literal
              (signed_descriptor 0x50000000) scenario_host)
    as [[e|[self' bd']] h'] eqn:E; [vm_compute in E; discriminate E|].
  destruct (annotate_literal_global_data_var global_image global_literal
              (signed_descriptor 0x50000000) scenario_host self' bd' h'
              eq_refl E)
    as (st & _ & _ & _ & Hdv & _).
  exists self', bd', h'. split; [reflexivity|].
  rewrite (Hdv 0x2fe0). reflexivity.
Defined.
